(** * Helios intercropping scene generator: model and checked properties

    The development follows the Python package [intercropping] and its
    driver script [scripts/generate_scene.py]:

    - [Py]        exceptions and the result monad of calls that may raise;
    - [Plants]    [geometry/plants.py]: the seeded layout generator;
    - [Camera]    [geometry/camera.py]: the nadir camera height;
    - [Constants] [config/constants.py]: labels and coefficient tables;
    - [Scene]     the Helios scene store as the package uses it;
    - [Soil], [Labels], [Properties]
                  [geometry/soil.py], [segmentation/labels.py],
                  [radiation/properties.py];
    - [Pipeline]  [scripts/generate_scene.py]: the control flow of [main];
    - [Growth]    [geometry/plants.py]: [build_plants] and [grow_plants];
    - [CameraPose]
                  the camera poses of [geometry/camera.py],
                  [radiation/imaging.py] and [visualization/renderer.py];
    - [Startup], [Imaging], [Files], [DateTime]
                  [core/scene.py], [save_camera_images] of
                  [radiation/imaging.py], [utils/file_utils.py] and
                  [core/context.py];
    - [Traces], [Jitter], [Ranges], [Labelled], [Store], [Coefficients]
                  vocabulary of the later statements.

    Python floats are modelled by exact rationals ([Q]) in the layout
    generator, where only [+], [*], [/], comparisons and [int()] occur, and
    by real numbers ([R]) in the camera geometry, which needs [sqrt] and
    [tan].  Every concrete input used below is a dyadic rational (or is far
    from the thresholds it is compared with), so binary64 arithmetic agrees
    with the exact value there. *)

From Stdlib Require Import ZArith QArith Qround Qminmax Reals Lra Lia Permutation.
From Stdlib Require Import Psatz DecimalString DecimalN Ascii.
From stdpp Require Import gmap strings list.

Local Open Scope Z_scope.

(* ===================================================================== *)
(** * Python exceptions and results *)
(* ===================================================================== *)

Module Py.

(** The exception classes the modelled code can meet.  [HeliosError] is
    [pyhelios.exceptions.HeliosError]; [OtherException] stands for any
    other subclass of [Exception]. *)
Inductive exn : Type :=
| ValueError
| ZeroDivisionError
| IndexError
| HeliosError
| OtherException.

Inductive result (A : Type) : Type :=
| Ok (a : A)
| Raise (e : exn).
Global Arguments Ok {A} a.
Global Arguments Raise {A} e.

Global Instance result_ret : MRet result := fun _ a => Ok a.
Global Instance result_bind : MBind result := fun _ _ f m =>
  match m with
  | Ok a => f a
  | Raise e => Raise e
  end.
Global Instance result_fmap : FMap result := fun _ _ f m =>
  match m with
  | Ok a => Ok (f a)
  | Raise e => Raise e
  end.

(** [int(x)] on a finite float: truncation toward zero. *)
Definition py_int (x : Q) : Z := Z.quot (Qnum x) (Z.pos (Qden x)).

(** [range(n)]. *)
Definition py_range (n : Z) : list Z := Z.of_nat <$> seq 0 (Z.to_nat n).

(** [enumerate(xs)]. *)
Definition py_enumerate {A} (xs : list A) : list (Z * A) :=
  imap (fun i x => (Z.of_nat i, x)) xs.

(** [xs[i]] for an index that is not negative. *)
Definition py_getitem {A} (xs : list A) (i : Z) : result A :=
  match xs !! Z.to_nat i with
  | Some x => Ok x
  | None => Raise IndexError
  end.

End Py.
Import Py.

(* ===================================================================== *)
(** * geometry/plants.py *)
(* ===================================================================== *)

Module Plants.

(** numpy's global generator, as far as [generate_intercrop_positions]
    uses it.  numpy is not part of the package, so the generator is a
    parameter of the model: a state, [np.random.seed] (which rejects
    seeds outside its range with [ValueError]), [np.random.shuffle] and
    [np.random.uniform]. *)
Class NumpyRandom : Type := {
  rng_state : Type;
  np_seed : Z -> option rng_state;
  np_shuffle : list string -> rng_state -> list string * rng_state;
  np_uniform : Q -> Q -> rng_state -> Q * rng_state;
}.

(** [np.random.shuffle] reorders its argument in place. *)
Class ShufflePermutes `{NumpyRandom} : Prop :=
  shuffle_permutes : forall l g, Permutation l (np_shuffle l g).1.

(** [np.clip(x, a_min, a_max)] is [minimum(maximum(x, a_min), a_max)]. *)
Definition np_clip (x a_min a_max : Q) : Q := Qmin (Qmax x a_min) a_max.

(** [np.linspace(start, stop, num)] with the default [endpoint=True]:
    [ValueError] for a negative [num], else the [num] samples
    [i * step + start] with [step = (stop - start) / (num - 1)]; a single
    sample is [start] (division by zero is 0 in [Q], and [i] is 0). *)
Definition np_linspace (start stop : Q) (num : Z) : result (list Q) :=
  if num <? 0 then Raise ValueError
  else
    let step := ((stop - start) / inject_Z (num - 1))%Q in
    Ok ((fun i => (inject_Z i * step + start)%Q) <$> py_range num).

Definition position : Type := string * Q * Q.

Section generator.
Context {rng : NumpyRandom}.

Definition bean_seeds (plot_width plot_length bean_density : Q) : Z :=
  py_int (bean_density * (plot_width * plot_length)).
Definition wheat_seeds (plot_width plot_length wheat_density : Q) : Z :=
  py_int (wheat_density * (plot_width * plot_length)).
Definition bean_emerged (plot_width plot_length bean_density bean_emergence : Q) : Z :=
  py_int (inject_Z (bean_seeds plot_width plot_length bean_density) * bean_emergence).
Definition wheat_emerged (plot_width plot_length wheat_density wheat_emergence : Q) : Z :=
  py_int (inject_Z (wheat_seeds plot_width plot_length wheat_density) * wheat_emergence).

(** [['bean'] * bean_emerged + ['wheat'] * wheat_emerged]; a negative
    repeat count gives the empty list. *)
Definition plant_types_unshuffled (bean_emerged wheat_emerged : Z) : list string :=
  replicate (Z.to_nat bean_emerged) "bean" ++ replicate (Z.to_nat wheat_emerged) "wheat".

Definition n_plants_this_row (total_plants n_rows row_idx : Z) : Z :=
  total_plants `div` n_rows + (if row_idx <? total_plants `mod` n_rows then 1 else 0).

(** The inner loop [for i in range(n_plants_this_row)], started at
    [plant_idx] with generator state [g].  It returns the positions the
    row appends, the new [plant_idx] and the new generator state. *)
Fixpoint place_row (plot_width plot_length row_y base_spacing : Q)
    (total_plants : Z) (plant_types : list string)
    (range_i : list Z) (plant_idx : Z) (g : rng_state)
  : result (list position * Z * rng_state) :=
  match range_i with
  | [] => Ok ([], plant_idx, g)
  | i :: range_i' =>
      if total_plants <=? plant_idx then Ok ([], plant_idx, g)
      else
        species ← py_getitem plant_types plant_idx;
        let '(jx, g1) := np_uniform (-(2 # 100)) (2 # 100) g in
        let x := (base_spacing * inject_Z (i + 1) + jx)%Q in
        let '(jy, g2) := np_uniform (-(15 # 1000)) (15 # 1000) g1 in
        let y := (row_y + jy)%Q in
        let x := np_clip x (5 # 100) (plot_width - (5 # 100)) in
        let y := np_clip y (5 # 100) (plot_length - (5 # 100)) in
        '(rest, plant_idx', g') ←
          place_row plot_width plot_length row_y base_spacing
                    total_plants plant_types range_i' (plant_idx + 1) g2;
        Ok ((species, x, y) :: rest, plant_idx', g')
  end.

(** The outer loop [for row_idx, row_y in enumerate(row_y_positions)].
    The result keeps the positions grouped by row, in row order;
    [positions] is their concatenation. *)
Fixpoint place_rows (plot_width plot_length : Q) (n_rows total_plants : Z)
    (plant_types : list string) (rows : list (Z * Q))
    (plant_idx : Z) (g : rng_state)
  : result (list (list position) * Z * rng_state) :=
  match rows with
  | [] => Ok ([], plant_idx, g)
  | (row_idx, row_y) :: rows' =>
      let n := n_plants_this_row total_plants n_rows row_idx in
      '(row, plant_idx1, g1) ←
        (if 0 <? n then
           let base_spacing := (plot_width / inject_Z (n + 1))%Q in
           place_row plot_width plot_length row_y base_spacing
                     total_plants plant_types (py_range n) plant_idx g
         else Ok ([], plant_idx, g));
      '(rest, plant_idx2, g2) ←
        place_rows plot_width plot_length n_rows total_plants
                   plant_types rows' plant_idx1 g1;
      Ok (row :: rest, plant_idx2, g2)
  end.

(** Lines 57-109: everything up to the end of the two loops.  [g0] is
    the state of numpy's global generator when the call starts. *)
Definition layout_rows
    (plot_width plot_length : Q) (n_rows : Z) (row_spacing : Q)
    (bean_density wheat_density bean_emergence wheat_emergence : Q)
    (seed : Z) (g0 : rng_state)
  : result (list (list position) * rng_state) :=
  match np_seed seed with
  | None => Raise ValueError
  | Some g =>
      let bean_emerged := bean_emerged plot_width plot_length bean_density bean_emergence in
      let wheat_emerged := wheat_emerged plot_width plot_length wheat_density wheat_emergence in
      let total_plants := bean_emerged + wheat_emerged in
      let '(plant_types, g) :=
        np_shuffle (plant_types_unshuffled bean_emerged wheat_emerged) g in
      row_y_positions ← np_linspace row_spacing (plot_length - row_spacing) n_rows;
      if n_rows =? 0 then Raise ZeroDivisionError
      else
        '(rows, _, g) ←
          place_rows plot_width plot_length n_rows total_plants plant_types
                     (py_enumerate row_y_positions) 0 g;
        Ok (rows, g)
  end.

Definition count_species (s : string) (positions : list position) : Z :=
  Z.of_nat (length (filter (fun p => p.1.1 = s) positions)).

(** The whole function.  The closing report divides the emitted counts
    by [plot_area], which raises [ZeroDivisionError] on a zero area. *)
Definition generate_intercrop_positions
    (plot_width plot_length : Q) (n_rows : Z) (row_spacing : Q)
    (bean_density wheat_density bean_emergence wheat_emergence : Q)
    (seed : Z) (g0 : rng_state)
  : result (list position * rng_state) :=
  '(rows, g) ←
    layout_rows plot_width plot_length n_rows row_spacing
                bean_density wheat_density bean_emergence wheat_emergence seed g0;
  let positions := concat rows in
  if Qeq_bool (plot_width * plot_length) 0 then Raise ZeroDivisionError
  else Ok (positions, g).

End generator.

(** A small linear congruential generator, used to run the model on
    concrete inputs.  Its shuffle inserts each element at a drawn index
    of the part already shuffled. *)
Module Lcg.
Definition next (g : Z) : Z := (1103515245 * g + 12345) `mod` 2147483648.

Definition seed (s : Z) : option Z :=
  if (0 <=? s) && (s <? 4294967296) then Some s else None.

Definition uniform (low high : Q) (g : Z) : Q * Z :=
  let g' := next g in
  ((low + (high - low) * (g' # 2147483648))%Q, g').

Definition insert_at {A} (k : nat) (x : A) (l : list A) : list A :=
  take k l ++ x :: drop k l.

Fixpoint shuffle (l : list string) (g : Z) : list string * Z :=
  match l with
  | [] => ([], g)
  | x :: l' =>
      let '(done, g1) := shuffle l' g in
      let g2 := next g1 in
      (insert_at (Z.to_nat (g2 `mod` Z.of_nat (S (length done)))) x done, g2)
  end.

Definition numpy_random : NumpyRandom :=
  {| rng_state := Z; np_seed := seed; np_shuffle := shuffle; np_uniform := uniform |}.
End Lcg.

End Plants.

(* ===================================================================== *)
(** * geometry/camera.py *)
(* ===================================================================== *)

Module Camera.
Local Open Scope R_scope.

(** [np.radians]. *)
Definition np_radians (degrees : R) : R := degrees * (PI / 180).

Definition calculate_nadir_camera_height
    (plot_width plot_length fov_degrees margin_factor : R) : R :=
  let diagonal := sqrt (plot_width ^ 2 + plot_length ^ 2) in
  let fov_rad := np_radians fov_degrees in
  let height := (diagonal / 2) / tan (fov_rad / 2) in
  height * margin_factor.

(** The defaults of the signature. *)
Definition default_fov_degrees : R := 60.
Definition default_margin_factor : R := 11 / 10.

End Camera.

(* ===================================================================== *)
(** * config/constants.py *)
(* ===================================================================== *)

Module Constants.

Definition PLANT_PART_GROUND : string := "ground".
Definition PLANT_PART_BEAN : string := "bean".
Definition PLANT_PART_WHEAT : string := "wheat".

Definition SOIL_REFLECTANCE : gmap string Q :=
  list_to_map [("Red", 35 # 100); ("Green", 25 # 100); ("Blue", 18 # 100); ("NIR", 38 # 100)].

Definition LEAF_REFLECTANCE : gmap string Q :=
  list_to_map [("Red", 10 # 100); ("Green", 35 # 100); ("Blue", 15 # 100); ("NIR", 50 # 100)].

Definition LEAF_TRANSMISSIVITY : gmap string Q :=
  list_to_map [("Red", 5 # 100); ("Green", 15 # 100); ("Blue", 8 # 100); ("NIR", 40 # 100)].

End Constants.

(* ===================================================================== *)
(** * The Helios scene store *)
(* ===================================================================== *)

Module Scene.

(** [pyhelios.Context] as the package uses it.  The engine is external;
    the model keeps what the calls of the package observe: identities
    are handed out from a counter, [getAllUUIDs] lists the primitives in
    creation order, primitive data is keyed by identity and field name,
    and writing data to an identity the store does not hold is an
    engine error. *)
Record Context : Type := {
  next_uuid : Z;
  all_uuids : list Z;
  string_data : gmap (Z * string) string;
  float_data : gmap (Z * string) Q;
}.

(** [Context()] *)
Definition new_context : Context :=
  {| next_uuid := 0; all_uuids := []; string_data := ∅; float_data := ∅ |}.

Definition getAllUUIDs (context : Context) : list Z := all_uuids context.

Definition add_primitives (n : nat) (context : Context) : list Z * Context :=
  let new := (fun i => next_uuid context + Z.of_nat i) <$> seq 0 n in
  (new, {| next_uuid := next_uuid context + Z.of_nat n;
           all_uuids := all_uuids context ++ new;
           string_data := string_data context;
           float_data := float_data context |}).

(** [addPatch]: one primitive, whose identity is returned. *)
Definition addPatch (context : Context) : Z * Context :=
  (next_uuid context, (add_primitives 1 context).2).

(** [addTile] with [subdiv = int2(sx, sy)]: one patch per cell; the
    engine rejects subdivision counts that are not positive with
    [ValueError]. *)
Definition addTile (sx sy : Z) (context : Context) : result (list Z * Context) :=
  if (0 <? sx) && (0 <? sy)
  then Ok (add_primitives (Z.to_nat sx * Z.to_nat sy) context)
  else Raise ValueError.

(** [addTrianglesFromArraysTextured]: one triangle per face; the engine
    raises when it cannot use the texture file. *)
Definition addTrianglesFromArraysTextured
    (n_faces : nat) (texture_usable : bool) (context : Context)
  : result (list Z * Context) :=
  if texture_usable then Ok (add_primitives n_faces context)
  else Raise HeliosError.

Definition setPrimitiveDataString
    (uuid : Z) (label value : string) (context : Context) : result Context :=
  if decide (uuid ∈ all_uuids context) then
    Ok {| next_uuid := next_uuid context;
          all_uuids := all_uuids context;
          string_data := <[(uuid, label) := value]> (string_data context);
          float_data := float_data context |}
  else Raise HeliosError.

Definition setPrimitiveDataFloat
    (uuid : Z) (label : string) (value : Q) (context : Context) : result Context :=
  if decide (uuid ∈ all_uuids context) then
    Ok {| next_uuid := next_uuid context;
          all_uuids := all_uuids context;
          string_data := string_data context;
          float_data := <[(uuid, label) := value]> (float_data context) |}
  else Raise HeliosError.

End Scene.

(* ===================================================================== *)
(** * geometry/soil.py *)
(* ===================================================================== *)

Module Soil.
Import Scene.

(** What [create_soil_plane] finds outside the scene: the files of the
    built-in texture directory, and whether the engine can use a given
    texture path. *)
Record installation : Type := {
  texture_dir : string;
  texture_files : list string;
  texture_usable : string -> bool;
}.

(** [utils/texture_utils.py]: the path when the file exists, else [None]. *)
Definition get_builtin_texture_path (inst : installation) (texture_name : string)
  : option string :=
  if decide (texture_name ∈ texture_files inst)
  then Some (texture_dir inst +:+ "/" +:+ texture_name)
  else None.

(** The [faces] array has two rows. *)
Definition n_faces : nat := 2.

(** An exception of [addTile], in the [except] branch or in the [else]
    branch, leaves the function. *)
Definition create_soil_plane (inst : installation) (context : Context)
    (width length : Q) (soil_texture : string) (subdivisions : Z) (margin : Q)
  : result ((Z * Q) * Context) :=
  let '(ground_uuid, context) := addPatch context in
  let texture_path := get_builtin_texture_path inst soil_texture in
  context ←
    match texture_path with
    | Some path =>
        match addTrianglesFromArraysTextured n_faces (texture_usable inst path) context with
        | Ok (_, context') => Ok context'
        | Raise _ =>
            '(_, context') ← addTile subdivisions subdivisions context; Ok context'
        end
    | None =>
        '(_, context') ← addTile subdivisions subdivisions context; Ok context'
    end;
  Ok ((ground_uuid, margin), context).

End Soil.

(* ===================================================================== *)
(** * segmentation/labels.py *)
(* ===================================================================== *)

Module Labels.
Import Scene Constants.

(** The loop [for uuid in all_uuids] with its two counters. *)
Fixpoint label_others (ground_uuid : Z) (uuids : list Z)
    (context : Context) (bean_primitives labeled_count : Z)
  : result (Context * Z * Z) :=
  match uuids with
  | [] => Ok (context, bean_primitives, labeled_count)
  | uuid :: uuids' =>
      if decide (uuid ≠ ground_uuid) then
        context ← setPrimitiveDataString uuid "plant_part" PLANT_PART_BEAN context;
        label_others ground_uuid uuids' context (bean_primitives + 1) (labeled_count + 1)
      else label_others ground_uuid uuids' context bean_primitives labeled_count
  end.

(** Returns [(labeled_count, bean_primitives, wheat_primitives)] and the
    updated store.  [plant_species_map] is the dict built by
    [build_plants]. *)
Definition apply_species_labels (context : Context) (ground_uuid : Z)
    (plant_species_map : gmap Z Z) : result ((Z * Z * Z) * Context) :=
  let labeled_count := 0 in
  let bean_primitives := 0 in
  let wheat_primitives := 0 in
  let all_uuids := getAllUUIDs context in
  context ← setPrimitiveDataString ground_uuid "plant_part" PLANT_PART_GROUND context;
  let labeled_count := labeled_count + 1 in
  '(context, bean_primitives, labeled_count) ←
    label_others ground_uuid all_uuids context bean_primitives labeled_count;
  Ok ((labeled_count, bean_primitives, wheat_primitives), context).

End Labels.

(* ===================================================================== *)
(** * radiation/properties.py *)
(* ===================================================================== *)

Module Properties.
Import Scene Constants.

Fixpoint set_soil_properties (uuid : Z) (bands : list string) (context : Context)
  : result Context :=
  match bands with
  | [] => Ok context
  | band :: bands' =>
      context ←
        match SOIL_REFLECTANCE !! band with
        | Some r =>
            context ← setPrimitiveDataFloat uuid ("reflectivity_" +:+ band) r context;
            setPrimitiveDataFloat uuid ("transmissivity_" +:+ band) 0 context
        | None => Ok context
        end;
      set_soil_properties uuid bands' context
  end.

Fixpoint set_leaf_properties (uuid : Z) (bands : list string) (context : Context)
  : result Context :=
  match bands with
  | [] => Ok context
  | band :: bands' =>
      context ←
        match LEAF_REFLECTANCE !! band with
        | Some r => setPrimitiveDataFloat uuid ("reflectivity_" +:+ band) r context
        | None => Ok context
        end;
      context ←
        match LEAF_TRANSMISSIVITY !! band with
        | Some t => setPrimitiveDataFloat uuid ("transmissivity_" +:+ band) t context
        | None => Ok context
        end;
      set_leaf_properties uuid bands' context
  end.

(** The loop [for uuid in all_uuids] of [apply_radiative_properties]. *)
Fixpoint set_all_properties (ground_uuid : Z) (bands : list string)
    (uuids : list Z) (context : Context) : result Context :=
  match uuids with
  | [] => Ok context
  | uuid :: uuids' =>
      context ←
        (if decide (uuid = ground_uuid)
         then set_soil_properties uuid bands context
         else set_leaf_properties uuid bands context);
      set_all_properties ground_uuid bands uuids' context
  end.

Definition apply_radiative_properties (context : Context) (ground_uuid : Z)
    (bands : option (list string)) : result (Z * Context) :=
  let bands := default ["Red"; "Green"; "Blue"; "NIR"] bands in
  let all_uuids := getAllUUIDs context in
  context ← set_all_properties ground_uuid bands all_uuids context;
  Ok (Z.of_nat (length all_uuids), context).

End Properties.

(* ===================================================================== *)
(** * scripts/generate_scene.py *)
(* ===================================================================== *)

Module Pipeline.

(** The command-line namespace, as far as it steers [main]. *)
Record arguments : Type := {
  plot_width : Q;
  plot_length : Q;
  growth_days : Z;
  bean_age : option Z;
  wheat_age : option Z;
  camera : bool;
  multispectral : bool;      (* [camera_type == 'multispectral'] *)
  segmentation : bool;
  save : bool;
  no_interactive : bool;
}.

(** The calls [main] makes into the package and the engine, in the order
    of the script. *)
Inductive call : Type :=
| parse_date_time
| check_required_plugins
| setup_helios_context
| create_soil_plane
| generate_intercrop_positions
| PlantArchitecture_enter
| setup_full_collision_system
| build_plants
| grow_plants
| getPrimitiveCount
| apply_species_labels
| calculate_solar_position
| get_next_output_folder
| apply_radiative_properties
| RadiationModel_enter
| setup_radiation_bands
| setup_sun_source
| configure_band_rendering
| setup_radiation_camera
| run_camera_simulation
| save_camera_images
| save_segmentation_masks
| export_scene
| scene_info_densities     (* [n_bean / plot_area], [n_wheat / plot_area] *)
| save_scene_metadata
| render_interactive.

Global Instance call_eq_dec : EqDecision call.
Proof. solve_decision. Defined.

(** What the surroundings do on one run: which calls raise, whether all
    plugins are there, and whether [save_camera_images] hands back an
    image name. *)
Record world : Type := {
  raises : call -> option exn;
  plugins_available : bool;
  primary_image : bool;
}.

Inductive message : Type :=
| msg_camera_imaging_failed (e : exn)   (* "Camera imaging failed: {e}" *)
| msg_unexpected_error (e : exn)        (* "Unexpected error: {e}" *)
| msg_continuing                        (* "Continuing with visualization..." *)
| msg_use_save                          (* "Use --save to export camera images" *)
| msg_complete.                         (* "COMPLETE" *)

Inductive event : Type :=
| Called (c : call)
| Raised (c : call) (e : exn)
| Released (c : call)       (* [__exit__] of a [with] block *)
| Printed (m : message).

(** Computations that append to the trace and may raise. *)
Definition M (A : Type) : Type := list event -> result A * list event.

Global Instance M_ret : MRet M := fun _ a t => (Ok a, t).
Global Instance M_bind : MBind M := fun _ _ f m t =>
  match m t with
  | (Ok a, t') => f a t'
  | (Raise e, t') => (Raise e, t')
  end.

Definition do_call (w : world) (c : call) : M unit := fun t =>
  match raises w c with
  | None => (Ok (), t ++ [Called c])
  | Some e => (Raise e, t ++ [Raised c e])
  end.

Definition raise_at {A} (c : call) (e : exn) : M A := fun t =>
  (Raise e, t ++ [Raised c e]).

Definition print (m : message) : M unit := fun t => (Ok (), t ++ [Printed m]).

Definition when (b : bool) (m : M unit) : M unit := if b then m else mret ().

(** [try: body except Exception as e: handler(e)] *)
Definition try_except {A} (body : M A) (handler : exn -> M A) : M A := fun t =>
  match body t with
  | (Ok a, t') => (Ok a, t')
  | (Raise e, t') => handler e t'
  end.

(** [with Resource(context) as r: body]; the resource is released on
    both ways out of the body. *)
Definition releasing {A} (resource : call) (body : M A) : M A := fun t =>
  let '(r, t') := body t in (r, t' ++ [Released resource]).

Definition with_resource {A} (w : world) (enter : call) (body : M A) : M A :=
  _ ← do_call w enter; releasing enter body.

Definition DEFAULT_INITIAL_AGE : Z := 5.

Definition is_helios_error (e : exn) : bool :=
  match e with HeliosError => true | _ => false end.

(** Lines 300-337: the [try] block of the camera stage with its two
    handlers. *)
Definition radiation_session (args : arguments) (w : world) (output_folder : bool) : M unit :=
  try_except
    (with_resource w RadiationModel_enter (
       _ ← do_call w setup_radiation_bands;
       _ ← do_call w setup_sun_source;
       _ ← do_call w configure_band_rendering;
       _ ← do_call w setup_radiation_camera;
       _ ← do_call w run_camera_simulation;
       if save args && output_folder then
         _ ← do_call w save_camera_images;
         when (segmentation args && primary_image w)
              (do_call w save_segmentation_masks)
       else print msg_use_save))
    (fun e =>
       if is_helios_error e then
         _ ← print (msg_camera_imaging_failed e); print msg_continuing
       else
         _ ← print (msg_unexpected_error e); print msg_continuing).

(** [main()], returning the exit status. *)
Definition main (args : arguments) (w : world) : M Z :=
  let bean_age := default (growth_days args) (bean_age args) in
  let wheat_age := default (growth_days args) (wheat_age args) in
  let bean_growth_time := Z.max 0 (bean_age - DEFAULT_INITIAL_AGE) in
  let wheat_growth_time := Z.max 0 (wheat_age - DEFAULT_INITIAL_AGE) in
  let max_growth_time := Z.max bean_growth_time wheat_growth_time in
  _ ← do_call w parse_date_time;
  _ ← do_call w check_required_plugins;
  if negb (plugins_available w) then mret 1
  else
    _ ← do_call w setup_helios_context;
    _ ← do_call w create_soil_plane;
    _ ← do_call w generate_intercrop_positions;
    _ ← with_resource w PlantArchitecture_enter (
          _ ← do_call w setup_full_collision_system;
          _ ← do_call w build_plants;
          when (0 <? max_growth_time) (do_call w grow_plants));
    _ ← do_call w getPrimitiveCount;
    _ ← when (segmentation args) (do_call w apply_species_labels);
    _ ← do_call w calculate_solar_position;
    output_folder ←
      (if save args then _ ← do_call w get_next_output_folder; mret true
       else mret false);
    _ ← when (camera args) (
          _ ← do_call w apply_radiative_properties;
          radiation_session args w output_folder);
    _ ← when (save args && output_folder) (
          _ ← do_call w export_scene;
          _ ← (if Qeq_bool (plot_width args * plot_length args) 0
               then raise_at scene_info_densities ZeroDivisionError
               else mret ());
          do_call w save_scene_metadata);
    _ ← when (negb (no_interactive args)) (do_call w render_interactive);
    _ ← print msg_complete;
    mret 0.

(** The calls made inside the [try] block of the camera stage. *)
Definition in_radiation_session (c : call) : bool :=
  match c with
  | RadiationModel_enter | setup_radiation_bands | setup_sun_source
  | configure_band_rendering | setup_radiation_camera | run_camera_simulation
  | save_camera_images | save_segmentation_masks => true
  | _ => false
  end.

(** The calls of the stages after the solar position. *)
Definition after_solar (c : call) : bool :=
  match c with
  | get_next_output_folder | apply_radiative_properties | export_scene
  | scene_info_densities | save_scene_metadata | render_interactive => true
  | c => in_radiation_session c
  end.

End Pipeline.

(* ===================================================================== *)
(** * Vocabulary of the statements *)
(* ===================================================================== *)

Module Spec.
Import Plants.

(** The clamped plot bounds of a layout coordinate. *)
Definition in_bounds (plot_width plot_length : Q) (p : position) : Prop :=
  ((5 # 100 <= p.1.2)%Q /\ (p.1.2 <= plot_width - (5 # 100))%Q) /\
  ((5 # 100 <= p.2)%Q /\ (p.2 <= plot_length - (5 # 100))%Q).

(** The species column of a layout. *)
Definition species_of (positions : list position) : list string :=
  (fun p => p.1.1) <$> positions.

(** [(n_bean, n_wheat)] of a returned layout; an exception stays one. *)
Definition species_counts {S} (r : result (list position * S)) : result (Z * Z) :=
  (fun out => (count_species "bean" out.1, count_species "wheat" out.1)) <$> r.

(** The values [n_plants_this_row] takes over the rows, in row order. *)
Definition row_counts (total_plants n_rows : Z) : list Z :=
  n_plants_this_row total_plants n_rows <$> py_range n_rows.

Definition total_of (l : list Z) : Z := foldr Z.add 0 l.

(** How many positions the loops can place on the given rows: a row
    planned with a count that is not positive places none. *)
Definition placeable (total_plants n_rows : Z) (rows : list (Z * Q)) : list nat :=
  (fun r => Z.to_nat (n_plants_this_row total_plants n_rows r.1)) <$> rows.

(** [v] is the leaf coefficient that belongs under the field [key]. *)
Definition leaf_coefficient (key : string) (v : Q) : Prop :=
  exists band,
    (key = "reflectivity_" +:+ band /\ Constants.LEAF_REFLECTANCE !! band = Some v) \/
    (key = "transmissivity_" +:+ band /\ Constants.LEAF_TRANSMISSIVITY !! band = Some v).

(** The primitive [u] carries the leaf coefficients of [band]. *)
Definition has_leaf_coefficients (context : Scene.Context) (u : Z) (band : string) : Prop :=
  (forall r, Constants.LEAF_REFLECTANCE !! band = Some r ->
             Scene.float_data context !! (u, "reflectivity_" +:+ band) = Some r) /\
  (forall t, Constants.LEAF_TRANSMISSIVITY !! band = Some t ->
             Scene.float_data context !! (u, "transmissivity_" +:+ band) = Some t).

(** Between two stores: same identities, and a leaf coefficient already
    in place at [u] stays in place. *)
Definition keeps_leaf_coefficients (u : Z) (context context' : Scene.Context) : Prop :=
  Scene.all_uuids context' = Scene.all_uuids context /\
  (forall key v, leaf_coefficient key v ->
                 Scene.float_data context !! (u, key) = Some v ->
                 Scene.float_data context' !! (u, key) = Some v).

(** An exception [e] was reported by one of the two handlers of the
    camera stage, which then goes on. *)
Definition logged (e : exn) (t : list Pipeline.event) : Prop :=
  (Pipeline.Printed (Pipeline.msg_camera_imaging_failed e) ∈ t \/
   Pipeline.Printed (Pipeline.msg_unexpected_error e) ∈ t)
  /\ Pipeline.Printed Pipeline.msg_continuing ∈ t.

End Spec.
Import Spec.

(** A small scene to run the store model on: an installation that ships
    [dirt.jpg], the soil plane of the unit plot, and three plant
    primitives added after it. *)
Module Example.
Import Scene Soil.

Definition installation : Soil.installation :=
  {| texture_dir := "textures";
     texture_files := ["dirt.jpg"; "SkyDome_clouds.jpg"];
     texture_usable := fun _ => true |}.

Definition soil : Context :=
  match create_soil_plane installation new_context 1 1 "dirt.jpg" 30 (3 # 10) with
  | Ok (_, context) => context
  | Raise _ => new_context
  end.

Definition scene : Context := (add_primitives 3 soil).2.

(** Surroundings in which exactly one call raises. *)
Definition failing (c : Pipeline.call) (e : exn) : Pipeline.world :=
  {| Pipeline.raises := fun c' => if decide (c' = c) then Some e else None;
     Pipeline.plugins_available := true;
     Pipeline.primary_image := true |}.

(** Surroundings in which no call raises. *)
Definition quiet : Pipeline.world :=
  {| Pipeline.raises := fun _ => None;
     Pipeline.plugins_available := true;
     Pipeline.primary_image := true |}.

(** The default command line with the given flags. *)
Definition command_line (camera segmentation save no_interactive : bool)
  : Pipeline.arguments :=
  {| Pipeline.plot_width := 1;
     Pipeline.plot_length := 1;
     Pipeline.growth_days := 40;
     Pipeline.bean_age := None;
     Pipeline.wheat_age := None;
     Pipeline.camera := camera;
     Pipeline.multispectral := false;
     Pipeline.segmentation := segmentation;
     Pipeline.save := save;
     Pipeline.no_interactive := no_interactive |}.

End Example.

(* ===================================================================== *)
(** * Further parts of the package *)
(* ===================================================================== *)

(** ** Vocabulary for traces of [main] *)
Module Traces.
Import Pipeline.

(** What a computation appends to the trace, whatever the trace so far. *)
Definition appends {A} (P : list event -> Prop) (m : M A) : Prop :=
  forall t, exists d, (m t).2 = t ++ d /\ P d.

(** The same with the result in view. *)
Definition finishes {A} (Q : result A -> list event -> Prop) (m : M A) : Prop :=
  forall t, exists r d, m t = (r, t ++ d) /\ Q r d.

(** No event of the trace is one of [bad]. *)
Definition without (bad : list event) (d : list event) : Prop :=
  forall ev, ev ∈ d -> ev ∉ bad.

(** The two resources [main] opens in a [with] block. *)
Definition is_resource (c : call) : bool :=
  match c with
  | PlantArchitecture_enter | RadiationModel_enter => true
  | _ => false
  end.

Global Instance exn_eq_dec : EqDecision exn.
Proof. solve_decision. Defined.

Global Instance message_eq_dec : EqDecision message.
Proof. solve_decision. Defined.

Global Instance event_eq_dec : EqDecision event.
Proof. solve_decision. Defined.

Definition occurrences (ev : event) (d : list event) : nat :=
  length (filter (fun ev' => ev' = ev) d).

(** Every resource is released as often as it was entered. *)
Definition balanced (d : list event) : Prop :=
  forall c, is_resource c = true ->
            occurrences (Called c) d = occurrences (Released c) d.

(** An exception leaves a computation exactly when a call outside the
    [try] block of the camera stage raised it. *)
Definition provenance {A} (r : result A) (d : list event) : Prop :=
  (forall c e, Raised c e ∈ d -> in_radiation_session c = false -> r = Raise e) /\
  (forall e, r = Raise e -> exists c, in_radiation_session c = false /\ Raised c e ∈ d).

End Traces.

(** ** geometry/plants.py: the jitter, [build_plants], [grow_plants] *)
Module Jitter.
Import Plants.
(** [np.random.uniform(low, high)] draws from between its two bounds. *)
Class UniformInRange `{NumpyRandom} : Prop :=
  uniform_in_range : forall low high g,
    (low <= high)%Q ->
    (low <= (np_uniform low high g).1)%Q /\ ((np_uniform low high g).1 <= high)%Q.

(** [y] lies within the cross-row jitter of [row_y]. *)
Definition on_row (row_y : Q) (p : position) : Prop :=
  (row_y - (15 # 1000) <= p.2)%Q /\ (p.2 <= row_y + (15 # 1000))%Q.

(** [row_y] lies within the clamped bounds of the plot. *)
Definition row_inside (plot_length row_y : Q) : Prop :=
  (5 # 100 <= row_y)%Q /\ (row_y <= plot_length - (5 # 100))%Q.

(** The position was placed on the row at [row_y]: its [y] is lines
    101 and 105 applied to [row_y], for some state of the generator. *)
Definition placed_on `{NumpyRandom} (plot_length row_y : Q) (p : position) : Prop :=
  exists g,
    p.2 = np_clip (row_y + (np_uniform (-(15 # 1000)) (15 # 1000) g).1)%Q
                  (5 # 100) (plot_length - (5 # 100))%Q.
End Jitter.

(** ** geometry/plants.py: the inputs the sowing arithmetic can take *)
Module Ranges.
Import Plants.

(** Python's floats are binary64 and the model reads them as the
    rationals they denote.  A product whose exact value is at most
    [float_limit] in magnitude is a finite float (the largest finite one
    is just below [2 ^ 1024]); beyond the floats' range the product is
    [inf] and [int()] of it raises [OverflowError]. *)
Definition float_limit : Q := inject_Z (2 ^ 1000).

Definition in_float_range (x : Q) : Prop :=
  (- float_limit <= x)%Q /\ (x <= float_limit)%Q.

(** A number of plants or rows the interpreter holds in a list without
    running out of memory: up to it [['bean'] * n] and
    [np.linspace(_, _, n)] return, and a float of this magnitude is
    within one of the rational it rounds. *)
Definition count_limit : Z := 2 ^ 20.

Definition in_count_range (x : Q) : Prop :=
  (- inject_Z count_limit <= x)%Q /\ (x <= inject_Z count_limit)%Q.

(** The inputs with which lines 59-79 meet no overflow: the plot area is
    a finite float, the two seed counts and the two emerged counts (with
    one seed of slack for the rounding of line 62 or 63) are counts of
    plants, and [n_rows] is a count of rows. *)
Definition inputs_in_range (plot_width plot_length : Q) (n_rows : Z)
    (bean_density wheat_density bean_emergence wheat_emergence : Q) : Prop :=
  in_float_range (plot_width * plot_length) /\
  in_count_range (bean_density * (plot_width * plot_length)) /\
  in_count_range (wheat_density * (plot_width * plot_length)) /\
  in_count_range
    (inject_Z (Z.abs (bean_seeds plot_width plot_length bean_density) + 1)
     * bean_emergence) /\
  in_count_range
    (inject_Z (Z.abs (wheat_seeds plot_width plot_length wheat_density) + 1)
     * wheat_emergence) /\
  n_rows <= count_limit.

(** The float [plot_area] of line 59 is zero only when the exact product
    is: a product of magnitude [1 / float_limit] or more does not
    underflow. *)
Definition area_not_tiny (plot_width plot_length : Q) : Prop :=
  (plot_width * plot_length == 0)%Q \/
  (1 / float_limit <= plot_width * plot_length)%Q \/
  (plot_width * plot_length <= - (1 / float_limit))%Q.
End Ranges.

Module Growth.
Import Plants.

(** [config/constants.py] *)
Definition SPECIES_BEAN : Z := 1.
Definition SPECIES_WHEAT : Z := 2.

(** One plant of the growth engine: its identity, the library model it
    was built from, where its base stands and its age. *)
Record plant_instance : Type := {
  plant_id : Z;
  model : string;
  base : Q * Q * Q;
  age : Q;
}.

(** [pyhelios.PlantArchitecture] as [build_plants] and [grow_plants] use
    it.  The engine is external; the model keeps the library model that is
    loaded, a counter that hands out plant identities, the plants built so
    far and the time the plants were advanced by.  Building without a
    loaded model is an engine error. *)
Record PlantArchitecture : Type := {
  loaded_model : option string;
  next_plant_id : Z;
  instances : list plant_instance;
  time_advanced : Q;
}.

Definition loadPlantModelFromLibrary (name : string) (pa : PlantArchitecture)
  : PlantArchitecture :=
  {| loaded_model := Some name;
     next_plant_id := next_plant_id pa;
     instances := instances pa;
     time_advanced := time_advanced pa |}.

Definition buildPlantInstanceFromLibrary (position : Q * Q * Q) (initial_age : Q)
    (pa : PlantArchitecture) : result (Z * PlantArchitecture) :=
  match loaded_model pa with
  | None => Raise HeliosError
  | Some name =>
      Ok (next_plant_id pa,
          {| loaded_model := loaded_model pa;
             next_plant_id := next_plant_id pa + 1;
             instances := instances pa ++ [{| plant_id := next_plant_id pa;
                                              model := name;
                                              base := position;
                                              age := initial_age |}];
             time_advanced := time_advanced pa |})
  end.

Definition advanceTime (dt : Q) (pa : PlantArchitecture) : PlantArchitecture :=
  {| loaded_model := loaded_model pa;
     next_plant_id := next_plant_id pa;
     instances := instances pa;
     time_advanced := (time_advanced pa + dt)%Q |}.

(** The loop [for species, x, y in positions] of one species. *)
Fixpoint build_species (wanted : string) (species_id : Z)
    (positions : list position) (initial_age margin : Q)
    (plant_species_map : gmap Z Z) (pa : PlantArchitecture)
  : result (gmap Z Z * PlantArchitecture) :=
  match positions with
  | [] => Ok (plant_species_map, pa)
  | (species, x, y) :: positions' =>
      if decide (species = wanted) then
        '(plant_id, pa) ←
          buildPlantInstanceFromLibrary ((x + margin)%Q, (y + margin)%Q, 0%Q) initial_age pa;
        build_species wanted species_id positions' initial_age margin
                      (<[plant_id := species_id]> plant_species_map) pa
      else
        build_species wanted species_id positions' initial_age margin
                      plant_species_map pa
  end.

(** [build_plants]; the [context] argument is not used by the body. *)
Definition build_plants (plant_architecture : PlantArchitecture)
    (positions : list position) (initial_age margin : Q)
  : result (gmap Z Z * PlantArchitecture) :=
  let plant_species_map : gmap Z Z := ∅ in
  let n_bean := count_species "bean" positions in
  let n_wheat := count_species "wheat" positions in
  '(plant_species_map, plant_architecture) ←
    (if 0 <? n_bean then
       let plant_architecture := loadPlantModelFromLibrary "bean" plant_architecture in
       build_species "bean" SPECIES_BEAN positions initial_age margin
                     plant_species_map plant_architecture
     else Ok (plant_species_map, plant_architecture));
  '(plant_species_map, plant_architecture) ←
    (if 0 <? n_wheat then
       let plant_architecture := loadPlantModelFromLibrary "wheat" plant_architecture in
       build_species "wheat" SPECIES_WHEAT positions initial_age margin
                     plant_species_map plant_architecture
     else Ok (plant_species_map, plant_architecture));
  Ok (plant_species_map, plant_architecture).

(** [grow_plants] *)
Definition grow_plants (plant_architecture : PlantArchitecture) (growth_time : Q)
  : PlantArchitecture :=
  if Qlt_le_dec 0 growth_time then advanceTime growth_time plant_architecture
  else plant_architecture.

(** The plants one species of a layout is built as: at the layout
    coordinate plus the margin, on the ground. *)
Definition planted (species : string) (initial_age margin : Q)
    (positions : list position) : list (string * (Q * Q * Q) * Q) :=
  (fun p : position => (species, ((p.1.2 + margin)%Q, (p.2 + margin)%Q, 0%Q), initial_age))
    <$> filter (fun p : position => p.1.1 = species) positions.

(** A built plant without its identity. *)
Definition described (i : plant_instance) : string * (Q * Q * Q) * Q :=
  (model i, base i, age i).

(** The soil rectangle of [geometry/soil.py]: the plot with the margin
    on every side, from the origin. *)
Definition soil_width (width margin : Q) : Q := (width + 2 * margin)%Q.
Definition soil_length (length margin : Q) : Q := (length + 2 * margin)%Q.

(** A point of the ground inside the soil rectangle, at least [inset]
    away from the edge of the plot proper. *)
Definition on_plot (width length margin inset : Q) (p : Q * Q * Q) : Prop :=
  ((margin + inset <= p.1.1)%Q /\ (p.1.1 <= margin + width - inset)%Q) /\
  ((margin + inset <= p.1.2)%Q /\ (p.1.2 <= margin + length - inset)%Q) /\
  (p.2 == 0)%Q.

Definition on_soil (width length margin : Q) (p : Q * Q * Q) : Prop :=
  ((0 <= p.1.1)%Q /\ (p.1.1 <= soil_width width margin)%Q) /\
  ((0 <= p.1.2)%Q /\ (p.1.2 <= soil_length length margin)%Q) /\
  (p.2 == 0)%Q.

End Growth.

(** ** geometry/camera.py, radiation/imaging.py, visualization/renderer.py:
       camera poses *)
Module CameraPose.
Import Camera.
Local Open Scope R_scope.

Definition vec3 : Type := R * R * R.

(** [calculate_camera_position] of [geometry/camera.py]; the height is
    asked for with the default margin factor. *)
Definition calculate_camera_position (plot_width plot_length margin fov_degrees : R)
  : vec3 * vec3 :=
  let soil_width := plot_width + 2 * margin in
  let soil_length := plot_length + 2 * margin in
  let camera_height :=
    calculate_nadir_camera_height soil_width soil_length fov_degrees default_margin_factor in
  let center_x := soil_width / 2 in
  let center_y := soil_length / 2 in
  let center_z := 0 in
  let camera_position := (center_x, center_y, camera_height) in
  let lookat_point := (center_x, center_y, center_z) in
  (camera_position, lookat_point).

(** The pose [setup_radiation_camera] of [radiation/imaging.py] hands to
    the radiation model and returns. *)
Definition setup_radiation_camera (plot_width plot_length margin fov : R)
  : vec3 * vec3 :=
  let soil_width := plot_width + 2 * margin in
  let soil_length := plot_length + 2 * margin in
  let camera_height :=
    calculate_nadir_camera_height soil_width soil_length fov default_margin_factor in
  let camera_center := (soil_width / 2, soil_length / 2, 0) in
  let camera_position := (soil_width / 2, soil_length / 2, camera_height) in
  (camera_position, camera_center).

(** [calculate_oblique_camera_position]. *)
Definition calculate_oblique_camera_position
    (plot_width plot_length margin angle_multiplier height_multiplier : R)
  : vec3 * vec3 :=
  let soil_width := plot_width + 2 * margin in
  let soil_length := plot_length + 2 * margin in
  let max_dim := Rmax plot_width plot_length in
  let lookat_x := soil_width / 2 in
  let lookat_y := soil_length / 2 in
  let lookat_z := 4 / 10 in
  let camera_x := lookat_x + max_dim * angle_multiplier in
  let camera_y := lookat_y + max_dim * angle_multiplier in
  let camera_z := max_dim * height_multiplier in
  ((camera_x, camera_y, camera_z), (lookat_x, lookat_y, lookat_z)).

Definition default_angle_multiplier : R := 12 / 10.
Definition default_height_multiplier : R := 1.

(** The pose [render_interactive] of [visualization/renderer.py] sets. *)
Definition render_interactive_pose (plot_width plot_length margin : R) : vec3 * vec3 :=
  let soil_width := plot_width + 2 * margin in
  let soil_length := plot_length + 2 * margin in
  let max_dim := Rmax plot_width plot_length in
  ((soil_width / 2 + max_dim * (12 / 10),
    soil_length / 2 + max_dim * (12 / 10),
    max_dim * 1),
   (soil_width / 2, soil_length / 2, 4 / 10)).

(** A ground point [(x, y, 0)] lies in the cone of half angle
    [fov_degrees / 2] around the line from the camera to the look-at
    point below it. *)
Definition in_view (pose : vec3 * vec3) (fov_degrees x y : R) : Prop :=
  let '((cx, cy, cz), _) := pose in
  sqrt ((x - cx) ^ 2 + (y - cy) ^ 2) <= cz * tan (np_radians fov_degrees / 2).

(** The camera looks straight down at the ground. *)
Definition nadir (pose : vec3 * vec3) : Prop :=
  let '((cx, cy, cz), (lx, ly, lz)) := pose in
  lx = cx /\ ly = cy /\ lz = 0 /\ 0 <= cz.

End CameraPose.

(** ** Vocabulary for the scene store *)
Module Labelled.

(** How many primitives the loop of [apply_species_labels] labels: the
    entries of the identity list other than the ground identity. *)
Definition others (ground_uuid : Z) (uuids : list Z) : Z :=
  Z.of_nat (length (filter (fun u => u ≠ ground_uuid) uuids)).

End Labelled.

Module Store.
Import Scene.

(** The state of a store that only the calls of [Scene] have touched:
    the identities handed out so far are distinct and lie below the
    counter. *)
Definition well_formed (context : Context) : Prop :=
  NoDup (all_uuids context) /\
  (forall u, u ∈ all_uuids context -> u < next_uuid context).

(** Whether [create_soil_plane] gets its textured surface. *)
Definition textured (inst : Soil.installation) (soil_texture : string) : bool :=
  match Soil.get_builtin_texture_path inst soil_texture with
  | Some path => Soil.texture_usable inst path
  | None => false
  end.

(** The primitives of the visible soil surface: the two triangles, or
    the cells of the tile (for a positive number of subdivisions). *)
Definition surface_size (inst : Soil.installation) (soil_texture : string)
    (subdivisions : Z) : nat :=
  if textured inst soil_texture then Soil.n_faces
  else (Z.to_nat subdivisions * Z.to_nat subdivisions)%nat.

End Store.

Module Coefficients.
Import Scene Constants.

(** The value [apply_radiative_properties] is to leave under the float
    field [key] of the primitive [u], when run for [bands] with the given
    ground identity: the soil reflectance and a zero transmissivity on the
    ground primitive, the leaf tables everywhere else. *)
Definition prescribed (ground_uuid : Z) (bands : list string)
    (u : Z) (key : string) (v : Q) : Prop :=
  exists band, band ∈ bands /\
    ((u = ground_uuid /\
      ((key = "reflectivity_" +:+ band /\ SOIL_REFLECTANCE !! band = Some v) \/
       (key = "transmissivity_" +:+ band /\ is_Some (SOIL_REFLECTANCE !! band) /\ v = 0%Q)))
     \/
     (u ≠ ground_uuid /\
      ((key = "reflectivity_" +:+ band /\ LEAF_REFLECTANCE !! band = Some v) \/
       (key = "transmissivity_" +:+ band /\ LEAF_TRANSMISSIVITY !! band = Some v)))).

(** From [context] to [context']: the same primitives and labels, and every
    float field either as it was or holding its prescribed value. *)
Definition only_prescribed (ground_uuid : Z) (bands : list string)
    (context context' : Context) : Prop :=
  all_uuids context' = all_uuids context /\
  next_uuid context' = next_uuid context /\
  string_data context' = string_data context /\
  (forall u key,
     float_data context' !! (u, key) = float_data context !! (u, key) \/
     (u ∈ all_uuids context /\
      exists v, prescribed ground_uuid bands u key v /\
                float_data context' !! (u, key) = Some v)).

(** The bands the tables of [config/constants.py] know. *)
Definition known_band (band : string) : Prop :=
  band = "Red" \/ band = "Green" \/ band = "Blue" \/ band = "NIR".

Definition default_bands : list string := ["Red"; "Green"; "Blue"; "NIR"].

End Coefficients.

(** ** core/scene.py, radiation/imaging.py, utils/file_utils.py *)
Module Startup.

(** What [check_required_plugins] prints. *)
Inductive line : Type :=
| error_not_available (plugin : string)
| all_plugins_available.

Definition default_required : list string :=
  ["plantarchitecture"; "visualizer"; "solarposition"].

(** The loop [for plugin in required]; [is_plugin_available] is the
    registry's answer. *)
Fixpoint check_plugins (is_plugin_available : string -> bool)
    (required : list string) (all_available : bool) (out : list line)
  : bool * list line :=
  match required with
  | [] => (all_available, out)
  | plugin :: required' =>
      if negb (is_plugin_available plugin) then
        check_plugins is_plugin_available required' false
                      (out ++ [error_not_available plugin])
      else check_plugins is_plugin_available required' all_available out
  end.

Definition check_required_plugins (is_plugin_available : string -> bool)
    (required : option (list string)) : bool * list line :=
  let required := default default_required required in
  let all_available := true in
  let '(all_available, out) :=
    check_plugins is_plugin_available required all_available [] in
  let out := if all_available then out ++ [all_plugins_available] else out in
  (all_available, out).

End Startup.

Module Imaging.

(** What the radiation model and the file system answer to
    [save_camera_images]: whether the images folder can be made, and the
    file each of the two writers returns, by [imagefile_base]. *)
Record writer : Type := {
  mkdir_images : option exn;
  writeCameraImage : string -> result string;
  writeNormCameraImage : string -> result string;
  path_name : string -> string;       (* [Path(file).name] *)
}.

Inductive line : Type :=
| multispectral_saved (name : string)
| rgb_saved (name : string)
| normalized_saved (name : string)
| normalized_failed (e : exn)
| export_failed (e : exn).

(** The body of the inner [try] for the normalized image. *)
Definition save_normalized_image (w : writer) : list line :=
  match writeNormCameraImage w "rgb_normalized" with
  | Ok norm_file => [normalized_saved (path_name w norm_file)]
  | Raise e => [normalized_failed e]
  end.

(** [save_camera_images]: the returned filename (or [None]), and what
    was printed.  [mkdir] is called before the [try]. *)
Definition save_camera_images (w : writer) (camera_type : string)
    (save_normalized : bool) : result (option string) * list line :=
  match mkdir_images w with
  | Some e => (Raise e, [])
  | None =>
      let primary :=
        if decide (camera_type = "multispectral") then
          match writeCameraImage w "multispectral" with
          | Ok image_file =>
              Ok (path_name w image_file, [multispectral_saved (path_name w image_file)])
          | Raise e => Raise e
          end
        else
          match writeCameraImage w "rgb" with
          | Ok image_file =>
              Ok (path_name w image_file, [rgb_saved (path_name w image_file)])
          | Raise e => Raise e
          end in
      match primary with
      | Ok (primary_image_filename, out) =>
          let out := if save_normalized then out ++ save_normalized_image w else out in
          (Ok (Some primary_image_filename), out)
      | Raise e => (Ok None, [export_failed e])
      end
  end.

(** The [imagefile_base] of the primary image. *)
Definition primary_base (camera_type : string) : string :=
  if decide (camera_type = "multispectral") then "multispectral" else "rgb".

End Imaging.

Module Files.

(** An entry of the base directory: its name, and whether [is_dir()]
    holds for it.  Names are ASCII. *)
Definition entry : Type := string * bool.

(** The base directory as the function finds it. *)
Inductive node : Type :=
| Missing
| NotADirectory
| Directory (entries : list entry).

Inductive error : Type := FileExistsError | ValueError.

(** [str.isdigit] on an ASCII string: not empty, decimal digits only. *)
Definition is_digit (c : Ascii.ascii) : bool :=
  (48 <=? Ascii.nat_of_ascii c)%nat && (Ascii.nat_of_ascii c <=? 57)%nat.

Definition isdigit (s : string) : bool :=
  match s with
  | EmptyString => false
  | _ => forallb is_digit (String.list_ascii_of_string s)
  end.

(** [int(s)] for a string of decimal digits. *)
Definition py_int_of_string (s : string) : option N :=
  N.of_uint <$> NilZero.uint_of_string s.

(** [str(n)] for an integer that is not negative. *)
Definition py_str (n : N) : string := NilZero.string_of_uint (N.to_uint n).

(** [[int(d.name) for d in base_path.iterdir()
      if d.is_dir() and d.name.isdigit()]] *)
Definition existing (entries : list entry) : option (list N) :=
  mapM (fun d : entry => py_int_of_string d.1)
       (filter (fun d : entry => d.2 = true /\ isdigit d.1 = true) entries).

(** [max(existing, default=0)] *)
Definition py_max_default (l : list N) : N := foldr N.max 0%N l.

(** [Path.mkdir(parents=True, exist_ok=True)] of the entry [name]. *)
Definition mkdir (name : string) (entries : list entry) : error + list entry :=
  if decide ((name, false) ∈ entries) then inl FileExistsError
  else if decide ((name, true) ∈ entries) then inr entries
  else inr (entries ++ [(name, true)]).

(** [get_next_output_folder]: the name of the returned folder under
    [base_dir] and the base directory afterwards, or the exception. *)
Definition get_next_output_folder (base : node) : error + string * list entry :=
  match base with
  | NotADirectory => inl FileExistsError
  | _ =>
      let entries := match base with Directory entries => entries | _ => [] end in
      match existing entries with
      | None => inl ValueError
      | Some existing =>
          let next_num := (py_max_default existing + 1)%N in
          match mkdir (py_str next_num) entries with
          | inl e => inl e
          | inr entries' => inr (py_str next_num, entries')
          end
      end
  end.

(** The entries the function lists. *)
Definition entries_of (base : node) : list entry :=
  match base with Directory entries => entries | _ => [] end.

(** The numbers of the numbered folders of a directory. *)
Definition numbered (entries : list entry) (n : N) : Prop :=
  exists name, (name, true) ∈ entries /\ isdigit name = true /\
               py_int_of_string name = Some n.

End Files.

(** ** core/context.py *)
Module DateTime.

(** [s.split(sep)] for a separator of one character: the pieces between
    the separators, at least one piece. *)
Fixpoint split (sep : Ascii.ascii) (s : string) : list string :=
  match s with
  | EmptyString => [EmptyString]
  | String c s' =>
      if decide (c = sep) then EmptyString :: split sep s'
      else match split sep s' with
           | part :: parts => String c part :: parts
           | [] => [String c EmptyString]
           end
  end.

(** How often [sep] occurs in [s]. *)
Fixpoint count (sep : Ascii.ascii) (s : string) : nat :=
  match s with
  | EmptyString => 0
  | String c s' => (if decide (c = sep) then 1 else 0) + count sep s'
  end.

(** Python's [int] on a [str]; the built-in is a parameter of the model. *)
Class PyInt : Type := int : string -> result Z.

Section parser.
Context {py_int_of_str : PyInt}.

(** [int(date_parts[i])] *)
Definition int_part (date_parts : list string) (i : Z) : result Z :=
  part ← py_getitem date_parts i; int part.

(** [hour, minute = map(int, parts)]: the unpacking draws the items one
    by one, and a third one to see that there is none. *)
Definition unpack_two (parts : list string) : result (Z * Z) :=
  match parts with
  | [] => Raise ValueError
  | [a] => _ ← int a; Raise ValueError
  | [a; b] => hour ← int a; minute ← int b; Ok (hour, minute)
  | a :: b :: c :: _ => _ ← int a; _ ← int b; _ ← int c; Raise ValueError
  end.

Definition parse_date_time (date_str time_str : string)
  : result (Z * Z * Z * Z * Z) :=
  let date_parts := split "-"%char date_str in
  year ← int_part date_parts 0;
  month ← int_part date_parts 1;
  day ← int_part date_parts 2;
  '(hour, minute) ← unpack_two (split ":"%char time_str);
  Ok (year, month, day, hour, minute).

End parser.

(** An [int] that reads strings of decimal digits and rejects the rest;
    enough of the built-in to run the parser on plain dates. *)
Definition digits_only : PyInt := fun s =>
  match Files.py_int_of_string s with
  | Some n => Ok (Z.of_N n)
  | None => Raise ValueError
  end.

End DateTime.

(* ===================================================================== *)
(** * Properties of the layout generator *)
(* ===================================================================== *)

Import Plants.

(** ** The stand-in generator satisfies the shuffle law *)

Lemma insert_at_permutation {A} (k : nat) (x : A) (l : list A) :
  Permutation (x :: l) (Lcg.insert_at k x l).
Proof.
  unfold Lcg.insert_at.
  rewrite <- (take_drop k l) at 1.
  apply Permutation_middle.
Qed.

Lemma lcg_shuffle_permutation (l : list string) (g : Z) :
  Permutation l (Lcg.shuffle l g).1.
Proof.
  revert g. induction l as [|x l IH]; intros g; simpl.
  - constructor.
  - specialize (IH g). destruct (Lcg.shuffle l g) as [shuffled g1]; simpl in *.
    etransitivity; [|apply insert_at_permutation].
    by constructor.
Qed.

#[local] Existing Instance Lcg.numpy_random.

#[local] Instance lcg_shuffle_permutes : ShufflePermutes.
Proof. intros l g. apply lcg_shuffle_permutation. Qed.

(** ** Clamping *)

Lemma np_clip_bounds (x a_min a_max : Q) :
  (a_min <= a_max)%Q ->
  (a_min <= np_clip x a_min a_max)%Q /\ (np_clip x a_min a_max <= a_max)%Q.
Proof.
  intros Hle. unfold np_clip. split.
  - apply Q.min_glb; [apply Q.le_max_r | exact Hle].
  - apply Q.le_min_r.
Qed.

Lemma np_clip_inverted (x a_min a_max : Q) :
  (a_max < a_min)%Q -> (np_clip x a_min a_max == a_max)%Q.
Proof.
  intros Hlt. unfold np_clip. apply Q.min_r.
  apply Qle_trans with a_min; [by apply Qlt_le_weak | apply Q.le_max_r].
Qed.

(** ** The two loops *)

Section loops.
Context `{NumpyRandom}.

Lemma place_row_bounds plot_width plot_length row_y base_spacing total_plants
    plant_types range_i plant_idx g ps plant_idx' g' :
  (5 # 100 <= plot_width - (5 # 100))%Q ->
  (5 # 100 <= plot_length - (5 # 100))%Q ->
  place_row plot_width plot_length row_y base_spacing total_plants plant_types
            range_i plant_idx g = Ok (ps, plant_idx', g') ->
  Forall (in_bounds plot_width plot_length) ps.
Proof.
  intros Hw Hl. revert plant_idx g ps plant_idx' g'.
  induction range_i as [|i range_i IH]; intros p g ps p' g' Hrun; simpl in Hrun.
  - inversion Hrun; constructor.
  - destruct (total_plants <=? p); [inversion Hrun; constructor|].
    destruct (py_getitem plant_types p) as [species|]; simpl in Hrun; [|discriminate].
    destruct (np_uniform _ _ g) as [jx g1].
    destruct (np_uniform _ _ g1) as [jy g2].
    destruct (place_row _ _ _ _ _ _ range_i (p + 1) g2) as [[[rest p2] g3]|] eqn:Hrest;
      simpl in Hrun; [|discriminate].
    inversion Hrun; subst. constructor; [|by eapply IH].
    split; simpl; by apply np_clip_bounds.
Qed.

Lemma place_row_emits plot_width plot_length row_y base_spacing total_plants
    plant_types range_i plant_idx g :
  0 <= plant_idx ->
  total_plants <= Z.of_nat (length plant_types) ->
  exists ps g',
    place_row plot_width plot_length row_y base_spacing total_plants plant_types
              range_i plant_idx g = Ok (ps, plant_idx + Z.of_nat (length ps), g') /\
    length ps = (length range_i `min` Z.to_nat (total_plants - plant_idx))%nat /\
    species_of ps = take (length ps) (drop (Z.to_nat plant_idx) plant_types).
Proof.
  intros Hp Hlen. revert plant_idx g Hp.
  induction range_i as [|i range_i IH]; intros p g Hp; cbn [place_row].
  - exists [], g. rewrite Z.add_0_r. done.
  - destruct (Z.leb_spec total_plants p) as [Hdone|Hmore].
    + exists [], g. rewrite Z.add_0_r. split; [done|]. split; [cbn [length]; lia|done].
    + destruct (lookup_lt_is_Some_2 plant_types (Z.to_nat p)) as [species Hsp]; [lia|].
      unfold py_getitem. rewrite Hsp. simpl.
      destruct (np_uniform _ _ g) as [jx g1].
      destruct (np_uniform _ _ g1) as [jy g2].
      destruct (IH (p + 1) g2) as (rest & g3 & Hrun & Hcount & Hspecies); [lia|].
      rewrite Hrun. simpl.
      eexists _, g3. split; [|split].
      * do 3 f_equal. simpl. lia.
      * cbn [length]. rewrite Hcount.
        destruct (Z.to_nat (total_plants - p)) eqn:Hleft; lia.
      * simpl. rewrite Hspecies. rewrite (drop_S _ _ _ Hsp). simpl.
        do 2 f_equal. f_equal. lia.
Qed.

End loops.

Section rows.
Context `{NumpyRandom}.

Lemma length_py_range (n : Z) : length (py_range n) = Z.to_nat n.
Proof. unfold py_range. by rewrite length_fmap, length_seq. Qed.

Lemma place_rows_bounds plot_width plot_length n_rows total_plants plant_types
    rows plant_idx g out plant_idx' g' :
  (5 # 100 <= plot_width - (5 # 100))%Q ->
  (5 # 100 <= plot_length - (5 # 100))%Q ->
  place_rows plot_width plot_length n_rows total_plants plant_types
             rows plant_idx g = Ok (out, plant_idx', g') ->
  Forall (in_bounds plot_width plot_length) (concat out).
Proof.
  intros Hw Hl. revert plant_idx g out plant_idx' g'.
  induction rows as [|[row_idx row_y] rows IH]; intros p g out p' g' Hrun;
    cbn [place_rows] in Hrun.
  - inversion Hrun; constructor.
  - destruct (if 0 <? _ then _ else _) as [[[row p1] g1]|] eqn:Hrow;
      simpl in Hrun; [|discriminate].
    destruct (place_rows _ _ _ _ _ rows p1 g1) as [[[rest p2] g2]|] eqn:Hrest;
      simpl in Hrun; [|discriminate].
    inversion Hrun; subst. simpl. apply Forall_app. split; [|by eapply IH].
    destruct (0 <? _).
    + by eapply place_row_bounds.
    + inversion Hrow; constructor.
Qed.

Lemma place_rows_emits plot_width plot_length n_rows total_plants plant_types
    rows plant_idx g :
  0 <= plant_idx ->
  total_plants <= Z.of_nat (length plant_types) ->
  exists out g',
    place_rows plot_width plot_length n_rows total_plants plant_types
               rows plant_idx g
      = Ok (out, plant_idx + Z.of_nat (length (concat out)), g') /\
    length (concat out)
      = (sum_list (placeable total_plants n_rows rows)
           `min` Z.to_nat (total_plants - plant_idx))%nat /\
    species_of (concat out)
      = take (length (concat out)) (drop (Z.to_nat plant_idx) plant_types) /\
    ((sum_list (placeable total_plants n_rows rows)
        <= Z.to_nat (total_plants - plant_idx))%nat ->
     length <$> out = placeable total_plants n_rows rows).
Proof.
  intros Hp Hlen. revert plant_idx g Hp.
  induction rows as [|[row_idx row_y] rows IH]; intros p g Hp; cbn [place_rows].
  - exists [], g. rewrite Z.add_0_r. repeat split; done.
  - set (n := n_plants_this_row total_plants n_rows row_idx).
    assert (exists row g1,
      (if 0 <? n
       then place_row plot_width plot_length row_y
              (plot_width / inject_Z (n + 1))%Q total_plants plant_types
              (py_range n) p g
       else Ok ([], p, g)) = Ok (row, p + Z.of_nat (length row), g1) /\
      length row = (Z.to_nat n `min` Z.to_nat (total_plants - p))%nat /\
      species_of row = take (length row) (drop (Z.to_nat p) plant_types))
      as (row & g1 & -> & Hrow & Hrow_species).
    { destruct (Z.ltb_spec 0 n) as [Hn|Hn].
      - destruct (place_row_emits plot_width plot_length row_y
                    (plot_width / inject_Z (n + 1))%Q total_plants plant_types
                    (py_range n) p g Hp Hlen) as (row & g1 & Hrun & Hcount & Hsp).
        exists row, g1. rewrite length_py_range in Hcount. done.
      - exists [], g. rewrite Z.add_0_r. repeat split; try done. cbn [length]. lia. }
    cbn.
    destruct (IH (p + Z.of_nat (length row)) g1) as (rest & g2 & -> & Hrest & Hsp & Hexact);
      [lia|].
    cbn. exists (row :: rest), g2.
    change (placeable total_plants n_rows ((row_idx, row_y) :: rows))
      with (Z.to_nat n :: placeable total_plants n_rows rows).
    cbn [concat sum_list_with]. rewrite length_app.
    split; [do 3 f_equal; lia|]. split; [|split].
    + rewrite Hrest, !Hrow. unfold id, placeable. subst n. lia.
    + unfold species_of in *. rewrite fmap_app, Hrow_species, Hsp.
      rewrite <- take_take_drop. f_equal.
      rewrite drop_drop. do 2 f_equal. lia.
    + unfold id. intros Hfit. cbn [fmap list_fmap]. f_equal.
      * rewrite Hrow. unfold placeable in *. subst n. lia.
      * apply Hexact. rewrite Hrow. unfold placeable in *. subst n. lia.
Qed.

End rows.

(** ** Row counts *)

Lemma fmap_constant {A B} (f : A -> B) (c : B) (l : list A) :
  (forall x, x ∈ l -> f x = c) -> f <$> l = replicate (length l) c.
Proof.
  induction l as [|x l IH]; intros Hf; [done|].
  cbn. f_equal.
  - apply Hf. by left.
  - apply IH. intros y Hy. apply Hf. by right.
Qed.

Lemma total_of_app (l k : list Z) : total_of (l ++ k) = total_of l + total_of k.
Proof. unfold total_of. induction l as [|x l IH]; cbn [foldr app]; lia. Qed.

Lemma total_of_replicate (n : nat) (c : Z) : total_of (replicate n c) = Z.of_nat n * c.
Proof. unfold total_of. induction n as [|n IH]; cbn [foldr replicate]; lia. Qed.

Lemma py_range_split (n r : Z) :
  0 <= r <= n ->
  py_range n = py_range r ++ (Z.of_nat <$> seq (Z.to_nat r) (Z.to_nat (n - r))).
Proof.
  intros Hr. unfold py_range. rewrite <- fmap_app, <- seq_app.
  do 2 f_equal. lia.
Qed.

(** The first [total_plants % n_rows] rows get one plant more than the
    others. *)
Lemma row_counts_shape (total_plants n_rows : Z) :
  1 <= n_rows ->
  row_counts total_plants n_rows
  = replicate (Z.to_nat (total_plants `mod` n_rows)) (total_plants `div` n_rows + 1)
    ++ replicate (Z.to_nat (n_rows - total_plants `mod` n_rows)) (total_plants `div` n_rows).
Proof.
  intros Hn.
  pose proof (Z.mod_pos_bound total_plants n_rows ltac:(lia)) as Hr.
  unfold row_counts.
  rewrite (py_range_split n_rows (total_plants `mod` n_rows)) by lia.
  rewrite fmap_app. f_equal.
  - erewrite fmap_constant.
    + by rewrite length_py_range.
    + intros idx Hidx. apply list_elem_of_fmap in Hidx as (i & -> & Hi).
      apply elem_of_seq in Hi. unfold n_plants_this_row.
      destruct (Z.ltb_spec (Z.of_nat i) (total_plants `mod` n_rows)); lia.
  - erewrite fmap_constant.
    + by rewrite length_fmap, length_seq.
    + intros idx Hidx. apply list_elem_of_fmap in Hidx as (i & -> & Hi).
      apply elem_of_seq in Hi. unfold n_plants_this_row.
      destruct (Z.ltb_spec (Z.of_nat i) (total_plants `mod` n_rows)); lia.
Qed.

Lemma row_counts_total (total_plants n_rows : Z) :
  1 <= n_rows -> total_of (row_counts total_plants n_rows) = total_plants.
Proof.
  intros Hn. rewrite row_counts_shape by done.
  pose proof (Z.mod_pos_bound total_plants n_rows ltac:(lia)) as Hr.
  pose proof (Z.div_mod total_plants n_rows ltac:(lia)) as Hdm.
  rewrite total_of_app, !total_of_replicate, !Z2Nat.id by lia. nia.
Qed.

Lemma row_counts_values (total_plants n_rows c : Z) :
  1 <= n_rows -> c ∈ row_counts total_plants n_rows ->
  c = total_plants `div` n_rows \/ c = total_plants `div` n_rows + 1.
Proof.
  intros Hn. rewrite row_counts_shape by done.
  intros [Hc|Hc]%elem_of_app; apply elem_of_replicate_inv in Hc; lia.
Qed.

(** What the loops can place on the planned rows adds up to the total
    (to nothing when the total is negative). *)
Lemma placeable_total (total_plants n_rows : Z) :
  1 <= n_rows ->
  sum_list (Z.to_nat <$> row_counts total_plants n_rows) = Z.to_nat total_plants.
Proof.
  intros Hn. rewrite row_counts_shape by done.
  pose proof (Z.mod_pos_bound total_plants n_rows ltac:(lia)) as Hr.
  pose proof (Z.div_mod total_plants n_rows ltac:(lia)) as Hdm.
  rewrite fmap_app, !fmap_replicate, sum_list_with_app, !sum_list_replicate.
  destruct (Z.le_gt_cases 0 (total_plants `div` n_rows)) as [Hbase|Hbase]; nia.
Qed.

Lemma placeable_enumerate (total_plants n_rows : Z) (ys : list Q) :
  length ys = Z.to_nat n_rows ->
  placeable total_plants n_rows (py_enumerate ys)
  = Z.to_nat <$> row_counts total_plants n_rows.
Proof.
  intros Hlen. unfold placeable, py_enumerate, row_counts, py_range.
  rewrite fmap_imap, <- !list_fmap_compose, <- Hlen.
  rewrite <- (imap_seq_0 ys). done.
Qed.

Lemma np_linspace_length (start stop : Q) (num : Z) :
  0 <= num ->
  exists ys, np_linspace start stop num = Ok ys /\ length ys = Z.to_nat num.
Proof.
  intros Hnum. unfold np_linspace.
  destruct (Z.ltb_spec num 0); [lia|].
  eexists. split; [done|]. by rewrite length_fmap, length_py_range.
Qed.

(** ** Species counts *)

Lemma count_species_of (s : string) (positions : list position) :
  count_species s positions
  = Z.of_nat (length (filter (fun s' => s' = s) (species_of positions))).
Proof.
  unfold count_species, species_of. f_equal.
  induction positions as [|p ps IH]; [done|].
  cbn [fmap list_fmap]. fold (species_of ps) in *. rewrite !filter_cons.
  destruct (decide (p.1.1 = s)); cbn [length]; [f_equal|]; apply IH.
Qed.

Lemma count_in_replicate (s t : string) (n : nat) :
  length (filter (fun s' => s' = s) (replicate n t)) = if decide (t = s) then n else 0%nat.
Proof.
  induction n as [|n IH]; cbn [replicate].
  - by destruct (decide (t = s)).
  - rewrite filter_cons. destruct (decide (t = s)); cbn [length]; by rewrite IH.
Qed.

Lemma count_in_unshuffled (s : string) (b w : Z) :
  length (filter (fun s' => s' = s) (plant_types_unshuffled b w))
  = ((if decide ("bean" = s) then Z.to_nat b else 0)
     + (if decide ("wheat" = s) then Z.to_nat w else 0))%nat.
Proof.
  unfold plant_types_unshuffled.
  by rewrite filter_app, length_app, !count_in_replicate.
Qed.

Lemma length_unshuffled (b w : Z) :
  length (plant_types_unshuffled b w) = (Z.to_nat b + Z.to_nat w)%nat.
Proof. unfold plant_types_unshuffled. by rewrite length_app, !length_replicate. Qed.

(** The species drawn from two shuffles of the same sown list agree in
    number, however many of them the loops consume. *)
Lemma drawn_counts_agree (s : string) (b w : Z) (sh1 sh2 : list string) :
  Permutation (plant_types_unshuffled b w) sh1 ->
  Permutation (plant_types_unshuffled b w) sh2 ->
  length (filter (fun s' => s' = s) (take (Z.to_nat (b + w)) sh1))
  = length (filter (fun s' => s' = s) (take (Z.to_nat (b + w)) sh2)).
Proof.
  intros H1 H2.
  destruct (Z.le_gt_cases 0 b) as [Hb|Hb]; [destruct (Z.le_gt_cases 0 w) as [Hw|Hw]|].
  - pose proof (Permutation_length H1) as L1. pose proof (Permutation_length H2) as L2.
    rewrite length_unshuffled in L1, L2.
    rewrite !take_ge by lia. by rewrite <- H1, <- H2.
  - unfold plant_types_unshuffled in H1, H2.
    replace (Z.to_nat w) with 0%nat in H1, H2 by lia.
    cbn [replicate] in H1, H2. rewrite app_nil_r in H1, H2.
    apply replicate_Permutation in H1, H2. by rewrite <- H1, <- H2.
  - unfold plant_types_unshuffled in H1, H2.
    replace (Z.to_nat b) with 0%nat in H1, H2 by lia.
    cbn [replicate app] in H1, H2.
    apply replicate_Permutation in H1, H2. by rewrite <- H1, <- H2.
Qed.

(** ** The generator as a whole *)

Section generator_facts.
Context `{NumpyRandom} `{!ShufflePermutes}.

Lemma layout_rows_returns plot_width plot_length n_rows row_spacing
    bean_density wheat_density bean_emergence wheat_emergence seed g0 g :
  1 <= n_rows ->
  np_seed seed = Some g ->
  let b := bean_emerged plot_width plot_length bean_density bean_emergence in
  let w := wheat_emerged plot_width plot_length wheat_density wheat_emergence in
  exists rows g',
    layout_rows plot_width plot_length n_rows row_spacing bean_density wheat_density
                bean_emergence wheat_emergence seed g0 = Ok (rows, g') /\
    species_of (concat rows)
      = take (Z.to_nat (b + w)) (np_shuffle (plant_types_unshuffled b w) g).1 /\
    length <$> rows = Z.to_nat <$> row_counts (b + w) n_rows.
Proof.
  intros Hn Hseed b w. unfold layout_rows. rewrite Hseed. fold b w.
  pose proof (shuffle_permutes (plant_types_unshuffled b w) g) as Hperm.
  destruct (np_shuffle (plant_types_unshuffled b w) g) as [plant_types g1].
  cbn [fst] in *.
  destruct (np_linspace_length row_spacing (plot_length - row_spacing) n_rows)
    as (ys & -> & Hys); [lia|].
  cbn. destruct (Z.eqb_spec n_rows 0) as [|_]; [lia|].
  destruct (place_rows_emits plot_width plot_length n_rows (b + w) plant_types
              (py_enumerate ys) 0 g1) as (rows & g2 & -> & Hcount & Hspecies & Hexact);
    [done| |].
  { apply Permutation_length in Hperm. rewrite length_unshuffled in Hperm. lia. }
  cbn. exists rows, g2.
  rewrite placeable_enumerate in Hcount, Hexact by done.
  rewrite placeable_total in Hcount, Hexact by done.
  rewrite Z.sub_0_r in Hcount, Hexact.
  split; [done|]. split; [|apply Hexact; lia].
  rewrite Hspecies, Hcount. cbn [Z.to_nat drop]. f_equal. lia.
Qed.

End generator_facts.

Section generator_claims.
Context `{NumpyRandom} `{!ShufflePermutes}.

Lemma generate_returns plot_width plot_length n_rows row_spacing
    bean_density wheat_density bean_emergence wheat_emergence seed g0 g :
  1 <= n_rows ->
  np_seed seed = Some g ->
  ~ (plot_width * plot_length == 0)%Q ->
  let b := bean_emerged plot_width plot_length bean_density bean_emergence in
  let w := wheat_emerged plot_width plot_length wheat_density wheat_emergence in
  exists positions g',
    generate_intercrop_positions plot_width plot_length n_rows row_spacing
      bean_density wheat_density bean_emergence wheat_emergence seed g0
      = Ok (positions, g') /\
    species_of positions
      = take (Z.to_nat (b + w)) (np_shuffle (plant_types_unshuffled b w) g).1.
Proof.
  intros Hn Hseed Harea b w. unfold generate_intercrop_positions.
  destruct (layout_rows_returns plot_width plot_length n_rows row_spacing
              bean_density wheat_density bean_emergence wheat_emergence seed g0 g
              Hn Hseed) as (rows & g' & -> & Hspecies & _).
  cbn. destruct (Qeq_bool _ 0) eqn:Hzero.
  - apply Qeq_bool_iff in Hzero. contradiction.
  - by exists (concat rows), g'.
Qed.

(** C1, as the code has it.  With at least one row, a plot area that is
    not zero, a seed numpy accepts and emerged counts that are not
    negative, the call returns, and the number of positions of each
    species is [int(int(density * plot_area) * emergence)]: the seeds sown
    are truncated to an integer before the emergence rate is applied.  The
    layout holds as many positions as the two counts together. *)
Theorem C1_emitted_counts plot_width plot_length n_rows row_spacing
    bean_density wheat_density bean_emergence wheat_emergence seed g0 :
  1 <= n_rows ->
  ~ (plot_width * plot_length == 0)%Q ->
  is_Some (np_seed seed) ->
  0 <= py_int (inject_Z (py_int (bean_density * (plot_width * plot_length))) * bean_emergence) ->
  0 <= py_int (inject_Z (py_int (wheat_density * (plot_width * plot_length))) * wheat_emergence) ->
  exists positions g',
    generate_intercrop_positions plot_width plot_length n_rows row_spacing
      bean_density wheat_density bean_emergence wheat_emergence seed g0
      = Ok (positions, g') /\
    count_species "bean" positions
      = py_int (inject_Z (py_int (bean_density * (plot_width * plot_length))) * bean_emergence) /\
    count_species "wheat" positions
      = py_int (inject_Z (py_int (wheat_density * (plot_width * plot_length))) * wheat_emergence) /\
    Z.of_nat (length positions)
      = py_int (inject_Z (py_int (bean_density * (plot_width * plot_length))) * bean_emergence)
        + py_int (inject_Z (py_int (wheat_density * (plot_width * plot_length))) * wheat_emergence).
Proof.
  intros Hn Harea [g Hseed] Hb Hw.
  destruct (generate_returns plot_width plot_length n_rows row_spacing
              bean_density wheat_density bean_emergence wheat_emergence seed g0 g
              Hn Hseed Harea) as (positions & g' & Hrun & Hspecies).
  fold (bean_seeds plot_width plot_length bean_density) in *.
  fold (wheat_seeds plot_width plot_length wheat_density) in *.
  fold (bean_emerged plot_width plot_length bean_density bean_emergence) in *.
  fold (wheat_emerged plot_width plot_length wheat_density wheat_emergence) in *.
  set (b := bean_emerged plot_width plot_length bean_density bean_emergence) in *.
  set (w := wheat_emerged plot_width plot_length wheat_density wheat_emergence) in *.
  pose proof (shuffle_permutes (plant_types_unshuffled b w) g) as Hperm.
  pose proof (Permutation_length Hperm) as Hlen. rewrite length_unshuffled in Hlen.
  rewrite take_ge in Hspecies by lia.
  exists positions, g'. split; [done|].
  rewrite !count_species_of, Hspecies, <- Hperm, !count_in_unshuffled.
  repeat split.
  - repeat case_decide; try done. lia.
  - repeat case_decide; try done. lia.
  - transitivity (Z.of_nat (length (species_of positions))).
    + unfold species_of. by rewrite length_fmap.
    + rewrite Hspecies. lia.
Qed.

(** C6.  Two calls with the same arguments return the same thing - the
    same positions in the same order, or the same exception - whatever
    state numpy's global generator was in before each call: the first
    statement of the function reseeds it. *)
Theorem C6_deterministic plot_width plot_length n_rows row_spacing
    bean_density wheat_density bean_emergence wheat_emergence seed
    (g1 g2 : rng_state) :
  generate_intercrop_positions plot_width plot_length n_rows row_spacing
    bean_density wheat_density bean_emergence wheat_emergence seed g1
  = generate_intercrop_positions plot_width plot_length n_rows row_spacing
      bean_density wheat_density bean_emergence wheat_emergence seed g2.
Proof.
  unfold generate_intercrop_positions, layout_rows.
  destruct (np_seed seed) as [g|]; reflexivity.
Qed.

(** C7, as the code has it.  When the plot is at least 0.1 m wide and
    long (so that [0.05 <= plot_width - 0.05] and
    [0.05 <= plot_length - 0.05]), every emitted [(species, x, y)] lies
    within the clamped bounds. *)
Theorem C7_bounds plot_width plot_length n_rows row_spacing
    bean_density wheat_density bean_emergence wheat_emergence seed g0
    positions g' species x y :
  (5 # 100 <= plot_width - (5 # 100))%Q ->
  (5 # 100 <= plot_length - (5 # 100))%Q ->
  generate_intercrop_positions plot_width plot_length n_rows row_spacing
    bean_density wheat_density bean_emergence wheat_emergence seed g0
    = Ok (positions, g') ->
  (species, x, y) ∈ positions ->
  ((5 # 100 <= x)%Q /\ (x <= plot_width - (5 # 100))%Q) /\
  ((5 # 100 <= y)%Q /\ (y <= plot_length - (5 # 100))%Q).
Proof.
  intros Hw Hl Hrun Hin. unfold generate_intercrop_positions, layout_rows in Hrun.
  destruct (np_seed seed) as [g|]; [|discriminate].
  destruct (np_shuffle _ g) as [plant_types g1].
  destruct (np_linspace _ _ n_rows) as [ys|]; [|discriminate]. cbn in Hrun.
  destruct (n_rows =? 0); [discriminate|].
  destruct (place_rows _ _ _ _ _ _ _ _) as [[[rows p] g2]|] eqn:Hrows; [|discriminate].
  cbn in Hrun. destruct (Qeq_bool _ 0); [discriminate|].
  inversion Hrun; subst.
  pose proof (place_rows_bounds _ _ _ _ _ _ _ _ _ _ _ Hw Hl Hrows) as Hall.
  rewrite Forall_forall in Hall. apply (Hall (species, x, y) Hin).
Qed.

End generator_claims.

Section row_origin.
Context `{NumpyRandom}.
Import Jitter.

Lemma place_row_placed plot_width plot_length row_y base_spacing total_plants
    plant_types range_i plant_idx g ps plant_idx' g' :
  place_row plot_width plot_length row_y base_spacing total_plants plant_types
            range_i plant_idx g = Ok (ps, plant_idx', g') ->
  Forall (placed_on plot_length row_y) ps.
Proof.
  revert plant_idx g ps plant_idx' g'.
  induction range_i as [|i range_i IH]; intros p g ps p' g' Hrun; simpl in Hrun.
  - inversion Hrun; constructor.
  - destruct (total_plants <=? p); [inversion Hrun; constructor|].
    destruct (py_getitem plant_types p) as [species|]; simpl in Hrun; [|discriminate].
    destruct (np_uniform _ _ g) as [jx g1].
    destruct (np_uniform _ _ g1) as [jy g2] eqn:Hjy.
    destruct (place_row _ _ _ _ _ _ range_i (p + 1) g2) as [[[rest p2] g3]|] eqn:Hrest;
      simpl in Hrun; [|discriminate].
    inversion Hrun; subst. constructor; [|by eapply IH].
    exists g1. by rewrite Hjy.
Qed.

Lemma place_rows_placed plot_width plot_length n_rows total_plants plant_types
    rows plant_idx g out plant_idx' g' :
  place_rows plot_width plot_length n_rows total_plants plant_types
             rows plant_idx g = Ok (out, plant_idx', g') ->
  Forall2 (fun row r => Forall (placed_on plot_length r.2) row) out rows.
Proof.
  revert plant_idx g out plant_idx' g'.
  induction rows as [|[row_idx row_y] rows IH]; intros p g out p' g' Hrun;
    cbn [place_rows] in Hrun.
  - inversion Hrun; constructor.
  - destruct (if 0 <? _ then _ else _) as [[[row p1] g1]|] eqn:Hrow;
      simpl in Hrun; [|discriminate].
    destruct (place_rows _ _ _ _ _ rows p1 g1) as [[[rest p2] g2]|] eqn:Hrest;
      simpl in Hrun; [|discriminate].
    inversion Hrun; subst. constructor; [|by eapply IH].
    cbn [snd]. destruct (0 <? _).
    + by eapply place_row_placed.
    + inversion Hrow; constructor.
Qed.

(** The rows of the two loops stand on the values of [np.linspace], one
    row per value, in order. *)
Lemma layout_rows_origin plot_width plot_length n_rows row_spacing
    bean_density wheat_density bean_emergence wheat_emergence seed g0 rows g' :
  layout_rows plot_width plot_length n_rows row_spacing bean_density wheat_density
              bean_emergence wheat_emergence seed g0 = Ok (rows, g') ->
  exists row_y_positions,
    np_linspace row_spacing (plot_length - row_spacing) n_rows = Ok row_y_positions /\
    Forall2 (fun row row_y => Forall (placed_on plot_length row_y) row)
            rows row_y_positions.
Proof.
  unfold layout_rows.
  destruct (np_seed seed) as [g|]; [|discriminate].
  destruct (np_shuffle _ g) as [plant_types g1].
  destruct (np_linspace _ _ n_rows) as [ys|]; [|discriminate]. cbn [mbind result_bind].
  destruct (n_rows =? 0); [discriminate|].
  destruct (place_rows _ _ _ _ _ _ _ _) as [[[rows' p] g2]|] eqn:Hrows; [|discriminate].
  cbn. intros [= <- <-]. exists ys. split; [done|].
  apply place_rows_placed in Hrows. unfold py_enumerate in Hrows.
  apply Forall2_same_length_lookup. split.
  - apply Forall2_length in Hrows. by rewrite length_imap in Hrows.
  - intros k row row_y Hrow Hy.
    rewrite Forall2_lookup in Hrows. specialize (Hrows k).
    rewrite Hrow, list_lookup_imap, Hy in Hrows. cbn in Hrows.
    by inversion Hrows.
Qed.

End row_origin.

Section row_claims.
Context `{NumpyRandom} `{!ShufflePermutes}.

(** C8.  With [n_rows >= 1] the per-row counts of
    [generate_intercrop_positions] are [total // n_rows], exactly the
    first [total % n_rows] of them one more; they differ by at most one
    and add up to [total].  For a seed numpy accepts and a plot area that
    is not zero the call returns the rows of its outer loop one after the
    other: one row per value of [np.linspace], every position of a row
    placed on that row's [y], and each row holding its count of positions
    (none for a negative count, which a negative [total] gives). *)
Theorem C8_row_balance plot_width plot_length n_rows row_spacing
    bean_density wheat_density bean_emergence wheat_emergence seed g0 :
  1 <= n_rows ->
  let total :=
    bean_emerged plot_width plot_length bean_density bean_emergence
    + wheat_emerged plot_width plot_length wheat_density wheat_emergence in
  let counts := row_counts total n_rows in
  counts = replicate (Z.to_nat (total `mod` n_rows)) (total `div` n_rows + 1)
           ++ replicate (Z.to_nat (n_rows - total `mod` n_rows)) (total `div` n_rows) /\
  0 <= total `mod` n_rows < n_rows /\
  (forall c1 c2, c1 ∈ counts -> c2 ∈ counts -> c1 - c2 <= 1) /\
  total_of counts = total /\
  (is_Some (np_seed seed) ->
   ~ (plot_width * plot_length == 0)%Q ->
   exists rows row_y_positions g',
     generate_intercrop_positions plot_width plot_length n_rows row_spacing
       bean_density wheat_density bean_emergence wheat_emergence seed g0
       = Ok (concat rows, g') /\
     np_linspace row_spacing (plot_length - row_spacing) n_rows = Ok row_y_positions /\
     Forall2 (fun row row_y => Forall (Jitter.placed_on plot_length row_y) row)
             rows row_y_positions /\
     (fun row => Z.of_nat (length row)) <$> rows = Z.max 0 <$> counts /\
     (0 <= total -> (fun row => Z.of_nat (length row)) <$> rows = counts)).
Proof.
  intros Hn total counts.
  split; [by apply row_counts_shape|].
  split; [apply Z.mod_pos_bound; lia|].
  split.
  { intros c1 c2 H1 H2.
    apply row_counts_values in H1, H2; [lia|done..]. }
  split; [by apply row_counts_total|].
  intros [g Hseed] Harea.
  destruct (layout_rows_returns plot_width plot_length n_rows row_spacing
              bean_density wheat_density bean_emergence wheat_emergence seed g0 g
              Hn Hseed) as (rows & g' & Hrun & _ & Hlengths).
  destruct (layout_rows_origin _ _ _ _ _ _ _ _ _ _ _ _ Hrun) as (ys & Hys & Hplaced).
  exists rows, ys, g'.
  split.
  { unfold generate_intercrop_positions. rewrite Hrun. cbn [mbind result_bind].
    destruct (Qeq_bool _ 0) eqn:Hzero; [|done].
    apply Qeq_bool_iff in Hzero. contradiction. }
  split; [done|]. split; [done|].
  assert ((fun row => Z.of_nat (length row)) <$> rows = Z.max 0 <$> counts) as Hheld.
  { transitivity (Z.of_nat <$> (length <$> rows));
      [by rewrite <- list_fmap_compose|].
    rewrite Hlengths, <- list_fmap_compose.
    apply list_fmap_ext. intros _ c _. cbn. lia. }
  split; [done|]. intros Htotal. rewrite Hheld.
  transitivity ((fun c : Z => c) <$> (counts : list Z)); [|apply list_fmap_id].
  apply list_fmap_ext. intros _ c Hc%list_elem_of_lookup_2.
  apply row_counts_values in Hc; [|done].
  assert (0 <= total `div` n_rows) by (apply Z.div_pos; lia).
  cbn. lia.
Qed.

(** C9.  For seeds numpy accepts, the seed does not change how many
    positions of each species the call emits (nor which exception it
    raises, when it raises). *)
Theorem C9_seed_independent_counts plot_width plot_length n_rows row_spacing
    bean_density wheat_density bean_emergence wheat_emergence
    (seed1 seed2 : Z) (g1 g2 : rng_state) :
  is_Some (np_seed seed1) ->
  is_Some (np_seed seed2) ->
  species_counts
    (generate_intercrop_positions plot_width plot_length n_rows row_spacing
       bean_density wheat_density bean_emergence wheat_emergence seed1 g1)
  = species_counts
      (generate_intercrop_positions plot_width plot_length n_rows row_spacing
         bean_density wheat_density bean_emergence wheat_emergence seed2 g2).
Proof.
  intros [s1 Hs1] [s2 Hs2].
  destruct (Z.lt_ge_cases n_rows 1) as [Hsmall|Hn].
  - (* no row: both calls raise before any position is placed *)
    unfold generate_intercrop_positions, layout_rows. rewrite Hs1, Hs2.
    destruct (np_shuffle _ s1) as [t1 h1]. destruct (np_shuffle _ s2) as [t2 h2].
    unfold np_linspace.
    destruct (Z.ltb_spec n_rows 0); [done|].
    cbn. destruct (Z.eqb_spec n_rows 0); [done|lia].
  - unfold generate_intercrop_positions.
    destruct (layout_rows_returns plot_width plot_length n_rows row_spacing
                bean_density wheat_density bean_emergence wheat_emergence seed1 g1 s1
                Hn Hs1) as (rows1 & h1 & -> & Hsp1 & _).
    destruct (layout_rows_returns plot_width plot_length n_rows row_spacing
                bean_density wheat_density bean_emergence wheat_emergence seed2 g2 s2
                Hn Hs2) as (rows2 & h2 & -> & Hsp2 & _).
    cbn. destruct (Qeq_bool _ 0); [done|].
    cbn. rewrite !count_species_of, Hsp1, Hsp2.
    do 2 f_equal; f_equal; apply drawn_counts_agree; apply shuffle_permutes.
Qed.

End row_claims.

(** ** The generator on concrete inputs *)

(** Scenario A of the specification: 36 beans per square metre on one
    square metre in four rows give 31 positions, all bean. *)
Example scenario_A :
  species_counts
    (generate_intercrop_positions (rng := Lcg.numpy_random) 1 1 4 (21 # 100) 36 0 (875 # 1000) (8 # 10) 42 0)
  = Ok (31, 0).
Proof. vm_compute. reflexivity. Qed.

Lemma C1_emitted_counts_witness :
  exists positions g',
    generate_intercrop_positions (rng := Lcg.numpy_random) 1 1 4 (21 # 100) 36 0 (875 # 1000) (8 # 10) 42 0
      = Ok (positions, g') /\
    count_species "bean" positions = 31 /\
    count_species "wheat" positions = 0 /\
    Z.of_nat (length positions) = 31 + 0.
Proof.
  apply (C1_emitted_counts (H := Lcg.numpy_random) 1 1 4 (21 # 100) 36 0 (875 # 1000) (8 # 10) 42 0).
  - lia.
  - by vm_compute.
  - by eexists.
  - by vm_compute.
  - by vm_compute.
Defined.

(** C1 as stated fails: 2.5 bean seeds per square metre on one square
    metre with emergence 0.875 give [int(int(2.5) * 0.875) = 1] bean, while
    [floor(2.5 * 1.0 * 0.875) = 2]. *)
Lemma C1_counterexample :
  species_counts
    (generate_intercrop_positions (rng := Lcg.numpy_random) 1 1 1 (1 # 4) (5 # 2) 0 (7 # 8) (4 # 5) 42 0)
  = Ok (1, 0)
  /\ Qfloor ((5 # 2) * (1 * 1) * (7 # 8)) = 2
  /\ species_counts
       (generate_intercrop_positions (rng := Lcg.numpy_random) 1 1 1 (1 # 4) (5 # 2) 0 (7 # 8) (4 # 5) 42 0)
     <> Ok (Qfloor ((5 # 2) * (1 * 1) * (7 # 8)), Qfloor (0 * (1 * 1) * (4 # 5))).
Proof.
  split; [by vm_compute|]. split; [by vm_compute|].
  vm_compute. discriminate.
Qed.

Lemma C7_bounds_witness :
  exists positions g' species x y,
    generate_intercrop_positions (rng := Lcg.numpy_random) 1 1 1 (1 # 4) 2 0 1 1 42 0 = Ok (positions, g') /\
    (species, x, y) ∈ positions /\
    ((5 # 100 <= x)%Q /\ (x <= 1 - (5 # 100))%Q) /\
    ((5 # 100 <= y)%Q /\ (y <= 1 - (5 # 100))%Q).
Proof.
  eexists _, _, _, _, _.
  split; [lazy; reflexivity|].
  split; [apply list_elem_of_here|].
  eapply (C7_bounds (H := Lcg.numpy_random) 1 1 1 (1 # 4) 2 0 1 1 42 0).
  - by vm_compute.
  - by vm_compute.
  - lazy; reflexivity.
  - apply list_elem_of_here.
Defined.

(** C7 as stated fails on a plot narrower than 0.1 m: with
    [plot_width = 0.0625] the upper clamp [plot_width - 0.05] lies below
    the lower clamp, and every [x] comes out as [0.0125]. *)
Lemma C7_counterexample :
  exists positions g' species x y,
    generate_intercrop_positions (rng := Lcg.numpy_random) (1 # 16) 16 1 (1 # 4) 2 0 1 1 42 0 = Ok (positions, g') /\
    (species, x, y) ∈ positions /\
    (x == 1 # 80)%Q /\
    ~ (5 # 100 <= x)%Q.
Proof.
  eexists _, _, _, _, _.
  split; [lazy; reflexivity|].
  split; [apply list_elem_of_here|].
  split; by vm_compute.
Qed.

Lemma C8_row_balance_witness :
  exists rows row_y_positions g',
    generate_intercrop_positions (rng := Lcg.numpy_random)
      1 1 4 (21 # 100) 36 0 (875 # 1000) (8 # 10) 42 0 = Ok (concat rows, g') /\
    np_linspace (21 # 100) (1 - (21 # 100)) 4 = Ok row_y_positions /\
    (fun row => Z.of_nat (length row)) <$> rows = [8; 8; 8; 7].
Proof.
  destruct (C8_row_balance (H := Lcg.numpy_random)
              1 1 4 (21 # 100) 36 0 (875 # 1000) (8 # 10) 42 0)
    as (_ & _ & _ & _ & Hrows); [lia|].
  destruct Hrows as (rows & ys & g' & Hrun & Hys & _ & _ & Hlengths);
    [by eexists|by vm_compute|].
  exists rows, ys, g'. split; [exact Hrun|]. split; [exact Hys|].
  rewrite Hlengths; by vm_compute.
Defined.

Lemma C9_seed_independent_counts_witness :
  species_counts
    (generate_intercrop_positions (rng := Lcg.numpy_random) 1 1 3 (1 # 4) 3 5 1 1 42 0)
  = species_counts
      (generate_intercrop_positions (rng := Lcg.numpy_random) 1 1 3 (1 # 4) 3 5 1 1 7 11).
Proof.
  apply (C9_seed_independent_counts (H := Lcg.numpy_random) 1 1 3 (1 # 4) 3 5 1 1 42 7 0 11); by eexists.
Defined.

(** The two seeds of the previous run do give different layouts. *)
Example seeds_change_the_layout :
  generate_intercrop_positions (rng := Lcg.numpy_random) 1 1 3 (1 # 4) 3 5 1 1 42 0
  <> generate_intercrop_positions (rng := Lcg.numpy_random) 1 1 3 (1 # 4) 3 5 1 1 7 0.
Proof. vm_compute. discriminate. Qed.

(* ===================================================================== *)
(** * Properties of the camera geometry *)
(* ===================================================================== *)

Section camera_claims.
Import Camera.
Local Open Scope R_scope.

Lemma sqrt6_bounds : 244 / 100 < sqrt 6 < 245 / 100.
Proof.
  split.
  - rewrite <- (sqrt_square (244 / 100)) by lra. apply sqrt_lt_1; lra.
  - rewrite <- (sqrt_square (245 / 100)) by lra. apply sqrt_lt_1; lra.
Qed.

Lemma half_fov_60 : np_radians 60 / 2 = PI / 6.
Proof. unfold np_radians. lra. Qed.

(** The height for the unit plot at 60 degrees with the default margin. *)
Lemma unit_plot_height :
  calculate_nadir_camera_height 1 1 default_fov_degrees default_margin_factor
  = 11 / 20 * sqrt 6.
Proof.
  unfold calculate_nadir_camera_height, default_fov_degrees, default_margin_factor.
  cbv zeta. rewrite half_fov_60, tan_PI6.
  replace (1 ^ 2 + 1 ^ 2) with 2 by lra.
  replace 6 with (2 * 3) by lra. rewrite sqrt_mult by lra.
  assert (0 < sqrt 3) by (apply sqrt_lt_R0; lra).
  field. lra.
Qed.

(** C5.  What the code returns for the unit plot at 60 degrees with the
    default margin 1.1: [0.55 * sqrt 6], between 1.34 and 1.35 metres.
    The example of the docstring prints 1.60 for this call, and
    [tests/test_geometry.py] asserts [1.4 < height < 1.8]. *)
Theorem C5_nadir_height :
  let height :=
    calculate_nadir_camera_height 1 1 default_fov_degrees default_margin_factor in
  height = 11 / 20 * sqrt 6 /\
  134 / 100 < height < 135 / 100 /\
  25 / 100 < 160 / 100 - height.
Proof.
  cbv zeta. rewrite unit_plot_height. pose proof sqrt6_bounds. repeat split; lra.
Qed.

(** The code does not do what C5 states: the height for the unit plot
    at 60 degrees is below 1.4 metres, outside [1.4, 1.8]. *)
Lemma C5_counterexample :
  ~ (14 / 10
     <= calculate_nadir_camera_height 1 1 default_fov_degrees default_margin_factor
     <= 18 / 10).
Proof.
  rewrite unit_plot_height. pose proof sqrt6_bounds. lra.
Qed.

End camera_claims.

(* ===================================================================== *)
(** * Properties of the label assignor *)
(* ===================================================================== *)

Section label_claims.
Import Scene Constants Labels.

Lemma label_others_spec ground_uuid uuids context bean_primitives labeled_count :
  (forall u, u ∈ uuids -> u ∈ all_uuids context) ->
  exists context' bean_primitives' labeled_count',
    label_others ground_uuid uuids context bean_primitives labeled_count
      = Ok (context', bean_primitives', labeled_count') /\
    all_uuids context' = all_uuids context /\
    (string_data context' !! (ground_uuid, "plant_part")
       = string_data context !! (ground_uuid, "plant_part")) /\
    (forall u, string_data context !! (u, "plant_part") = Some PLANT_PART_BEAN ->
               string_data context' !! (u, "plant_part") = Some PLANT_PART_BEAN) /\
    (forall u, u ∈ uuids -> u ≠ ground_uuid ->
               string_data context' !! (u, "plant_part") = Some PLANT_PART_BEAN).
Proof.
  revert context bean_primitives labeled_count.
  induction uuids as [|uuid uuids IH]; intros context b l Hknown; cbn [label_others].
  - exists context, b, l. repeat split; try done. intros u Hu. inversion Hu.
  - assert (forall u, u ∈ uuids -> u ∈ all_uuids context) as Hrest
        by (intros u Hu; apply Hknown; by right).
    destruct (decide (uuid ≠ ground_uuid)) as [Hother|Hground].
    + unfold setPrimitiveDataString.
      rewrite decide_True by (apply Hknown; by left). cbn.
      edestruct IH as (context' & b' & l' & -> & Hids & Hg & Hkeep & Hset);
        [exact Hrest|].
      exists context', b', l'. cbn in *.
      split; [done|]. split; [done|]. split; [|split].
      * rewrite Hg. apply lookup_insert_ne. congruence.
      * intros u Hu. apply Hkeep.
        destruct (decide (u = uuid)) as [->|Hne];
          [apply lookup_insert_eq | by rewrite lookup_insert_ne by congruence].
      * intros u [->|Hu]%elem_of_cons Hne; [|by apply Hset].
        apply Hkeep, lookup_insert_eq.
    + apply dec_stable in Hground as ->.
      edestruct IH as (context' & b' & l' & -> & Hids & Hg & Hkeep & Hset);
        [exact Hrest|].
      exists context', b', l'. repeat split; try done.
      intros u [->|Hu]%elem_of_cons Hne; [done|by apply Hset].
Qed.

(** What [apply_species_labels] leaves in the store. *)
Lemma apply_species_labels_spec context ground_uuid (plant_species_map : gmap Z Z) :
  ground_uuid ∈ all_uuids context ->
  exists labeled_count bean_primitives context',
    apply_species_labels context ground_uuid plant_species_map
      = Ok ((labeled_count, bean_primitives, 0), context') /\
    string_data context' !! (ground_uuid, "plant_part") = Some "ground" /\
    (forall u, u ∈ all_uuids context -> u ≠ ground_uuid ->
               string_data context' !! (u, "plant_part") = Some "bean").
Proof.
  intros Hground. unfold apply_species_labels, getAllUUIDs in *.
  unfold setPrimitiveDataString. rewrite decide_True by done. cbn.
  edestruct (label_others_spec ground_uuid (all_uuids context))
    as (context' & b & l & -> & Hids & Hg & Hkeep & Hset);
    [|exists l, b, context'; cbn in *].
  { intros u Hu. exact Hu. }
  split; [done|]. split.
  - rewrite Hg. apply lookup_insert_eq.
  - intros u Hu Hne. by apply Hset.
Qed.

(** C2.  For a ground identity the store knows, [apply_species_labels]
    returns; afterwards the ground identity carries ["ground"] and every
    other known identity carries ["bean"]; the wheat count it returns is
    0; and none of this depends on the species map passed in. *)
Theorem C2_labels context ground_uuid (plant_species_map : gmap Z Z) :
  ground_uuid ∈ getAllUUIDs context ->
  exists labeled_count bean_primitives context',
    apply_species_labels context ground_uuid plant_species_map
      = Ok ((labeled_count, bean_primitives, 0), context') /\
    string_data context' !! (ground_uuid, "plant_part") = Some "ground" /\
    (forall u, u ∈ getAllUUIDs context -> u ≠ ground_uuid ->
               string_data context' !! (u, "plant_part") = Some "bean") /\
    (forall other_map : gmap Z Z,
        apply_species_labels context ground_uuid other_map
        = apply_species_labels context ground_uuid plant_species_map).
Proof.
  intros Hground.
  destruct (apply_species_labels_spec context ground_uuid plant_species_map Hground)
    as (l & b & context' & Hrun & Hg & Hothers).
  exists l, b, context'. repeat split; done.
Qed.

End label_claims.

(* ===================================================================== *)
(** * Properties of the soil plane and the radiative properties *)
(* ===================================================================== *)

Section soil_facts.
Import Scene Soil.

Lemma add_primitives_uuids n context :
  all_uuids (add_primitives n context).2
  = all_uuids context ++ (add_primitives n context).1.
Proof. done. Qed.

Lemma add_primitives_fresh n context u :
  u ∈ (add_primitives n context).1 -> next_uuid context <= u.
Proof.
  cbn. intros (i & -> & _)%list_elem_of_fmap. lia.
Qed.

Lemma add_primitives_length n context :
  length (add_primitives n context).1 = n.
Proof. cbn. by rewrite length_fmap, length_seq. Qed.

(** With the texture accepted the tile is not needed; without it the
    tile needs a positive number of subdivisions. *)
Lemma surface_can_be_made inst soil_texture subdivisions :
  Store.textured inst soil_texture = true \/ 0 < subdivisions <->
  (forall path, get_builtin_texture_path inst soil_texture = Some path ->
                texture_usable inst path = true \/ 0 < subdivisions) /\
  (get_builtin_texture_path inst soil_texture = None -> 0 < subdivisions).
Proof.
  unfold Store.textured.
  destruct (get_builtin_texture_path inst soil_texture) as [path|]; split.
  - intros Hok. split; [by intros ? [= <-]|done].
  - intros [Hok _]. by apply Hok.
  - intros [?|?]; [done|]. split; [done|]. done.
  - intros [_ Hok]. right. by apply Hok.
Qed.

Lemma addTile_returns subdivisions context :
  0 < subdivisions ->
  addTile subdivisions subdivisions context
  = Ok (add_primitives (Z.to_nat subdivisions * Z.to_nat subdivisions) context).
Proof.
  intros Hpos. unfold addTile.
  by destruct (Z.ltb_spec 0 subdivisions) as [_|?]; [|lia].
Qed.

(** The ground patch comes first; whatever else the function adds - the
    two textured triangles, or the tile when there is no usable texture -
    comes after it, under later identities. *)
Lemma create_soil_plane_spec inst context width length soil_texture subdivisions margin :
  Store.textured inst soil_texture = true \/ 0 < subdivisions ->
  exists context' surface,
    create_soil_plane inst context width length soil_texture subdivisions margin
      = Ok ((next_uuid context, margin), context') /\
    all_uuids context' = all_uuids context ++ next_uuid context :: surface /\
    (forall u, u ∈ surface -> next_uuid context < u) /\
    (forall path, get_builtin_texture_path inst soil_texture = Some path ->
                  texture_usable inst path = true -> Datatypes.length surface = 2%nat).
Proof.
  intros Hok. apply surface_can_be_made in Hok as [Hfound Hmissing].
  unfold create_soil_plane, addPatch, addTrianglesFromArraysTextured.
  set (context1 := (add_primitives 1 context).2).
  assert (all_uuids context1 = all_uuids context ++ [next_uuid context]) as Hground.
  { subst context1. cbn. by rewrite Z.add_0_r. }
  assert (next_uuid context1 = next_uuid context + 1) as Hnext by done.
  assert (forall n u, u ∈ (add_primitives n context1).1 -> next_uuid context < u) as Hfresh.
  { intros n u Hu%add_primitives_fresh. lia. }
  destruct (get_builtin_texture_path inst soil_texture) as [path|].
  - destruct (texture_usable inst path) eqn:Husable.
    + exists (add_primitives n_faces context1).2, (add_primitives n_faces context1).1.
      split; [done|]. split; [|split].
      * rewrite add_primitives_uuids, Hground, <- app_assoc. done.
      * apply Hfresh.
      * intros _ _ _. apply add_primitives_length.
    + destruct (Hfound path eq_refl) as [?|Hpos]; [congruence|].
      rewrite addTile_returns by done.
      exists (add_primitives (Z.to_nat subdivisions * Z.to_nat subdivisions) context1).2,
             (add_primitives (Z.to_nat subdivisions * Z.to_nat subdivisions) context1).1.
      split; [done|]. split; [|split].
      * rewrite add_primitives_uuids, Hground, <- app_assoc. done.
      * apply Hfresh.
      * intros p [= <-]. congruence.
  - rewrite addTile_returns by (by apply Hmissing).
    exists (add_primitives (Z.to_nat subdivisions * Z.to_nat subdivisions) context1).2,
           (add_primitives (Z.to_nat subdivisions * Z.to_nat subdivisions) context1).1.
    split; [done|]. split; [|split].
    + rewrite add_primitives_uuids, Hground, <- app_assoc. done.
    + apply Hfresh.
    + intros p [=].
Qed.

(** Without a usable texture, a number of subdivisions that is not
    positive makes the function raise. *)
Lemma create_soil_plane_raises inst context width length soil_texture subdivisions margin :
  Store.textured inst soil_texture = false -> subdivisions <= 0 ->
  create_soil_plane inst context width length soil_texture subdivisions margin
  = Raise ValueError.
Proof.
  intros Hplain Hsub.
  unfold create_soil_plane, addPatch, addTrianglesFromArraysTextured, addTile.
  unfold Store.textured in Hplain.
  destruct (Z.ltb_spec 0 subdivisions) as [?|_]; [lia|]. cbn [andb].
  destruct (get_builtin_texture_path inst soil_texture) as [path|]; [|done].
  by rewrite Hplain.
Qed.

End soil_facts.

Section property_facts.
Import Scene Constants Properties.

Lemma leaf_coefficient_functional key v v' :
  leaf_coefficient key v -> leaf_coefficient key v' -> v = v'.
Proof.
  intros [b [[-> Hv]|[-> Hv]]] [b' [[Hkey Hv']|[Hkey Hv']]];
    simplify_eq/=; congruence.
Qed.

Lemma keeps_leaf_coefficients_refl u context : keeps_leaf_coefficients u context context.
Proof. by split. Qed.

Lemma keeps_leaf_coefficients_trans u c1 c2 c3 :
  keeps_leaf_coefficients u c1 c2 -> keeps_leaf_coefficients u c2 c3 ->
  keeps_leaf_coefficients u c1 c3.
Proof.
  intros [Hids1 Hkeep1] [Hids2 Hkeep2]. split; [congruence|].
  intros key v Hleaf Hv. by apply Hkeep2, Hkeep1.
Qed.

(** One write of a float field. *)
Lemma setPrimitiveDataFloat_spec uuid label value context :
  uuid ∈ all_uuids context ->
  exists context',
    setPrimitiveDataFloat uuid label value context = Ok context' /\
    all_uuids context' = all_uuids context /\
    float_data context' = <[(uuid, label) := value]> (float_data context).
Proof.
  intros Hknown. unfold setPrimitiveDataFloat. rewrite decide_True by done.
  by eexists.
Qed.

(** A write to another primitive, or of the right leaf coefficient, keeps
    the leaf coefficients at [u]. *)
Lemma write_keeps_leaf_coefficients u uuid label value context context' :
  all_uuids context' = all_uuids context ->
  float_data context' = <[(uuid, label) := value]> (float_data context) ->
  uuid ≠ u \/ leaf_coefficient label value ->
  keeps_leaf_coefficients u context context'.
Proof.
  intros Hids Hdata Hwhy. split; [done|].
  intros key v Hleaf Hv. rewrite Hdata.
  destruct (decide ((uuid, label) = (u, key))) as [[= -> ->]|Hne].
  - destruct Hwhy as [Hother|Hright]; [done|].
    rewrite lookup_insert_eq. f_equal. by eapply leaf_coefficient_functional.
  - by rewrite lookup_insert_ne.
Qed.

Lemma set_leaf_properties_spec uuid bands context :
  uuid ∈ all_uuids context ->
  exists context',
    set_leaf_properties uuid bands context = Ok context' /\
    (forall w, keeps_leaf_coefficients w context context') /\
    (forall band, band ∈ bands -> has_leaf_coefficients context' uuid band).
Proof.
  revert context. induction bands as [|band bands IH]; intros context Hknown;
    cbn [set_leaf_properties].
  - exists context. split; [done|]. split; [intros w; apply keeps_leaf_coefficients_refl|].
    intros band Hband. inversion Hband.
  - (* reflectivity of the first band *)
    assert (exists c1,
      match LEAF_REFLECTANCE !! band with
      | Some r => setPrimitiveDataFloat uuid ("reflectivity_" +:+ band) r context
      | None => Ok context
      end = Ok c1 /\
      (forall w, keeps_leaf_coefficients w context c1) /\
      (forall r, LEAF_REFLECTANCE !! band = Some r ->
                 float_data c1 !! (uuid, "reflectivity_" +:+ band) = Some r))
      as (c1 & -> & Hkeep1 & Hr).
    { destruct (LEAF_REFLECTANCE !! band) as [r|] eqn:Hband.
      - destruct (setPrimitiveDataFloat_spec uuid ("reflectivity_" +:+ band) r context Hknown)
          as (c1 & -> & Hids & Hdata).
        exists c1. split; [done|]. split.
        + intros w. eapply write_keeps_leaf_coefficients; [done..|].
          right. exists band. by left.
        + intros ? [= <-]. rewrite Hdata. apply lookup_insert_eq.
      - exists context. split; [done|]. split; [|done].
        intros w. apply keeps_leaf_coefficients_refl. }
    cbn [mbind result_bind].
    assert (uuid ∈ all_uuids c1) as Hknown1 by (rewrite (proj1 (Hkeep1 uuid)); done).
    (* transmissivity of the first band *)
    assert (exists c2,
      match LEAF_TRANSMISSIVITY !! band with
      | Some t => setPrimitiveDataFloat uuid ("transmissivity_" +:+ band) t c1
      | None => Ok c1
      end = Ok c2 /\
      (forall w, keeps_leaf_coefficients w c1 c2) /\
      (forall t, LEAF_TRANSMISSIVITY !! band = Some t ->
                 float_data c2 !! (uuid, "transmissivity_" +:+ band) = Some t))
      as (c2 & -> & Hkeep2 & Ht).
    { destruct (LEAF_TRANSMISSIVITY !! band) as [t|] eqn:Hband.
      - destruct (setPrimitiveDataFloat_spec uuid ("transmissivity_" +:+ band) t c1 Hknown1)
          as (c2 & -> & Hids & Hdata).
        exists c2. split; [done|]. split.
        + intros w. eapply write_keeps_leaf_coefficients; [done..|].
          right. exists band. by right.
        + intros ? [= <-]. rewrite Hdata. apply lookup_insert_eq.
      - exists c1. split; [done|]. split; [|done].
        intros w. apply keeps_leaf_coefficients_refl. }
    cbn [mbind result_bind].
    assert (uuid ∈ all_uuids c2) as Hknown2 by (rewrite (proj1 (Hkeep2 uuid)); done).
    destruct (IH c2 Hknown2) as (context' & -> & Hkeep & Hbands).
    exists context'. split; [done|]. split.
    + intros w. eapply keeps_leaf_coefficients_trans; [apply Hkeep1|].
      eapply keeps_leaf_coefficients_trans; [apply Hkeep2|apply Hkeep].
    + intros band0 [->|Hband0]%elem_of_cons; [|by apply Hbands].
      split.
      * intros r Hband. apply (Hkeep uuid), (Hkeep2 uuid); [exists band; by left..|].
        by apply Hr.
      * intros t Hband. apply (Hkeep uuid); [exists band; by right|].
        by apply Ht.
Qed.

(** The soil branch writes to the ground primitive only. *)
Lemma set_soil_properties_spec u uuid bands context :
  uuid ∈ all_uuids context ->
  uuid ≠ u ->
  exists context',
    set_soil_properties uuid bands context = Ok context' /\
    keeps_leaf_coefficients u context context'.
Proof.
  intros Hknown Hother. revert context Hknown.
  induction bands as [|band bands IH]; intros context Hknown; cbn [set_soil_properties].
  - exists context. split; [done|apply keeps_leaf_coefficients_refl].
  - destruct (SOIL_REFLECTANCE !! band) as [r|]; cbn [mbind result_bind].
    + destruct (setPrimitiveDataFloat_spec uuid ("reflectivity_" +:+ band) r context Hknown)
        as (c1 & -> & Hids1 & Hdata1). cbn [mbind result_bind].
      assert (uuid ∈ all_uuids c1) as Hknown1 by (by rewrite Hids1).
      destruct (setPrimitiveDataFloat_spec uuid ("transmissivity_" +:+ band) 0 c1 Hknown1)
        as (c2 & -> & Hids2 & Hdata2). cbn [mbind result_bind].
      assert (uuid ∈ all_uuids c2) as Hknown2 by (by rewrite Hids2).
      destruct (IH c2 Hknown2) as (context' & -> & Hkeep).
      exists context'. split; [done|].
      eapply keeps_leaf_coefficients_trans;
        [eapply write_keeps_leaf_coefficients; [done..|by left]|].
      eapply keeps_leaf_coefficients_trans;
        [eapply write_keeps_leaf_coefficients; [done..|by left]|done].
    + apply IH, Hknown.
Qed.

(** The loop over all primitives: a primitive other than the ground one
    ends up with the leaf coefficients of every band. *)
Lemma set_all_properties_spec u ground_uuid bands uuids context :
  u ≠ ground_uuid ->
  (forall x, x ∈ uuids -> x ∈ all_uuids context) ->
  exists context',
    set_all_properties ground_uuid bands uuids context = Ok context' /\
    keeps_leaf_coefficients u context context' /\
    (u ∈ uuids -> forall band, band ∈ bands -> has_leaf_coefficients context' u band).
Proof.
  intros Hu. revert context.
  induction uuids as [|uuid uuids IH]; intros context Hknown; cbn [set_all_properties].
  - exists context. split; [done|]. split; [apply keeps_leaf_coefficients_refl|].
    intros Hin. inversion Hin.
  - assert (uuid ∈ all_uuids context) as Hhead by (apply Hknown; by left).
    assert (exists c1,
      (if decide (uuid = ground_uuid)
       then set_soil_properties uuid bands context
       else set_leaf_properties uuid bands context) = Ok c1 /\
      keeps_leaf_coefficients u context c1 /\
      (uuid = u -> forall band, band ∈ bands -> has_leaf_coefficients c1 u band))
      as (c1 & -> & Hkeep1 & Hset1).
    { destruct (decide (uuid = ground_uuid)) as [->|Hleaf].
      - destruct (set_soil_properties_spec u ground_uuid bands context Hhead)
          as (c1 & -> & Hkeep); [congruence|].
        exists c1. split; [done|]. split; [done|]. congruence.
      - destruct (set_leaf_properties_spec uuid bands context Hhead)
          as (c1 & -> & Hkeep & Hbands).
        exists c1. split; [done|]. split; [apply Hkeep|].
        intros ->. apply Hbands. }
    cbn [mbind result_bind].
    destruct (IH c1) as (context' & -> & Hkeep & Hset).
    { intros x Hx. rewrite (proj1 Hkeep1). apply Hknown. by right. }
    exists context'. split; [done|]. split.
    + by eapply keeps_leaf_coefficients_trans.
    + intros [<-|Hin]%elem_of_cons band Hband; [|by apply Hset].
      destruct (Hset1 eq_refl band Hband) as [Hr Ht].
      split.
      * intros r Hr'. apply (proj2 Hkeep); [exists band; by left|by apply Hr].
      * intros t Ht'. apply (proj2 Hkeep); [exists band; by right|by apply Ht].
Qed.

End property_facts.

Section coefficient_tables.
Import Constants.

Lemma table_entries (table : list (string * Q)) band v :
  (list_to_map table : gmap string Q) !! band = Some v -> (band, v) ∈ table.
Proof. apply elem_of_list_to_map_2. Qed.

(** On every band the leaf reflectance differs from the soil one. *)
Lemma leaf_reflectance_is_not_soil band r s :
  LEAF_REFLECTANCE !! band = Some r -> SOIL_REFLECTANCE !! band = Some s ->
  ~ (r == s)%Q.
Proof.
  intros Hleaf%table_entries Hsoil.
  repeat (apply elem_of_cons in Hleaf as [[= -> ->]|Hleaf];
          [vm_compute in Hsoil; injection Hsoil as <-; by vm_compute|]).
  inversion Hleaf.
Qed.

(** Leaves transmit on every band; the soil branch writes 0. *)
Lemma leaf_transmissivity_is_not_zero band t :
  LEAF_TRANSMISSIVITY !! band = Some t -> ~ (t == 0)%Q.
Proof.
  intros Hleaf%table_entries.
  repeat (apply elem_of_cons in Hleaf as [[= -> ->]|Hleaf]; [by vm_compute|]).
  inversion Hleaf.
Qed.

End coefficient_tables.

Section soil_claims.
Import Scene Constants Soil Labels Properties.

(** C10.  When the texture file is found (and, should the engine reject
    it, the fallback tile has a positive number of subdivisions),
    [create_soil_plane] returns the identity of the ground patch and adds
    the visible soil surface after it - the two textured triangles when
    the engine accepts the texture - under identities that all differ
    from the returned one.  In any later
    store that still holds them, [apply_species_labels] gives each of
    these primitives the label ["bean"], and
    [apply_radiative_properties] gives each of them, on every band it is
    run for, the leaf reflectance and the leaf transmissivity, which
    differ from the soil reflectance and from the soil transmissivity 0. *)
Theorem C10_soil_surface_treated_as_vegetation
    inst context width plot_length soil_texture subdivisions margin :
  is_Some (get_builtin_texture_path inst soil_texture) ->
  (forall path, get_builtin_texture_path inst soil_texture = Some path ->
                texture_usable inst path = true \/ 0 < subdivisions) ->
  exists ground_uuid context1 surface,
    create_soil_plane inst context width plot_length soil_texture subdivisions margin
      = Ok ((ground_uuid, margin), context1) /\
    getAllUUIDs context1 = getAllUUIDs context ++ ground_uuid :: surface /\
    (forall path, get_builtin_texture_path inst soil_texture = Some path ->
                  texture_usable inst path = true -> length surface = 2%nat) /\
    (forall u, u ∈ surface -> u ≠ ground_uuid) /\
    forall context2 u,
      u ∈ surface ->
      (forall v, v ∈ getAllUUIDs context1 -> v ∈ getAllUUIDs context2) ->
      (forall plant_species_map, exists counts context3,
          apply_species_labels context2 ground_uuid plant_species_map
            = Ok (counts, context3) /\
          string_data context3 !! (u, "plant_part") = Some "bean") /\
      (forall bands, exists n context3,
          apply_radiative_properties context2 ground_uuid bands = Ok (n, context3) /\
          forall band, band ∈ default ["Red"; "Green"; "Blue"; "NIR"] bands ->
            (forall r, LEAF_REFLECTANCE !! band = Some r ->
               float_data context3 !! (u, "reflectivity_" +:+ band) = Some r /\
               forall s, SOIL_REFLECTANCE !! band = Some s -> ~ (r == s)%Q) /\
            (forall t, LEAF_TRANSMISSIVITY !! band = Some t ->
               float_data context3 !! (u, "transmissivity_" +:+ band) = Some t /\
               ~ (t == 0)%Q)).
Proof.
  intros [path Hpath] Hsurface.
  destruct (create_soil_plane_spec inst context width plot_length soil_texture
              subdivisions margin) as (context1 & surface & Hrun & Hids & Hlater & Htri).
  { apply surface_can_be_made. split; [done|]. by rewrite Hpath. }
  exists (next_uuid context), context1, surface. unfold getAllUUIDs.
  split; [done|]. split; [done|]. split; [done|].
  split; [intros u Hu%Hlater; lia|].
  intros context2 u Hu Hkept.
  assert (u ≠ next_uuid context) as Hne by (apply Hlater in Hu; lia).
  assert (u ∈ all_uuids context2) as Hu2.
  { apply Hkept. rewrite Hids. apply elem_of_app. right. by right. }
  assert (next_uuid context ∈ all_uuids context2) as Hg2.
  { apply Hkept. rewrite Hids. apply elem_of_app. right. by left. }
  split.
  - intros plant_species_map.
    destruct (apply_species_labels_spec context2 (next_uuid context) plant_species_map Hg2)
      as (l & b & context3 & -> & _ & Hothers).
    eexists _, context3. split; [done|]. by apply Hothers.
  - intros bands. unfold apply_radiative_properties, getAllUUIDs.
    destruct (set_all_properties_spec u (next_uuid context)
                (default ["Red"; "Green"; "Blue"; "NIR"] bands)
                (all_uuids context2) context2 Hne)
      as (context3 & -> & _ & Hset); [done|].
    cbn [mbind result_bind]. eexists _, context3. split; [done|].
    intros band Hband. destruct (Hset Hu2 band Hband) as [Hr Ht].
    split.
    + intros r Hleaf. split; [by apply Hr|].
      intros s Hsoil. by eapply leaf_reflectance_is_not_soil.
    + intros t Hleaf. split; [by apply Ht|].
      by eapply leaf_transmissivity_is_not_zero.
Qed.

End soil_claims.

(** ** The store on a concrete scene *)

Section scene_examples.
Import Scene Constants Soil Labels Properties.

Example example_scene_uuids :
  getAllUUIDs Example.soil = [0; 1; 2] /\ getAllUUIDs Example.scene = [0; 1; 2; 3; 4; 5].
Proof. split; by vm_compute. Qed.

Lemma C2_labels_witness :
  exists labeled_count bean_primitives context',
    apply_species_labels Example.scene 0 {[3 := 1; 4 := 2]}
      = Ok ((labeled_count, bean_primitives, 0), context') /\
    string_data context' !! (0, "plant_part") = Some "ground" /\
    string_data context' !! (4, "plant_part") = Some "bean" /\
    apply_species_labels Example.scene 0 ∅
      = apply_species_labels Example.scene 0 {[3 := 1; 4 := 2]}.
Proof.
  destruct (C2_labels Example.scene 0 {[3 := 1; 4 := 2]})
    as (l & b & context' & Hrun & Hground & Hothers & Hany).
  - vm_compute. repeat constructor.
  - exists l, b, context'. split; [exact Hrun|]. split; [exact Hground|].
    split; [|apply Hany].
    apply Hothers; [vm_compute; repeat constructor|lia].
Defined.

Lemma C10_soil_surface_treated_as_vegetation_witness :
  (exists counts context3,
      apply_species_labels Example.scene 0 ∅ = Ok (counts, context3) /\
      string_data context3 !! (1, "plant_part") = Some "bean") /\
  (exists n context3,
      apply_radiative_properties Example.scene 0 None = Ok (n, context3) /\
      float_data context3 !! (1, "reflectivity_Red") = Some (10 # 100) /\
      float_data context3 !! (1, "transmissivity_Red") = Some (5 # 100)).
Proof.
  destruct (C10_soil_surface_treated_as_vegetation
              Example.installation new_context 1 1 "dirt.jpg" 30 (3 # 10))
    as (ground_uuid & context1 & surface & Hrun & Hids & _ & _ & Hall).
  - vm_compute. by eexists.
  - intros path _. by left.
  - vm_compute in Hrun. injection Hrun as <- <-.
    vm_compute in Hids. injection Hids as <-.
    destruct (Hall Example.scene 1) as [Hlabel Hprops].
    + repeat constructor.
    + intros v Hv. vm_compute. vm_compute in Hv.
      repeat (apply elem_of_cons in Hv as [->|Hv]; [repeat constructor|]).
      inversion Hv.
    + split; [apply Hlabel|].
      destruct (Hprops None) as (n & context3 & Hrun & Hbands).
      exists n, context3. split; [exact Hrun|].
      destruct (Hbands "Red") as [Hr Ht]; [repeat constructor|].
      split; [apply Hr|apply Ht]; by vm_compute.
Defined.

End scene_examples.

(* ===================================================================== *)
(** * Properties of the orchestrator *)
(* ===================================================================== *)

Section pipeline_claims.
Import Pipeline.

(** A call that does not raise is recorded and control goes on. *)
Lemma do_call_returns w c t :
  raises w c = None -> do_call w c t = (Ok (), t ++ [Called c]).
Proof. intros Hc. unfold do_call. by rewrite Hc. Qed.

Lemma do_call_raises w c e t :
  raises w c = Some e -> do_call w c t = (Raise e, t ++ [Raised c e]).
Proof. intros Hc. unfold do_call. by rewrite Hc. Qed.

(** Case analysis on the membership of an event in a concrete trace. *)
Ltac trace_cases H :=
  repeat (apply elem_of_cons in H as [H|H];
          [try discriminate H; try (injection H as -> ->); try (injection H as ->)|]);
  try (apply elem_of_nil in H; destruct H).

Ltac in_trace := solve [repeat constructor].

Lemma in_trace_left (x : event) (t1 t2 : list event) : x ∈ t1 -> x ∈ t1 ++ t2.
Proof. intros Hx. apply elem_of_app. by left. Qed.

Lemma in_trace_right (x : event) (t1 t2 : list event) : x ∈ t2 -> x ∈ t1 ++ t2.
Proof. intros Hx. apply elem_of_app. by right. Qed.

Lemma in_trace_here (x : event) (t : list event) : x ∈ x :: t.
Proof. by left. Qed.

Lemma in_trace_further (x y : event) (t : list event) : x ∈ t -> x ∈ y :: t.
Proof. intros Hx. by right. Qed.

Create HintDb trace.
#[local] Hint Resolve in_trace_here in_trace_further in_trace_right in_trace_left : trace.

Ltac session_step :=
  match goal with
  | |- context [raises ?w ?c] =>
      let e := fresh "e" in
      destruct (raises w c) as [e|]; [destruct e|]; cbn
  | |- context [if ?b then _ else _] => destruct b; cbn
  end.

(** The [try] block never lets an exception out, whatever the calls
    inside it do; what it appends to the trace holds only session calls,
    and a report for every exception raised. *)
Lemma radiation_session_spec args w output_folder t :
  exists t',
    radiation_session args w output_folder t = (Ok (), t ++ t') /\
    (forall c e, Raised c e ∈ t' -> in_radiation_session c = true /\ logged e t') /\
    (forall c, Called c ∈ t' -> in_radiation_session c = true).
Proof.
  unfold radiation_session, try_except, with_resource, releasing, when, print, logged.
  unfold mbind, M_bind, mret, M_ret, do_call.
  repeat session_step;
    rewrite <- ?app_assoc; cbn [app];
    (eexists; split; [reflexivity|]);
    (split; [intros c' e' Hin|intros c' Hin]);
    trace_cases Hin;
    first [reflexivity
          | split; [reflexivity|];
            split; [first [left; in_trace|right; in_trace]|in_trace]].
Qed.

Lemma logged_mono e (t1 t2 : list event) :
  (forall x, x ∈ t1 -> x ∈ t2) -> logged e t1 -> logged e t2.
Proof. unfold logged. intros Hsub [[H1|H1] H2]; split; auto. Qed.

(** C3, as the code has it.  With the camera requested, let every call
    outside the [try] block of the camera stage return.  Then, whatever
    the calls inside the block do - opening the radiation session,
    configuring bands, sun and camera, the combined simulation, writing
    images and masks - [main] returns 0 after printing its closing
    banner; the export runs when saving was requested and the viewer
    unless [--no-interactive] was given; and every exception raised on
    the way was raised inside the block and reported by a handler. *)
Theorem C3_session_failures_are_caught args w :
  camera args = true ->
  plugins_available w = true ->
  (forall c, in_radiation_session c = false -> raises w c = None) ->
  (save args = true -> ~ (plot_width args * plot_length args == 0)%Q) ->
  (main args w []).1 = Ok 0 /\
  last (main args w []).2 = Some (Printed msg_complete) /\
  (save args = true ->
     Called export_scene ∈ (main args w []).2 /\
     Called save_scene_metadata ∈ (main args w []).2) /\
  (no_interactive args = false -> Called render_interactive ∈ (main args w []).2) /\
  (forall c e, Raised c e ∈ (main args w []).2 ->
               in_radiation_session c = true /\ logged e (main args w []).2).
Proof.
  intros Hcamera Hplugins Hout Harea.
  destruct (main args w []) as [r t] eqn:Hmain. cbn [fst snd].
  destruct args as [pw pl gd ba wa cam multi seg sv ni]. cbn in Hcamera, Harea. subst cam.
  unfold main, with_resource, releasing, when, print, raise_at in Hmain.
  unfold mbind, M_bind, mret, M_ret, do_call in Hmain.
  rewrite !(Hout parse_date_time), !(Hout check_required_plugins),
    !(Hout setup_helios_context), !(Hout create_soil_plane),
    !(Hout generate_intercrop_positions), !(Hout PlantArchitecture_enter),
    !(Hout setup_full_collision_system), !(Hout build_plants),
    !(Hout getPrimitiveCount), !(Hout calculate_solar_position),
    !(Hout apply_radiative_properties), ?(Hout grow_plants),
    ?(Hout apply_species_labels), ?(Hout get_next_output_folder),
    ?(Hout export_scene),
    ?(Hout save_scene_metadata), ?(Hout render_interactive) in Hmain by reflexivity.
  rewrite Hplugins in Hmain.
  assert (sv = true -> Qeq_bool (pw * pl) 0 = false) as Hzero.
  { intros Hsv. destruct (Qeq_bool (pw * pl) 0) eqn:Heq; [|done].
    apply Qeq_bool_iff in Heq. by destruct (Harea Hsv). }
  destruct (0 <? _), seg, sv, ni;
    cbn -[radiation_session Qeq_bool] in Hmain;
    rewrite ?Hzero in Hmain by done;
    cbn -[radiation_session] in Hmain;
    match type of Hmain with
    | context [radiation_session ?a ?w ?o ?t0] =>
        destruct (radiation_session_spec a w o t0) as (t' & Hsession & Hraised & Hcalled);
        rewrite Hsession in Hmain
    end;
    cbn in Hmain; injection Hmain as <- <-;
    (split; [reflexivity|]);
    (split; [rewrite !last_cons, last_snoc; reflexivity|]);
    (split; [intros ?; try discriminate; split; eauto 30 with trace|]);
    (split; [intros ?; try discriminate; eauto 30 with trace|]);
    intros c e Hin;
    repeat first [apply elem_of_app in Hin as [Hin|Hin]
                 |apply elem_of_cons in Hin as [Hin|Hin]; [discriminate Hin|]];
    try (apply elem_of_nil in Hin; destruct Hin);
    (split; [by eapply Hraised|]);
    (eapply logged_mono; [|by eapply Hraised]);
    intros x Hx; eauto 30 with trace.
Qed.

Lemma C3_session_failures_are_caught_witness :
  (main (Example.command_line true true true true)
        (Example.failing run_camera_simulation HeliosError) []).1 = Ok 0 /\
  Raised run_camera_simulation HeliosError
    ∈ (main (Example.command_line true true true true)
            (Example.failing run_camera_simulation HeliosError) []).2 /\
  logged HeliosError
    (main (Example.command_line true true true true)
          (Example.failing run_camera_simulation HeliosError) []).2 /\
  Called export_scene
    ∈ (main (Example.command_line true true true true)
            (Example.failing run_camera_simulation HeliosError) []).2.
Proof.
  destruct (C3_session_failures_are_caught
              (Example.command_line true true true true)
              (Example.failing run_camera_simulation HeliosError))
    as (Hdone & _ & Hexport & _ & Hraised).
  - reflexivity.
  - reflexivity.
  - intros c Hc. destruct c; try reflexivity; discriminate Hc.
  - intros _. by vm_compute.
  - assert (Raised run_camera_simulation HeliosError
              ∈ (main (Example.command_line true true true true)
                      (Example.failing run_camera_simulation HeliosError) []).2)
      as Hin by (vm_compute; repeat constructor).
    split; [exact Hdone|]. split; [exact Hin|].
    split; [apply (Hraised _ _ Hin)|apply Hexport; reflexivity].
Defined.

(** C3 as stated fails for the radiative-property assignment, which
    [main] calls before entering the [try] block: an exception raised
    there leaves [main], nothing is reported, and neither the export nor
    the closing banner is reached. *)
Lemma C3_counterexample :
  main (Example.command_line true true true true)
       (Example.failing apply_radiative_properties HeliosError) []
  = (Raise HeliosError,
     [Called parse_date_time; Called check_required_plugins;
      Called setup_helios_context; Called create_soil_plane;
      Called generate_intercrop_positions; Called PlantArchitecture_enter;
      Called setup_full_collision_system; Called build_plants;
      Called grow_plants; Released PlantArchitecture_enter;
      Called getPrimitiveCount; Called apply_species_labels;
      Called calculate_solar_position; Called get_next_output_folder;
      Raised apply_radiative_properties HeliosError]).
Proof. reflexivity. Qed.

(** C4, as the code has it.  [main] has no handler around the solar
    position: when every earlier call returns and
    [calculate_solar_position] raises, the exception leaves [main] at
    that point, whatever flags were given; no later stage is called and
    nothing is printed. *)
Theorem C4_solar_failure_aborts args w e :
  plugins_available w = true ->
  (forall c, c ≠ calculate_solar_position -> raises w c = None) ->
  raises w calculate_solar_position = Some e ->
  (main args w []).1 = Raise e /\
  last (main args w []).2 = Some (Raised calculate_solar_position e) /\
  (forall c, after_solar c = true -> Called c ∉ (main args w []).2) /\
  (forall m, Printed m ∉ (main args w []).2).
Proof.
  intros Hplugins Hout Hsolar.
  destruct (main args w []) as [r t] eqn:Hmain. cbn [fst snd].
  destruct args as [pw pl gd ba wa cam multi seg sv ni].
  unfold main, with_resource, releasing, when, print, raise_at in Hmain.
  unfold mbind, M_bind, mret, M_ret, do_call in Hmain.
  rewrite Hsolar in Hmain.
  rewrite !(Hout parse_date_time), !(Hout check_required_plugins),
    !(Hout setup_helios_context), !(Hout create_soil_plane),
    !(Hout generate_intercrop_positions), !(Hout PlantArchitecture_enter),
    !(Hout setup_full_collision_system), !(Hout build_plants),
    !(Hout getPrimitiveCount), ?(Hout grow_plants),
    ?(Hout apply_species_labels) in Hmain by discriminate.
  rewrite Hplugins in Hmain.
  destruct (0 <? _), seg; cbn in Hmain; injection Hmain as <- <-;
    (split; [reflexivity|]); (split; [reflexivity|]);
    (split; [intros c Hc Hin|intros m Hin]);
    trace_cases Hin; discriminate Hc.
Qed.

Lemma C4_solar_failure_aborts_witness :
  (main (Example.command_line false false false true)
        (Example.failing calculate_solar_position HeliosError) []).1
    = Raise HeliosError /\
  last (main (Example.command_line false false false true)
             (Example.failing calculate_solar_position HeliosError) []).2
    = Some (Raised calculate_solar_position HeliosError).
Proof.
  destruct (C4_solar_failure_aborts
              (Example.command_line false false false true)
              (Example.failing calculate_solar_position HeliosError) HeliosError)
    as (Habort & Hlast & _).
  - reflexivity.
  - intros c Hc. destruct c; try reflexivity. by destruct Hc.
  - reflexivity.
  - split; [exact Habort|exact Hlast].
Defined.

(** C4 as stated fails: with neither imaging nor viewing requested, an
    exception of the solar position still leaves [main]; no warning is
    printed and the closing banner is not reached. *)
Lemma C4_counterexample :
  main (Example.command_line false false false true)
       (Example.failing calculate_solar_position HeliosError) []
  = (Raise HeliosError,
     [Called parse_date_time; Called check_required_plugins;
      Called setup_helios_context; Called create_soil_plane;
      Called generate_intercrop_positions; Called PlantArchitecture_enter;
      Called setup_full_collision_system; Called build_plants;
      Called grow_plants; Released PlantArchitecture_enter;
      Called getPrimitiveCount;
      Raised calculate_solar_position HeliosError]).
Proof. reflexivity. Qed.

(** Without any failure the same command line does reach the end. *)
Example quiet_run_completes :
  (main (Example.command_line false false false true) Example.quiet []).1 = Ok 0.
Proof. reflexivity. Qed.

End pipeline_claims.

(* ===================================================================== *)
(** * Further properties of the layout generator and the plant builder *)
(* ===================================================================== *)

Section generator_edges.
Context `{NumpyRandom} `{!ShufflePermutes}.

(** A call that returns had a seed numpy accepts and at least one row. *)
Lemma generate_returned plot_width plot_length n_rows row_spacing
    bean_density wheat_density bean_emergence wheat_emergence seed g0 positions g' :
  generate_intercrop_positions plot_width plot_length n_rows row_spacing
    bean_density wheat_density bean_emergence wheat_emergence seed g0
    = Ok (positions, g') ->
  1 <= n_rows /\ is_Some (np_seed seed) /\ ~ (plot_width * plot_length == 0)%Q.
Proof.
  unfold generate_intercrop_positions, layout_rows.
  destruct (np_seed seed) as [g|]; [|discriminate].
  destruct (np_shuffle _ g) as [plant_types g1].
  unfold np_linspace. destruct (Z.ltb_spec n_rows 0); [discriminate|].
  cbn [mbind result_bind]. destruct (Z.eqb_spec n_rows 0); [discriminate|].
  destruct (place_rows _ _ _ _ _ _ _ _) as [[[rows p] g2]|]; [|discriminate].
  cbn. destruct (Qeq_bool _ 0) eqn:Hzero; [discriminate|].
  intros _. split; [lia|]. split; [by eexists|].
  intros Heq. apply Qeq_bool_iff in Heq. congruence.
Qed.

Lemma no_rows_raise plot_width plot_length n_rows row_spacing
    bean_density wheat_density bean_emergence wheat_emergence seed g0 :
  n_rows <= 0 ->
  is_Some (np_seed seed) ->
  generate_intercrop_positions plot_width plot_length n_rows row_spacing
    bean_density wheat_density bean_emergence wheat_emergence seed g0
  = Raise (if n_rows =? 0 then ZeroDivisionError else ValueError).
Proof.
  intros Hn [g Hseed]. unfold generate_intercrop_positions, layout_rows. rewrite Hseed.
  destruct (np_shuffle _ g) as [plant_types g1].
  unfold np_linspace. destruct (Z.ltb_spec n_rows 0).
  - cbn. destruct (Z.eqb_spec n_rows 0); [lia|done].
  - cbn. destruct (Z.eqb_spec n_rows 0); [done|lia].
Qed.

Lemma zero_area_raises plot_width plot_length n_rows row_spacing
    bean_density wheat_density bean_emergence wheat_emergence seed g0 :
  1 <= n_rows ->
  is_Some (np_seed seed) ->
  (plot_width * plot_length == 0)%Q ->
  generate_intercrop_positions plot_width plot_length n_rows row_spacing
    bean_density wheat_density bean_emergence wheat_emergence seed g0
  = Raise ZeroDivisionError.
Proof.
  intros Hn [g Hseed] Harea. unfold generate_intercrop_positions.
  destruct (layout_rows_returns plot_width plot_length n_rows row_spacing
              bean_density wheat_density bean_emergence wheat_emergence seed g0 g
              Hn Hseed) as (rows & g' & -> & _).
  cbn. apply Qeq_bool_iff in Harea. by rewrite Harea.
Qed.

(** X1.  For inputs in range (the plot area a finite float that does not
    underflow, the seed and emerged counts and n_rows at most
    [Ranges.count_limit], so that no [int()] of lines 62-65 overflows),
    generate_intercrop_positions returns a layout exactly when n_rows is
    at least 1, numpy accepts the seed and the plot area is not zero; in
    every other case in range it raises. *)
Theorem generate_returns_exactly_when plot_width plot_length n_rows row_spacing
    bean_density wheat_density bean_emergence wheat_emergence seed g0 :
  Ranges.inputs_in_range plot_width plot_length n_rows
    bean_density wheat_density bean_emergence wheat_emergence ->
  Ranges.area_not_tiny plot_width plot_length ->
  (exists positions g',
     generate_intercrop_positions plot_width plot_length n_rows row_spacing
       bean_density wheat_density bean_emergence wheat_emergence seed g0
     = Ok (positions, g'))
  <-> 1 <= n_rows /\ is_Some (np_seed seed) /\ ~ (plot_width * plot_length == 0)%Q.
Proof.
  intros _ _. split.
  - intros (positions & g' & Hrun). by eapply generate_returned.
  - intros (Hn & [g Hseed] & Harea).
    destruct (generate_returns plot_width plot_length n_rows row_spacing
                bean_density wheat_density bean_emergence wheat_emergence seed g0 g
                Hn Hseed Harea) as (positions & g' & Hrun & _).
    by exists positions, g'.
Qed.

(** X2.  For a seed numpy accepts and inputs in range (the plot area a
    finite float, the seed and emerged counts and n_rows at most
    [Ranges.count_limit], so that lines 59-76 run through without
    overflow), generate_intercrop_positions raises ValueError for a
    negative n_rows (from np.linspace), ZeroDivisionError for n_rows = 0
    (from total_plants // n_rows), and ZeroDivisionError for a zero plot
    area with n_rows >= 1 (from the closing density report, after the
    whole layout was computed). *)
Theorem generate_failure_kinds plot_width plot_length n_rows row_spacing
    bean_density wheat_density bean_emergence wheat_emergence seed g0 :
  is_Some (np_seed seed) ->
  Ranges.inputs_in_range plot_width plot_length n_rows
    bean_density wheat_density bean_emergence wheat_emergence ->
  let run :=
    generate_intercrop_positions plot_width plot_length n_rows row_spacing
      bean_density wheat_density bean_emergence wheat_emergence seed g0 in
  (n_rows < 0 -> run = Raise ValueError) /\
  (n_rows = 0 -> run = Raise ZeroDivisionError) /\
  (1 <= n_rows -> (plot_width * plot_length == 0)%Q -> run = Raise ZeroDivisionError).
Proof.
  intros Hseed _ run. subst run. split; [|split].
  - intros Hn. rewrite no_rows_raise by (done || lia).
    destruct (Z.eqb_spec n_rows 0); [lia|done].
  - intros ->. by rewrite no_rows_raise.
  - intros Hn Harea. by apply zero_area_raises.
Qed.

(** X3.  When no plant emerges (the two emerged counts sum to zero or
    less), a call with n_rows >= 1, an accepted seed and a plot area that
    is not zero returns the empty list instead of raising. *)
Theorem nothing_emerged_gives_empty_layout plot_width plot_length n_rows row_spacing
    bean_density wheat_density bean_emergence wheat_emergence seed g0 :
  1 <= n_rows ->
  is_Some (np_seed seed) ->
  ~ (plot_width * plot_length == 0)%Q ->
  bean_emerged plot_width plot_length bean_density bean_emergence
  + wheat_emerged plot_width plot_length wheat_density wheat_emergence <= 0 ->
  exists g',
    generate_intercrop_positions plot_width plot_length n_rows row_spacing
      bean_density wheat_density bean_emergence wheat_emergence seed g0
    = Ok ([], g').
Proof.
  intros Hn [g Hseed] Harea Htotal.
  destruct (generate_returns plot_width plot_length n_rows row_spacing
              bean_density wheat_density bean_emergence wheat_emergence seed g0 g
              Hn Hseed Harea) as (positions & g' & -> & Hspecies).
  exists g'. replace (Z.to_nat _) with 0%nat in Hspecies by lia.
  rewrite take_0 in Hspecies. apply fmap_nil_inv in Hspecies. by subst.
Qed.

Lemma unshuffled_species b w s :
  s ∈ plant_types_unshuffled b w -> s = "bean" \/ s = "wheat".
Proof.
  unfold plant_types_unshuffled.
  intros [Hs|Hs]%elem_of_app; apply elem_of_replicate_inv in Hs; auto.
Qed.

Lemma generated_species plot_width plot_length n_rows row_spacing
    bean_density wheat_density bean_emergence wheat_emergence seed g0 positions g' :
  generate_intercrop_positions plot_width plot_length n_rows row_spacing
    bean_density wheat_density bean_emergence wheat_emergence seed g0
    = Ok (positions, g') ->
  Forall (fun p : position => p.1.1 = "bean" \/ p.1.1 = "wheat") positions.
Proof.
  intros Hrun.
  destruct (generate_returned _ _ _ _ _ _ _ _ _ _ _ _ Hrun) as (Hn & [g Hseed] & Harea).
  destruct (generate_returns plot_width plot_length n_rows row_spacing
              bean_density wheat_density bean_emergence wheat_emergence seed g0 g
              Hn Hseed Harea) as (positions' & g'' & Hrun' & Hspecies).
  rewrite Hrun in Hrun'. injection Hrun' as <- <-.
  apply Forall_forall. intros p Hp.
  assert (p.1.1 ∈ species_of positions) as Hin.
  { unfold species_of. apply list_elem_of_fmap. by exists p. }
  rewrite Hspecies in Hin.
  apply elem_of_take in Hin as (i & Hi & _).
  apply list_elem_of_lookup_2 in Hi.
  rewrite <- (shuffle_permutes _ g) in Hi.
  by eapply unshuffled_species.
Qed.

(** X4.  Every tuple (species, x, y) that generate_intercrop_positions
    returns has species 'bean' or 'wheat' (np.random.shuffle only reorders
    the list of names). *)
Theorem emitted_species_are_bean_or_wheat plot_width plot_length n_rows row_spacing
    bean_density wheat_density bean_emergence wheat_emergence seed g0 positions g'
    species x y :
  generate_intercrop_positions plot_width plot_length n_rows row_spacing
    bean_density wheat_density bean_emergence wheat_emergence seed g0
    = Ok (positions, g') ->
  (species, x, y) ∈ positions ->
  species = "bean" \/ species = "wheat".
Proof.
  intros Hrun Hin.
  pose proof (generated_species _ _ _ _ _ _ _ _ _ _ _ _ Hrun) as Hall.
  rewrite Forall_forall in Hall. apply (Hall _ Hin).
Qed.

End generator_edges.

Section emergence.

(** [int()] of a float that is not negative is its floor. *)
Lemma py_int_floor (x : Q) : (0 <= x)%Q -> py_int x = Qfloor x.
Proof.
  destruct x as [n d]. unfold Qle, py_int, Qfloor. cbn. intros Hn.
  apply Z.quot_div_nonneg; lia.
Qed.

Lemma emerged_near_floor (density area emergence : Q) :
  (0 <= density * area)%Q -> (0 <= emergence)%Q -> (emergence <= 1)%Q ->
  Qfloor (density * area * emergence) - 1
    <= py_int (inject_Z (py_int (density * area)) * emergence)
    <= Qfloor (density * area * emergence).
Proof.
  intros Ha He0 He1.
  set (a := (density * area)%Q) in *.
  rewrite (py_int_floor a) by done.
  pose proof (Qfloor_le a) as Hlo. pose proof (Qlt_floor a) as Hhi.
  set (s := Qfloor a) in *.
  assert (0 <= s) as Hs.
  { subst s. change 0 with (Qfloor 0). by apply Qfloor_resp_le. }
  assert (0 <= inject_Z s * emergence)%Q as Hse.
  { apply Qmult_le_0_compat; [|done]. change 0%Q with (inject_Z 0). by rewrite <- Zle_Qle. }
  rewrite py_int_floor by done.
  assert (inject_Z s * emergence <= a * emergence)%Q as Hle
      by (by apply Qmult_le_compat_r).
  assert (a * emergence < inject_Z s * emergence + 1)%Q as Hlt.
  { rewrite inject_Z_plus in Hhi. change (inject_Z 1) with 1%Q in Hhi.
    clear Hse Hle Hs Ha. set (sq := inject_Z s) in *. clearbody sq a. nra. }
  pose proof (Qfloor_le (a * emergence)) as Hfloor.
  pose proof (Qlt_floor (inject_Z s * emergence)) as Hnext.
  split; [|by apply Qfloor_resp_le].
  assert (inject_Z (Qfloor (a * emergence)) < inject_Z (Qfloor (inject_Z s * emergence) + 2))%Q
    as Hz.
  { rewrite !inject_Z_plus in *. change (inject_Z 1) with 1%Q in Hnext.
    change (inject_Z 2) with 2%Q. lra. }
  rewrite <- Zlt_Qlt in Hz. lia.
Qed.

(** X5.  For a density * area that is not negative and an emergence rate
    in [0, 1], the emerged count int(int(density * area) * emergence) is
    floor(density * area * emergence) or one less: truncating the sown
    seeds first loses at most one plant. *)
Theorem emerged_counts_near_floor (plot_width plot_length density emergence : Q) :
  (0 <= density * (plot_width * plot_length))%Q ->
  (0 <= emergence)%Q -> (emergence <= 1)%Q ->
  (Qfloor (density * (plot_width * plot_length) * emergence) - 1
     <= bean_emerged plot_width plot_length density emergence
     <= Qfloor (density * (plot_width * plot_length) * emergence)) /\
  (Qfloor (density * (plot_width * plot_length) * emergence) - 1
     <= wheat_emerged plot_width plot_length density emergence
     <= Qfloor (density * (plot_width * plot_length) * emergence)).
Proof.
  intros Ha He0 He1. unfold bean_emerged, wheat_emerged, bean_seeds, wheat_seeds.
  split; by apply emerged_near_floor.
Qed.

End emergence.

Section rows_stay.
Import Jitter.

Lemma np_clip_near (v c delta a_min a_max : Q) :
  (a_min <= c)%Q -> (c <= a_max)%Q ->
  (c - delta <= v)%Q -> (v <= c + delta)%Q ->
  (c - delta <= np_clip v a_min a_max)%Q /\ (np_clip v a_min a_max <= c + delta)%Q.
Proof.
  intros Hlo Hhi Hv1 Hv2. unfold np_clip. split.
  - apply Q.min_glb; [|lra].
    apply Qle_trans with v; [done|apply Q.le_max_l].
  - apply Qle_trans with (Qmax v a_min); [apply Q.le_min_l|].
    apply Q.max_lub; lra.
Qed.

Section jitter.
Context `{NumpyRandom} `{!UniformInRange}.

Lemma place_row_on_row plot_width plot_length row_y base_spacing total_plants
    plant_types range_i plant_idx g ps plant_idx' g' :
  row_inside plot_length row_y ->
  place_row plot_width plot_length row_y base_spacing total_plants plant_types
            range_i plant_idx g = Ok (ps, plant_idx', g') ->
  Forall (on_row row_y) ps.
Proof.
  intros [Hlo Hhi]. revert plant_idx g ps plant_idx' g'.
  induction range_i as [|i range_i IH]; intros p g ps p' g' Hrun; simpl in Hrun.
  - inversion Hrun; constructor.
  - destruct (total_plants <=? p); [inversion Hrun; constructor|].
    destruct (py_getitem plant_types p) as [species|]; simpl in Hrun; [|discriminate].
    destruct (np_uniform _ _ g) as [jx g1].
    pose proof (uniform_in_range (-(15 # 1000)) (15 # 1000) g1 ltac:(done)) as [Hj1 Hj2].
    destruct (np_uniform _ _ g1) as [jy g2]. cbn [fst] in Hj1, Hj2.
    destruct (place_row _ _ _ _ _ _ range_i (p + 1) g2) as [[[rest p2] g3]|] eqn:Hrest;
      simpl in Hrun; [|discriminate].
    inversion Hrun; subst. constructor; [|by eapply IH].
    unfold on_row. cbn [snd]. apply np_clip_near; lra.
Qed.

Lemma place_rows_on_rows plot_width plot_length n_rows total_plants plant_types
    rows plant_idx g out plant_idx' g' :
  place_rows plot_width plot_length n_rows total_plants plant_types
             rows plant_idx g = Ok (out, plant_idx', g') ->
  Forall2 (fun row r => row_inside plot_length r.2 -> Forall (on_row r.2) row) out rows.
Proof.
  revert plant_idx g out plant_idx' g'.
  induction rows as [|[row_idx row_y] rows IH]; intros p g out p' g' Hrun;
    cbn [place_rows] in Hrun.
  - inversion Hrun; constructor.
  - destruct (if 0 <? _ then _ else _) as [[[row p1] g1]|] eqn:Hrow;
      simpl in Hrun; [|discriminate].
    destruct (place_rows _ _ _ _ _ rows p1 g1) as [[[rest p2] g2]|] eqn:Hrest;
      simpl in Hrun; [|discriminate].
    inversion Hrun; subst. constructor; [|by eapply IH].
    cbn [snd]. intros Hinside. destruct (0 <? _).
    + by eapply place_row_on_row.
    + inversion Hrow; constructor.
Qed.

(** X6.  The returned layout is the concatenation of the rows in order,
    one per value of np.linspace(row_spacing, plot_length - row_spacing,
    n_rows); on a row whose y lies within [0.05, plot_length - 0.05],
    every plant has y within 0.015 of the row's y (np.random.uniform draws
    from between its bounds, and clipping does not move a point further
    away). *)
Theorem plants_stay_on_their_row plot_width plot_length n_rows row_spacing
    bean_density wheat_density bean_emergence wheat_emergence seed g0 positions g' :
  generate_intercrop_positions plot_width plot_length n_rows row_spacing
    bean_density wheat_density bean_emergence wheat_emergence seed g0
    = Ok (positions, g') ->
  exists rows row_y_positions,
    positions = concat rows /\
    np_linspace row_spacing (plot_length - row_spacing) n_rows = Ok row_y_positions /\
    Forall2 (fun row row_y =>
               (5 # 100 <= row_y)%Q /\ (row_y <= plot_length - (5 # 100))%Q ->
               forall species x y, (species, x, y) ∈ row ->
                 (row_y - (15 # 1000) <= y)%Q /\ (y <= row_y + (15 # 1000))%Q)
            rows row_y_positions.
Proof.
  unfold generate_intercrop_positions, layout_rows.
  destruct (np_seed seed) as [g|]; [|discriminate].
  destruct (np_shuffle _ g) as [plant_types g1].
  destruct (np_linspace _ _ n_rows) as [ys|]; [|discriminate]. cbn [mbind result_bind].
  destruct (n_rows =? 0); [discriminate|].
  destruct (place_rows _ _ _ _ _ _ _ _) as [[[rows p] g2]|] eqn:Hrows; [|discriminate].
  cbn. destruct (Qeq_bool _ 0); [discriminate|].
  intros [= <- <-]. exists rows, ys. split; [done|]. split; [done|].
  apply place_rows_on_rows in Hrows.
  unfold py_enumerate in Hrows. 
  apply Forall2_same_length_lookup. split.
  - apply Forall2_length in Hrows. by rewrite length_imap in Hrows.
  - intros k row row_y Hrow Hy Hinside species x y Hin.
    rewrite Forall2_lookup in Hrows. specialize (Hrows k).
    rewrite Hrow, list_lookup_imap, Hy in Hrows. cbn in Hrows.
    inversion Hrows as [? ? Hk|]; subst.
    specialize (Hk Hinside). rewrite Forall_forall in Hk. apply (Hk _ Hin).
Qed.

End jitter.

Lemma lcg_uniform_in_range low high g :
  (low <= high)%Q ->
  (low <= (Lcg.uniform low high g).1)%Q /\ ((Lcg.uniform low high g).1 <= high)%Q.
Proof.
  intros Hle. unfold Lcg.uniform. cbn [fst].
  assert (0 <= Lcg.next g < 2147483648) as [Hn0 Hn1]
      by (unfold Lcg.next; apply Z.mod_pos_bound; lia).
  assert (0 <= Lcg.next g # 2147483648)%Q as Hf0
      by (unfold Qle; cbn; lia).
  assert (Lcg.next g # 2147483648 <= 1)%Q as Hf1
      by (unfold Qle; cbn; lia).
  set (f := (Lcg.next g # 2147483648)%Q) in *. clearbody f. nra.
Qed.

End rows_stay.

Section build.
Import Growth.

Lemma build_species_spec wanted species_id positions initial_age margin m pa :
  loaded_model pa = Some wanted ->
  exists m' pa' new,
    build_species wanted species_id positions initial_age margin m pa = Ok (m', pa') /\
    instances pa' = instances pa ++ new /\
    loaded_model pa' = Some wanted /\
    next_plant_id pa' = next_plant_id pa + Z.of_nat (length new) /\
    time_advanced pa' = time_advanced pa /\
    described <$> new = planted wanted initial_age margin positions /\
    plant_id <$> new = seqZ (next_plant_id pa) (Z.of_nat (length new)) /\
    (forall k, m' !! k =
       if decide (next_plant_id pa <= k < next_plant_id pa + Z.of_nat (length new))
       then Some species_id else m !! k).
Proof.
  revert m pa. induction positions as [|[[species x] y] positions IH]; intros m pa Hloaded;
    cbn [build_species].
  - exists m, pa, []. rewrite app_nil_r, Z.add_0_r. repeat split; try done.
    intros k. rewrite decide_False by (cbn; lia). done.
  - destruct (decide (species = wanted)) as [->|Hother].
    + unfold buildPlantInstanceFromLibrary. rewrite Hloaded. cbn [mbind result_bind].
      edestruct (IH (<[next_plant_id pa := species_id]> m)) as
        (m' & pa' & new & -> & Hinst & Hmodel & Hnext & Htime & Hdesc & Hids & Hmap);
        [done|]. cbn in Hinst, Hnext, Htime, Hids, Hmap.
      eexists m', pa', (_ :: new). split; [done|]. split; [|split; [done|split; [|split; [done|]]]].
      * rewrite Hinst, <- app_assoc. done.
      * rewrite Hnext. cbn [length]. lia.
      * split; [|split].
        -- unfold planted. rewrite filter_cons_True by done. cbn. f_equal. exact Hdesc.
        -- cbn [fmap list_fmap length plant_id]. rewrite Nat2Z.inj_succ, seqZ_cons by lia.
           f_equal. rewrite Hids. f_equal; lia.
        -- intros k. rewrite Hmap. cbn [length].
           destruct (decide (k = next_plant_id pa)) as [->|Hne];
             [rewrite lookup_insert_eq|rewrite lookup_insert_ne by done];
             repeat case_decide; try done; lia.
    + destruct (IH m pa Hloaded) as
        (m' & pa' & new & -> & Hinst & Hmodel & Hnext & Htime & Hdesc & Hids & Hmap).
      exists m', pa', new. repeat split; try done.
      unfold planted. by rewrite filter_cons_False by done.
Qed.

Lemma count_species_planted s initial_age margin positions :
  count_species s positions = Z.of_nat (length (planted s initial_age margin positions)).
Proof. unfold count_species, planted. by rewrite length_fmap. Qed.

Lemma planted_none s initial_age margin positions :
  (0 <? count_species s positions) = false ->
  planted s initial_age margin positions = [].
Proof.
  rewrite (count_species_planted s initial_age margin). intros Hz.
  apply Z.ltb_ge in Hz. destruct (planted _ _ _ _); [done|cbn in Hz; lia].
Qed.

Lemma build_plants_spec pa positions initial_age margin :
  exists m pa' new,
    build_plants pa positions initial_age margin = Ok (m, pa') /\
    instances pa' = instances pa ++ new /\
    time_advanced pa' = time_advanced pa /\
    described <$> new
      = planted "bean" initial_age margin positions
        ++ planted "wheat" initial_age margin positions /\
    plant_id <$> new = seqZ (next_plant_id pa) (Z.of_nat (length new)) /\
    (forall k, m !! k =
       if decide (next_plant_id pa <= k
                  < next_plant_id pa + count_species "bean" positions)
       then Some SPECIES_BEAN
       else if decide (next_plant_id pa + count_species "bean" positions <= k
                       < next_plant_id pa + count_species "bean" positions
                         + count_species "wheat" positions)
       then Some SPECIES_WHEAT
       else None).
Proof.
  unfold build_plants.
  assert (exists m1 pa1 new1,
    (if 0 <? count_species "bean" positions
     then build_species "bean" SPECIES_BEAN positions initial_age margin ∅
            (loadPlantModelFromLibrary "bean" pa)
     else Ok (∅, pa)) = Ok (m1, pa1) /\
    instances pa1 = instances pa ++ new1 /\
    next_plant_id pa1 = next_plant_id pa + Z.of_nat (length new1) /\
    time_advanced pa1 = time_advanced pa /\
    described <$> new1 = planted "bean" initial_age margin positions /\
    plant_id <$> new1 = seqZ (next_plant_id pa) (Z.of_nat (length new1)) /\
    (forall k, m1 !! k =
       if decide (next_plant_id pa <= k < next_plant_id pa + Z.of_nat (length new1))
       then Some SPECIES_BEAN else None))
    as (m1 & pa1 & new1 & -> & Hinst1 & Hnext1 & Htime1 & Hdesc1 & Hids1 & Hmap1).
  { destruct (0 <? count_species "bean" positions) eqn:Hbean.
    - destruct (build_species_spec "bean" SPECIES_BEAN positions initial_age margin ∅
                  (loadPlantModelFromLibrary "bean" pa) eq_refl)
        as (m1 & pa1 & new1 & -> & ? & ? & ? & ? & ? & ? & Hmap).
      exists m1, pa1, new1. repeat split; try done.
    - exists ∅, pa, []. rewrite app_nil_r, Z.add_0_r, planted_none by done.
      repeat split; try done. intros k. rewrite decide_False by (cbn; lia). done. }
  cbn [mbind result_bind].
  assert (exists m2 pa2 new2,
    (if 0 <? count_species "wheat" positions
     then build_species "wheat" SPECIES_WHEAT positions initial_age margin m1
            (loadPlantModelFromLibrary "wheat" pa1)
     else Ok (m1, pa1)) = Ok (m2, pa2) /\
    instances pa2 = instances pa1 ++ new2 /\
    time_advanced pa2 = time_advanced pa1 /\
    described <$> new2 = planted "wheat" initial_age margin positions /\
    plant_id <$> new2 = seqZ (next_plant_id pa1) (Z.of_nat (length new2)) /\
    (forall k, m2 !! k =
       if decide (next_plant_id pa1 <= k < next_plant_id pa1 + Z.of_nat (length new2))
       then Some SPECIES_WHEAT else m1 !! k))
    as (m2 & pa2 & new2 & -> & Hinst2 & Htime2 & Hdesc2 & Hids2 & Hmap2).
  { destruct (0 <? count_species "wheat" positions) eqn:Hwheat.
    - destruct (build_species_spec "wheat" SPECIES_WHEAT positions initial_age margin m1
                  (loadPlantModelFromLibrary "wheat" pa1) eq_refl)
        as (m2 & pa2 & new2 & -> & ? & ? & ? & ? & ? & ? & Hmap).
      exists m2, pa2, new2. repeat split; try done.
    - exists m1, pa1, []. rewrite app_nil_r, planted_none by done.
      repeat split; try done. intros k. rewrite decide_False by (cbn; lia). done. }
  cbn [mbind result_bind].
  exists m2, pa2, (new1 ++ new2).
  assert (count_species "bean" positions = Z.of_nat (length new1)) as Hnb.
  { rewrite (count_species_planted _ initial_age margin), <- Hdesc1.
    by rewrite length_fmap. }
  assert (count_species "wheat" positions = Z.of_nat (length new2)) as Hnw.
  { rewrite (count_species_planted _ initial_age margin), <- Hdesc2.
    by rewrite length_fmap. }
  split; [done|]. split; [by rewrite Hinst2, Hinst1, <- app_assoc|].
  split; [congruence|]. split; [by rewrite fmap_app, Hdesc1, Hdesc2|].
  split.
  - rewrite fmap_app, Hids1, Hids2, Hnext1, length_app, Nat2Z.inj_add.
    rewrite seqZ_app by lia. done.
  - intros k. rewrite Hmap2, Hmap1, Hnext1, Hnb, Hnw.
    repeat case_decide; try done; lia.
Qed.

(** X7.  build_plants never raises, whatever model the engine had loaded:
    it builds one plant per 'bean' position (in layout order) and then one
    per 'wheat' position, each at (x + margin, y + margin, 0) with the
    initial age, skips positions of any other species, and returns a dict
    that maps exactly the identities of the beans to SPECIES_BEAN and
    those of the wheat plants to SPECIES_WHEAT (the plant architecture
    engine is modelled from its interface: identities come from a
    counter). *)
Theorem build_plants_builds_beans_then_wheat pa positions initial_age margin :
  exists m pa' new,
    build_plants pa positions initial_age margin = Ok (m, pa') /\
    instances pa' = instances pa ++ new /\
    time_advanced pa' = time_advanced pa /\
    described <$> new
      = planted "bean" initial_age margin positions
        ++ planted "wheat" initial_age margin positions /\
    plant_id <$> new = seqZ (next_plant_id pa) (Z.of_nat (length new)) /\
    (forall k, m !! k =
       if decide (next_plant_id pa <= k
                  < next_plant_id pa + count_species "bean" positions)
       then Some SPECIES_BEAN
       else if decide (next_plant_id pa + count_species "bean" positions <= k
                       < next_plant_id pa + count_species "bean" positions
                         + count_species "wheat" positions)
       then Some SPECIES_WHEAT
       else None).
Proof. apply build_plants_spec. Qed.

Lemma two_species_partition (positions : list position) :
  Forall (fun p : position => p.1.1 = "bean" \/ p.1.1 = "wheat") positions ->
  count_species "bean" positions + count_species "wheat" positions
  = Z.of_nat (length positions).
Proof.
  unfold count_species. induction 1 as [|p ps Hp _ IH]; [done|].
  rewrite !filter_cons. cbn [length].
  destruct Hp as [Hp|Hp]; rewrite Hp;
    [rewrite decide_True, decide_False by done
    |rewrite decide_False, decide_True by done]; cbn [length];
    unfold position in *; lia.
Qed.

End build.

Section sowing.
Import Growth.
Context `{NumpyRandom} `{!ShufflePermutes}.

(** X8.  Composition of the generator and the builder: for a layout that
    generate_intercrop_positions returned, build_plants adds exactly
    len(positions) plants, and the keys of the returned species dict are
    exactly the len(positions) new plant identities, each mapped to
    SPECIES_BEAN or SPECIES_WHEAT. *)
Theorem every_emitted_position_is_planted plot_width plot_length n_rows row_spacing
    bean_density wheat_density bean_emergence wheat_emergence seed g0 positions g'
    pa initial_age margin :
  generate_intercrop_positions plot_width plot_length n_rows row_spacing
    bean_density wheat_density bean_emergence wheat_emergence seed g0
    = Ok (positions, g') ->
  exists m pa',
    build_plants pa positions initial_age margin = Ok (m, pa') /\
    length (instances pa') = (length (instances pa) + length positions)%nat /\
    (forall k, is_Some (m !! k) <->
               next_plant_id pa <= k < next_plant_id pa + Z.of_nat (length positions)) /\
    (forall k, m !! k = Some SPECIES_BEAN \/ m !! k = Some SPECIES_WHEAT \/ m !! k = None).
Proof.
  intros Hrun.
  pose proof (two_species_partition positions
                (generated_species _ _ _ _ _ _ _ _ _ _ _ _ Hrun)) as Hall.
  destruct (build_plants_spec pa positions initial_age margin)
    as (m & pa' & new & Hbuild & Hinst & _ & Hdesc & _ & Hmap).
  exists m, pa'. split; [done|]. split; [|split].
  - rewrite Hinst, length_app. f_equal.
    rewrite <- (length_fmap described), Hdesc, length_app.
    rewrite (count_species_planted "bean" initial_age margin) in Hall.
    rewrite (count_species_planted "wheat" initial_age margin) in Hall. lia.
  - intros k. rewrite Hmap. unfold count_species in *.
    repeat case_decide;
      (split; [intros [? Hk]; try lia; discriminate|intros Hk; try lia; by eexists]).
  - intros k. rewrite Hmap. repeat case_decide; auto.
Qed.

End sowing.

Section standing.
Import Growth.
Context `{NumpyRandom} `{!ShufflePermutes}.

Lemma generated_in_bounds plot_width plot_length n_rows row_spacing
    bean_density wheat_density bean_emergence wheat_emergence seed g0 positions g' :
  (5 # 100 <= plot_width - (5 # 100))%Q ->
  (5 # 100 <= plot_length - (5 # 100))%Q ->
  generate_intercrop_positions plot_width plot_length n_rows row_spacing
    bean_density wheat_density bean_emergence wheat_emergence seed g0
    = Ok (positions, g') ->
  Forall (in_bounds plot_width plot_length) positions.
Proof.
  intros Hw Hl Hrun. unfold generate_intercrop_positions, layout_rows in Hrun.
  destruct (np_seed seed) as [g|]; [|discriminate].
  destruct (np_shuffle _ g) as [plant_types g1].
  destruct (np_linspace _ _ n_rows) as [ys|]; [|discriminate]. cbn in Hrun.
  destruct (n_rows =? 0); [discriminate|].
  destruct (place_rows _ _ _ _ _ _ _ _) as [[[rows p] g2]|] eqn:Hrows; [|discriminate].
  cbn in Hrun. destruct (Qeq_bool _ 0); [discriminate|].
  inversion Hrun; subst.
  by eapply place_rows_bounds.
Qed.

Lemma planted_base species initial_age margin positions d :
  d ∈ planted species initial_age margin positions ->
  exists p : position,
    p ∈ positions /\ d.1.2 = ((p.1.2 + margin)%Q, (p.2 + margin)%Q, 0%Q).
Proof.
  unfold planted. intros (p & -> & Hp)%list_elem_of_fmap.
  apply list_elem_of_filter in Hp as [_ Hp]. by exists p.
Qed.

(** X9.  For a plot at least 0.1 m wide and long and a margin that is not
    negative, every plant build_plants builds from a generated layout
    stands on the ground (z = 0) inside the plot shifted by the margin, at
    least 0.05 m from its edge, hence inside the soil rectangle [0, width
    + 2 margin] x [0, length + 2 margin] that create_soil_plane lays out. *)
Theorem plants_stand_on_the_soil_plane plot_width plot_length n_rows row_spacing
    bean_density wheat_density bean_emergence wheat_emergence seed g0 positions g'
    pa initial_age margin :
  (1 # 10 <= plot_width)%Q ->
  (1 # 10 <= plot_length)%Q ->
  (0 <= margin)%Q ->
  generate_intercrop_positions plot_width plot_length n_rows row_spacing
    bean_density wheat_density bean_emergence wheat_emergence seed g0
    = Ok (positions, g') ->
  exists m pa' new,
    build_plants pa positions initial_age margin = Ok (m, pa') /\
    instances pa' = instances pa ++ new /\
    Forall (fun i => on_plot plot_width plot_length margin (5 # 100) (base i) /\
                     on_soil plot_width plot_length margin (base i)) new.
Proof.
  intros Hw Hl Hmargin Hrun.
  assert (Forall (in_bounds plot_width plot_length) positions) as Hbounds.
  { eapply generated_in_bounds; [| |exact Hrun]; lra. }
  destruct (build_plants_spec pa positions initial_age margin)
    as (m & pa' & new & Hbuild & Hinst & _ & Hdesc & _).
  exists m, pa', new. split; [done|]. split; [done|].
  apply Forall_forall. intros i Hi.
  assert (described i ∈ described <$> new) as Hd
      by (apply list_elem_of_fmap; by exists i).
  rewrite Hdesc in Hd.
  assert (exists p : position,
            p ∈ positions /\ base i = ((p.1.2 + margin)%Q, (p.2 + margin)%Q, 0%Q))
    as (p & Hp & Hbase).
  { apply elem_of_app in Hd as [Hd|Hd]; apply planted_base in Hd as (p & Hp & Hb);
      by exists p. }
  rewrite Forall_forall in Hbounds. destruct (Hbounds p Hp) as [[Hx1 Hx2] [Hy1 Hy2]].
  rewrite Hbase. unfold on_plot, on_soil, soil_width, soil_length. cbn [fst snd].
  repeat split; try lra; reflexivity.
Qed.

End standing.

Section layout_runs.
Import Jitter Growth.

Lemma every_emitted_position_is_planted_witness :
  exists positions g' m pa',
    generate_intercrop_positions (rng := Lcg.numpy_random) 1 1 3 (1 # 4) 3 5 1 1 42 0
      = Ok (positions, g') /\
    build_plants {| loaded_model := None; next_plant_id := 0;
                    instances := []; time_advanced := 0 |}
                 positions 5 (3 # 10) = Ok (m, pa') /\
    length (instances pa') = (0 + length positions)%nat.
Proof.
  destruct (every_emitted_position_is_planted (H := Lcg.numpy_random)
              1 1 3 (1 # 4) 3 5 1 1 42 0 _ _
              {| loaded_model := None; next_plant_id := 0;
                 instances := []; time_advanced := 0 |} 5 (3 # 10)
              ltac:(lazy; reflexivity))
    as (m & pa' & Hbuild & Hlen & _).
  eexists _, _, m, pa'. split; [lazy; reflexivity|]. split; [exact Hbuild|exact Hlen].
Defined.

Lemma plants_stand_on_the_soil_plane_witness :
  exists positions g' m pa' new,
    generate_intercrop_positions (rng := Lcg.numpy_random) 1 1 3 (1 # 4) 3 5 1 1 42 0
      = Ok (positions, g') /\
    build_plants {| loaded_model := None; next_plant_id := 0;
                    instances := []; time_advanced := 0 |}
                 positions 5 (3 # 10) = Ok (m, pa') /\
    instances pa' = [] ++ new /\
    Forall (fun i => on_soil 1 1 (3 # 10) (base i)) new.
Proof.
  destruct (plants_stand_on_the_soil_plane (H := Lcg.numpy_random)
              1 1 3 (1 # 4) 3 5 1 1 42 0 _ _
              {| loaded_model := None; next_plant_id := 0;
                 instances := []; time_advanced := 0 |} 5 (3 # 10)
              ltac:(by vm_compute) ltac:(by vm_compute) ltac:(by vm_compute)
              ltac:(lazy; reflexivity))
    as (m & pa' & new & Hbuild & Hinst & Hall).
  eexists _, _, m, pa', new. split; [lazy; reflexivity|]. split; [exact Hbuild|].
  split; [exact Hinst|]. eapply Forall_impl; [exact Hall|]. by intros i [_ ?].
Defined.

Lemma generate_failure_kinds_witness :
  Ranges.inputs_in_range 1 1 0 3 5 1 1 /\
  generate_intercrop_positions (rng := Lcg.numpy_random) 1 1 0 (1 # 4) 3 5 1 1 42 0
  = Raise ZeroDivisionError.
Proof.
  assert (Ranges.inputs_in_range 1 1 0 3 5 1 1) as Hrange
    by (repeat split; by vm_compute).
  split; [exact Hrange|].
  destruct (generate_failure_kinds (H := Lcg.numpy_random) 1 1 0 (1 # 4) 3 5 1 1 42 0)
    as (_ & Hzero & _); [by eexists|exact Hrange|].
  by apply Hzero.
Defined.

Lemma nothing_emerged_gives_empty_layout_witness :
  exists g',
    generate_intercrop_positions (rng := Lcg.numpy_random) 1 1 3 (1 # 4) 0 0 1 1 42 0
    = Ok ([], g').
Proof.
  apply (nothing_emerged_gives_empty_layout (H := Lcg.numpy_random) 1 1 3 (1 # 4) 0 0 1 1 42 0).
  - lia.
  - by eexists.
  - by vm_compute.
  - by vm_compute.
Defined.

Lemma emitted_species_are_bean_or_wheat_witness :
  exists positions g' species x y,
    generate_intercrop_positions (rng := Lcg.numpy_random) 1 1 1 (1 # 4) 2 0 1 1 42 0
      = Ok (positions, g') /\
    (species, x, y) ∈ positions /\
    (species = "bean" \/ species = "wheat").
Proof.
  eexists _, _, _, _, _.
  split; [lazy; reflexivity|].
  split; [apply list_elem_of_here|].
  eapply (emitted_species_are_bean_or_wheat (H := Lcg.numpy_random) 1 1 1 (1 # 4) 2 0 1 1 42 0).
  - lazy; reflexivity.
  - apply list_elem_of_here.
Defined.

Lemma emerged_counts_near_floor_witness :
  Qfloor ((5 # 2) * (1 * 1) * (7 # 8)) - 1
    <= bean_emerged 1 1 (5 # 2) (7 # 8)
    <= Qfloor ((5 # 2) * (1 * 1) * (7 # 8)).
Proof.
  apply (emerged_counts_near_floor 1 1 (5 # 2) (7 # 8)); by vm_compute.
Defined.

#[local] Instance lcg_uniform_in_range_instance : UniformInRange (H := Lcg.numpy_random).
Proof. intros low high g. apply lcg_uniform_in_range. Qed.

Lemma plants_stay_on_their_row_witness :
  exists positions g' rows row_y_positions,
    generate_intercrop_positions (rng := Lcg.numpy_random) 1 1 3 (1 # 4) 3 5 1 1 42 0
      = Ok (positions, g') /\
    positions = concat rows /\
    np_linspace (1 # 4) (1 - (1 # 4)) 3 = Ok row_y_positions.
Proof.
  destruct (plants_stay_on_their_row (H := Lcg.numpy_random)
              1 1 3 (1 # 4) 3 5 1 1 42 0 _ _ ltac:(lazy; reflexivity))
    as (rows & ys & Hcat & Hys & _).
  eexists _, _, rows, ys. split; [lazy; reflexivity|]. by split.
Defined.

Lemma generate_returns_exactly_when_witness :
  Ranges.inputs_in_range 1 1 3 3 5 1 1 /\
  Ranges.area_not_tiny 1 1 /\
  exists positions g',
    generate_intercrop_positions (rng := Lcg.numpy_random) 1 1 3 (1 # 4) 3 5 1 1 42 0
    = Ok (positions, g').
Proof.
  assert (Ranges.inputs_in_range 1 1 3 3 5 1 1) as Hrange
    by (repeat split; by vm_compute).
  assert (Ranges.area_not_tiny 1 1) as Harea
    by (right; left; by vm_compute).
  split; [exact Hrange|]. split; [exact Harea|].
  apply (generate_returns_exactly_when (H := Lcg.numpy_random)
           1 1 3 (1 # 4) 3 5 1 1 42 0 Hrange Harea).
  split; [lia|]. split; [by eexists|]. by vm_compute.
Defined.

End layout_runs.

(* ===================================================================== *)
(** * Further properties of the camera geometry *)
(* ===================================================================== *)

Section camera_poses.
Import Camera CameraPose.
Local Open Scope R_scope.

Lemma half_fov_acute fov_degrees :
  0 < fov_degrees < 180 -> 0 < np_radians fov_degrees / 2 < PI / 2.
Proof.
  intros [Hlo Hhi]. unfold np_radians. pose proof PI_RGT_0. split.
  - apply Rmult_lt_0_compat; [|lra]. apply Rmult_lt_0_compat; lra.
  - assert (fov_degrees * (PI / 180) < 180 * (PI / 180)) by (apply Rmult_lt_compat_r; lra).
    lra.
Qed.

Lemma tan_half_fov_pos fov_degrees :
  0 < fov_degrees < 180 -> 0 < tan (np_radians fov_degrees / 2).
Proof. intros Hfov. destruct (half_fov_acute _ Hfov). by apply tan_gt_0. Qed.

(** What the camera sees on the ground: a disc whose radius is the margin
    factor times half the diagonal. *)
Lemma footprint_radius plot_width plot_length fov_degrees margin_factor :
  0 < fov_degrees < 180 ->
  calculate_nadir_camera_height plot_width plot_length fov_degrees margin_factor
    * tan (np_radians fov_degrees / 2)
  = margin_factor * (sqrt (plot_width ^ 2 + plot_length ^ 2) / 2).
Proof.
  intros Hfov. pose proof (tan_half_fov_pos _ Hfov).
  unfold calculate_nadir_camera_height. cbv zeta. field. lra.
Qed.

Lemma within_half_diagonal (w l x y : R) :
  0 <= x <= w -> 0 <= y <= l ->
  sqrt ((x - w / 2) ^ 2 + (y - l / 2) ^ 2) <= sqrt (w ^ 2 + l ^ 2) / 2.
Proof.
  intros Hx Hy.
  replace (sqrt (w ^ 2 + l ^ 2) / 2) with (sqrt ((w / 2) ^ 2 + (l / 2) ^ 2)).
  - apply sqrt_le_1_alt. nra.
  - replace ((w / 2) ^ 2 + (l / 2) ^ 2) with ((w ^ 2 + l ^ 2) * (/ 2) ^ 2) by field.
    rewrite sqrt_mult_alt by nra. rewrite sqrt_pow2 by lra. lra.
Qed.

Lemma nadir_pose_covers plot_width plot_length fov_degrees x y :
  0 < fov_degrees < 180 ->
  0 <= x <= plot_width -> 0 <= y <= plot_length ->
  sqrt ((x - plot_width / 2) ^ 2 + (y - plot_length / 2) ^ 2)
  <= calculate_nadir_camera_height plot_width plot_length fov_degrees default_margin_factor
     * tan (np_radians fov_degrees / 2)
  /\ 0 <= calculate_nadir_camera_height plot_width plot_length fov_degrees
            default_margin_factor.
Proof.
  intros Hfov Hx Hy. split.
  - rewrite footprint_radius by done.
    pose proof (within_half_diagonal plot_width plot_length x y Hx Hy).
    pose proof (sqrt_pos (plot_width ^ 2 + plot_length ^ 2)).
    unfold default_margin_factor. lra.
  - pose proof (tan_half_fov_pos _ Hfov) as Htan.
    pose proof (sqrt_pos (plot_width ^ 2 + plot_length ^ 2)).
    unfold calculate_nadir_camera_height, default_margin_factor. cbv zeta.
    apply Rmult_le_pos; [|lra]. apply Rmult_le_pos; [lra|].
    left. by apply Rinv_0_lt_compat.
Qed.

(** X10.  For a field of view strictly between 0 and 180 degrees,
    calculate_camera_position puts the camera above the centre of the soil
    rectangle, looking straight down at z = 0, high enough that every
    point of the soil rectangle lies within the cone of half angle fov/2
    around the view axis; setup_radiation_camera computes the same pose. *)
Theorem nadir_camera_sees_the_whole_soil_plane
    plot_width plot_length margin fov_degrees x y :
  0 < fov_degrees < 180 ->
  0 <= x <= plot_width + 2 * margin ->
  0 <= y <= plot_length + 2 * margin ->
  nadir (calculate_camera_position plot_width plot_length margin fov_degrees) /\
  in_view (calculate_camera_position plot_width plot_length margin fov_degrees)
          fov_degrees x y /\
  setup_radiation_camera plot_width plot_length margin fov_degrees
  = calculate_camera_position plot_width plot_length margin fov_degrees.
Proof.
  intros Hfov Hx Hy.
  destruct (nadir_pose_covers _ _ _ _ _ Hfov Hx Hy) as [Hcone Hheight].
  unfold calculate_camera_position, setup_radiation_camera, nadir, in_view. cbv zeta.
  repeat split; done.
Qed.

Lemma nadir_camera_sees_the_whole_soil_plane_witness :
  in_view (calculate_camera_position 1 1 (3 / 10) 60) 60 0 0.
Proof.
  apply (nadir_camera_sees_the_whole_soil_plane 1 1 (3 / 10) 60 0 0); lra.
Defined.

(** X11.  calculate_nadir_camera_height is monotone: for sides that are
    not negative, fields of view in (0, 180) and a margin factor that is
    not negative, a plot that is no smaller in both sides and a field of
    view that is no wider give a height that is no lower. *)
Theorem nadir_height_grows_with_the_plot_and_falls_with_the_fov
    w1 l1 w2 l2 fov1 fov2 margin_factor :
  0 <= w1 <= w2 -> 0 <= l1 <= l2 ->
  0 < fov1 <= fov2 -> fov2 < 180 ->
  0 <= margin_factor ->
  calculate_nadir_camera_height w1 l1 fov2 margin_factor
  <= calculate_nadir_camera_height w2 l2 fov1 margin_factor.
Proof.
  intros Hw Hl Hfov1 Hfov2 Hm.
  assert (0 < fov1 < 180) as Ha by lra. assert (0 < fov2 < 180) as Hb by lra.
  pose proof (tan_half_fov_pos _ Ha) as Ht1. pose proof (tan_half_fov_pos _ Hb) as Ht2.
  destruct (half_fov_acute _ Ha) as [Ha1 Ha2]. destruct (half_fov_acute _ Hb) as [Hb1 Hb2].
  assert (tan (np_radians fov1 / 2) <= tan (np_radians fov2 / 2)) as Htan.
  { destruct (Req_dec fov1 fov2) as [->|Hne]; [lra|]. left.
    pose proof PI_RGT_0.
    apply tan_increasing; [lra| |lra].
    unfold np_radians. apply Rmult_lt_compat_r; [lra|].
    apply Rmult_lt_compat_r; [|lra]. apply Rmult_lt_0_compat; lra. }
  assert (sqrt (w1 ^ 2 + l1 ^ 2) <= sqrt (w2 ^ 2 + l2 ^ 2)) as Hdiag
      by (apply sqrt_le_1_alt; nra).
  pose proof (sqrt_pos (w1 ^ 2 + l1 ^ 2)) as Hd1.
  unfold calculate_nadir_camera_height. cbv zeta.
  apply Rmult_le_compat_r; [done|].
  unfold Rdiv. rewrite !Rmult_assoc.
  apply Rmult_le_compat; try lra.
  - apply Rmult_le_pos; [lra|]. left. by apply Rinv_0_lt_compat.
  - apply Rmult_le_compat_l; [lra|]. by apply Rinv_le_contravar.
Qed.

Lemma nadir_height_grows_with_the_plot_and_falls_with_the_fov_witness :
  calculate_nadir_camera_height 1 1 90 (11 / 10)
  <= calculate_nadir_camera_height 2 3 60 (11 / 10).
Proof.
  apply (nadir_height_grows_with_the_plot_and_falls_with_the_fov 1 1 2 3 60 90 (11 / 10)); lra.
Defined.

(** X12.  The camera pose render_interactive computes inline equals
    calculate_oblique_camera_position with its default multipliers (1.2
    and 1.0), and this camera stands above its look-at point (z = 0.4)
    exactly when the longer side of the plot exceeds 0.4 m. *)
Theorem interactive_view_is_the_default_oblique_view plot_width plot_length margin :
  render_interactive_pose plot_width plot_length margin
  = calculate_oblique_camera_position plot_width plot_length margin
      default_angle_multiplier default_height_multiplier
  /\ (let '((_, _, camera_z), (_, _, lookat_z)) :=
        render_interactive_pose plot_width plot_length margin in
      lookat_z < camera_z <-> 4 / 10 < plot_width \/ 4 / 10 < plot_length).
Proof.
  split; [done|]. unfold render_interactive_pose. cbv zeta.
  unfold Rmax. destruct (Rle_dec plot_width plot_length); split; intros; lra.
Qed.

End camera_poses.

(* ===================================================================== *)
(** * Further properties of the labels, the coefficients and the store *)
(* ===================================================================== *)

Section label_counts.
Import Scene Constants Labels Labelled.

Lemma label_others_counts ground_uuid uuids context bean_primitives labeled_count :
  (forall u, u ∈ uuids -> u ∈ all_uuids context) ->
  exists context',
    label_others ground_uuid uuids context bean_primitives labeled_count
      = Ok (context', bean_primitives + others ground_uuid uuids,
            labeled_count + others ground_uuid uuids) /\
    all_uuids context' = all_uuids context /\
    next_uuid context' = next_uuid context /\
    float_data context' = float_data context /\
    (forall u field, field ≠ "plant_part" \/ u = ground_uuid \/ u ∉ uuids ->
       string_data context' !! (u, field) = string_data context !! (u, field)).
Proof.
  revert context bean_primitives labeled_count.
  induction uuids as [|uuid uuids IH]; intros context b l Hknown; cbn [label_others].
  - exists context. unfold others. cbn. rewrite !Z.add_0_r. done.
  - assert (forall u, u ∈ uuids -> u ∈ all_uuids context) as Hrest
        by (intros u Hu; apply Hknown; by right).
    unfold others. rewrite filter_cons.
    destruct (decide (uuid ≠ ground_uuid)) as [Hother|Hground].
    + unfold setPrimitiveDataString.
      rewrite decide_True by (apply Hknown; by left). cbn [mbind result_bind].
      edestruct IH as (context' & -> & Hids & Hnext & Hfloat & Hframe); [exact Hrest|].
      exists context'. cbn in *. split; [|split; [done|split; [done|split; [done|]]]].
      * unfold others. cbn [length]. rewrite Nat2Z.inj_succ.
        by rewrite <- !Z.add_assoc, !Z.add_1_l.
      * intros u field Hwhy. rewrite Hframe.
        -- apply lookup_insert_ne. intros [= -> <-].
           destruct Hwhy as [?|[?|Hout]]; [done|done|]. apply Hout. by left.
        -- destruct Hwhy as [?|[?|Hout]]; auto. right; right.
           intros Hin. apply Hout. by right.
    + edestruct IH as (context' & -> & Hids & Hnext & Hfloat & Hframe); [exact Hrest|].
      exists context'. split; [done|]. split; [done|]. split; [done|]. split; [done|].
      intros u field Hwhy. apply Hframe.
      destruct Hwhy as [?|[?|Hout]]; auto. right; right.
      intros Hin. apply Hout. by right.
Qed.

Lemma others_absent ground_uuid uuids :
  ground_uuid ∉ uuids -> others ground_uuid uuids = Z.of_nat (length uuids).
Proof.
  unfold others. induction uuids as [|u uuids IH]; [done|].
  intros Hout. rewrite filter_cons.
  rewrite decide_True by (intros ->; apply Hout; by left).
  cbn [length]. f_equal. f_equal. apply Nat2Z.inj, IH. intros Hin. apply Hout. by right.
Qed.

Lemma others_all_but_one ground_uuid uuids :
  NoDup uuids -> ground_uuid ∈ uuids ->
  1 + others ground_uuid uuids = Z.of_nat (length uuids).
Proof.
  induction 1 as [|u uuids Hu Hnodup IH]; [by intros ?%elem_of_nil|].
  unfold others in *. rewrite filter_cons. cbn [length].
  destruct (decide (u ≠ ground_uuid)) as [Hne|Heq].
  - intros [?|Hin]%elem_of_cons; [congruence|]. cbn [length]. specialize (IH Hin). lia.
  - apply dec_stable in Heq as ->. intros _.
    pose proof (others_absent ground_uuid uuids Hu) as Habs. unfold others in Habs. lia.
Qed.

Lemma apply_species_labels_counts context ground_uuid (plant_species_map : gmap Z Z) :
  ground_uuid ∈ all_uuids context ->
  exists context',
    apply_species_labels context ground_uuid plant_species_map
      = Ok ((1 + others ground_uuid (all_uuids context),
             others ground_uuid (all_uuids context), 0), context') /\
    all_uuids context' = all_uuids context /\
    next_uuid context' = next_uuid context /\
    float_data context' = float_data context /\
    (forall u field, field ≠ "plant_part" ->
       string_data context' !! (u, field) = string_data context !! (u, field)).
Proof.
  intros Hground. unfold apply_species_labels, getAllUUIDs.
  unfold setPrimitiveDataString. rewrite decide_True by done. cbn [mbind result_bind].
  edestruct (label_others_counts ground_uuid (all_uuids context))
    as (context' & -> & Hids & Hnext & Hfloat & Hframe); [|exists context'; cbn in *].
  { intros u Hu. exact Hu. }
  rewrite !Z.add_0_l. split; [done|]. split; [done|]. split; [done|]. split; [done|].
  intros u field Hfield. rewrite Hframe by auto.
  apply lookup_insert_ne. congruence.
Qed.

(** X13.  For a ground identity the store knows, apply_species_labels
    returns (labeled_count, bean_primitives, 0) with labeled_count = 1 +
    bean_primitives and bean_primitives the number of entries of
    getAllUUIDs other than the ground identity (so labeled_count is the
    number of primitives when identities are distinct); it changes no
    float data, no identity and no string field other than 'plant_part'. *)
Theorem labels_report_and_frame context ground_uuid (plant_species_map : gmap Z Z) :
  ground_uuid ∈ all_uuids context ->
  exists labeled_count bean_primitives context',
    apply_species_labels context ground_uuid plant_species_map
      = Ok ((labeled_count, bean_primitives, 0), context') /\
    labeled_count = 1 + bean_primitives /\
    bean_primitives = others ground_uuid (all_uuids context) /\
    (NoDup (all_uuids context) ->
     labeled_count = Z.of_nat (length (all_uuids context))) /\
    all_uuids context' = all_uuids context /\
    next_uuid context' = next_uuid context /\
    float_data context' = float_data context /\
    (forall u field, field ≠ "plant_part" ->
       string_data context' !! (u, field) = string_data context !! (u, field)).
Proof.
  intros Hground.
  destruct (apply_species_labels_counts context ground_uuid plant_species_map Hground)
    as (context' & Hrun & Hids & Hnext & Hfloat & Hframe).
  eexists _, _, context'. split; [exact Hrun|]. split; [done|]. split; [done|].
  split; [|done]. intros Hnodup. by apply others_all_but_one.
Qed.

Lemma labels_report_and_frame_witness :
  exists labeled_count bean_primitives context',
    apply_species_labels Example.scene 0 ∅
      = Ok ((labeled_count, bean_primitives, 0), context') /\
    labeled_count = 1 + bean_primitives /\
    float_data context' = float_data Example.scene.
Proof.
  destruct (labels_report_and_frame Example.scene 0 ∅)
    as (l & b & context' & Hrun & Hl & _ & _ & _ & _ & Hfloat & _).
  { vm_compute. apply list_elem_of_here. }
  by exists l, b, context'.
Defined.

(** The only way [apply_species_labels] fails: its first call
    is the write to the ground identity. *)
Lemma labels_need_a_known_ground context ground_uuid (plant_species_map : gmap Z Z) :
  apply_species_labels context ground_uuid plant_species_map = Raise HeliosError
  <-> ground_uuid ∉ all_uuids context.
Proof.
  split.
  - intros Hrun Hground.
    destruct (apply_species_labels_counts context ground_uuid plant_species_map Hground)
      as (context' & Hok & _). congruence.
  - intros Hout. unfold apply_species_labels, setPrimitiveDataString.
    by rewrite decide_False.
Qed.

Lemma label_others_fixed ground_uuid uuids context bean_primitives labeled_count :
  (forall u, u ∈ uuids -> u ∈ all_uuids context) ->
  (forall u, u ∈ uuids -> u ≠ ground_uuid ->
             string_data context !! (u, "plant_part") = Some PLANT_PART_BEAN) ->
  label_others ground_uuid uuids context bean_primitives labeled_count
  = Ok (context, bean_primitives + others ground_uuid uuids,
        labeled_count + others ground_uuid uuids).
Proof.
  revert bean_primitives labeled_count.
  induction uuids as [|uuid uuids IH]; intros b l Hknown Hset; cbn [label_others].
  - unfold others. cbn. by rewrite !Z.add_0_r.
  - unfold others. rewrite filter_cons.
    destruct (decide (uuid ≠ ground_uuid)) as [Hother|Hground].
    + unfold setPrimitiveDataString.
      rewrite decide_True by (apply Hknown; by left). cbn [mbind result_bind].
      rewrite insert_id by (apply Hset; [by left|done]).
      replace {| next_uuid := next_uuid context; all_uuids := all_uuids context;
                 string_data := string_data context;
                 float_data := float_data context |} with context by (by destruct context).
      rewrite IH.
      * unfold others. cbn [length]. rewrite Nat2Z.inj_succ.
        by rewrite <- !Z.add_assoc, !Z.add_1_l.
      * intros u Hu. apply Hknown. by right.
      * intros u Hu. apply Hset. by right.
    + apply IH.
      * intros u Hu. apply Hknown. by right.
      * intros u Hu. apply Hset. by right.
Qed.

(** X14.  apply_species_labels is idempotent: run again on the store it
    left (with any species dict), it returns the same counts and leaves
    the store as it is. *)
Theorem labelling_twice_changes_nothing context ground_uuid
    (plant_species_map plant_species_map' : gmap Z Z) counts context' :
  apply_species_labels context ground_uuid plant_species_map = Ok (counts, context') ->
  apply_species_labels context' ground_uuid plant_species_map' = Ok (counts, context').
Proof.
  intros Hrun.
  assert (ground_uuid ∈ all_uuids context) as Hground.
  { destruct (decide (ground_uuid ∈ all_uuids context)) as [|Hout]; [done|].
    unfold apply_species_labels, setPrimitiveDataString in Hrun.
    by rewrite decide_False in Hrun. }
  destruct (apply_species_labels_counts context ground_uuid plant_species_map Hground)
    as (c1 & Hrun1 & Hids & _).
  destruct (apply_species_labels_spec context ground_uuid plant_species_map Hground)
    as (l & b & c2 & Hrun2 & Hg & Hset).
  assert (c1 = context') as -> by congruence.
  assert (c2 = context') as -> by congruence.
  assert (counts = (1 + others ground_uuid (all_uuids context),
                    others ground_uuid (all_uuids context), 0)) as -> by congruence.
  unfold apply_species_labels, getAllUUIDs, setPrimitiveDataString.
  rewrite Hids, decide_True by done. cbn [mbind result_bind].
  rewrite insert_id by done.
  replace {| next_uuid := next_uuid context'; all_uuids := all_uuids context;
             string_data := string_data context';
             float_data := float_data context' |} with context'
    by (rewrite <- Hids; by destruct context').
  rewrite label_others_fixed.
  - cbn [mbind result_bind]. by rewrite !Z.add_0_l.
  - intros u Hu. by rewrite Hids.
  - intros u Hu Hne. by apply Hset.
Qed.

Lemma labelling_twice_changes_nothing_witness :
  exists counts context',
    apply_species_labels Example.scene 0 ∅ = Ok (counts, context') /\
    apply_species_labels context' 0 ∅ = Ok (counts, context').
Proof.
  eexists _, _. split; [vm_compute; reflexivity|].
  apply (labelling_twice_changes_nothing Example.scene 0 ∅ ∅).
  vm_compute; reflexivity.
Defined.

End label_counts.

Section coefficient_invariants.
Import Scene Constants Properties Coefficients.

Lemma reflectivity_key_inj b b' :
  "reflectivity_" +:+ b = "reflectivity_" +:+ b' -> b = b'.
Proof. intros Heq. by simplify_eq/=. Qed.

Lemma transmissivity_key_inj b b' :
  "transmissivity_" +:+ b = "transmissivity_" +:+ b' -> b = b'.
Proof. intros Heq. by simplify_eq/=. Qed.

Lemma keys_differ b b' : "reflectivity_" +:+ b ≠ "transmissivity_" +:+ b'.
Proof. intros Heq. by simplify_eq/=. Qed.

Lemma prescribed_functional ground_uuid bands u key v v' :
  prescribed ground_uuid bands u key v -> prescribed ground_uuid bands u key v' -> v = v'.
Proof.
  intros (b & _ & [[Hu [[-> Hv]|[-> [_ ->]]]]|[Hu [[-> Hv]|[-> Hv]]]])
         (b' & _ & [[Hu' [[Hk Hv']|[Hk [_ Hv']]]]|[Hu' [[Hk Hv']|[Hk Hv']]]]);
    try done;
    try (apply reflectivity_key_inj in Hk as ->; congruence);
    try (apply transmissivity_key_inj in Hk as ->; congruence);
    try (by apply keys_differ in Hk);
    try (symmetry in Hk; by apply keys_differ in Hk).
Qed.

Lemma only_prescribed_refl ground_uuid bands context :
  only_prescribed ground_uuid bands context context.
Proof. repeat split. intros u key. by left. Qed.

Lemma only_prescribed_trans ground_uuid bands c1 c2 c3 :
  only_prescribed ground_uuid bands c1 c2 -> only_prescribed ground_uuid bands c2 c3 ->
  only_prescribed ground_uuid bands c1 c3.
Proof.
  intros (Hids1 & Hnext1 & Hstr1 & Hf1) (Hids2 & Hnext2 & Hstr2 & Hf2).
  split; [congruence|]. split; [congruence|]. split; [congruence|].
  intros u key. destruct (Hf2 u key) as [Heq|(Hu & v & Hv & Hlook)].
  - rewrite Heq. apply Hf1.
  - right. split; [by rewrite <- Hids1|]. by exists v.
Qed.

(** A prescribed value that is in place stays in place. *)
Lemma only_prescribed_stable ground_uuid bands c1 c2 u key v :
  only_prescribed ground_uuid bands c1 c2 ->
  prescribed ground_uuid bands u key v ->
  float_data c1 !! (u, key) = Some v ->
  float_data c2 !! (u, key) = Some v.
Proof.
  intros (_ & _ & _ & Hf) Hv Hlook. destruct (Hf u key) as [Heq|(_ & v' & Hv' & Hlook')].
  - by rewrite Heq.
  - rewrite Hlook'. f_equal. by eapply prescribed_functional.
Qed.

(** One prescribed write. *)
Lemma prescribed_write ground_uuid bands uuid key v context :
  uuid ∈ all_uuids context ->
  prescribed ground_uuid bands uuid key v ->
  exists context',
    setPrimitiveDataFloat uuid key v context = Ok context' /\
    only_prescribed ground_uuid bands context context' /\
    float_data context' !! (uuid, key) = Some v.
Proof.
  intros Hknown Hv. unfold setPrimitiveDataFloat. rewrite decide_True by done.
  eexists. split; [done|]. cbn. split; [|apply lookup_insert_eq].
  repeat split. cbn. intros u key'.
  destruct (decide ((uuid, key) = (u, key'))) as [[= <- <-]|Hne].
  - right. split; [done|]. exists v. split; [done|apply lookup_insert_eq].
  - left. by apply lookup_insert_ne.
Qed.

Lemma set_soil_properties_prescribed ground_uuid bands some context :
  ground_uuid ∈ all_uuids context ->
  some ⊆ bands ->
  exists context',
    set_soil_properties ground_uuid some context = Ok context' /\
    only_prescribed ground_uuid bands context context' /\
    (forall key v, prescribed ground_uuid some ground_uuid key v ->
                   float_data context' !! (ground_uuid, key) = Some v).
Proof.
  revert context. induction some as [|band some IH]; intros context Hknown Hsub;
    cbn [set_soil_properties].
  - exists context. split; [done|]. split; [apply only_prescribed_refl|].
    intros key v (b & Hb & _). by apply elem_of_nil in Hb.
  - assert (band ∈ bands) as Hband by (apply Hsub; by left).
    assert (some ⊆ bands) as Hrest by (intros b Hb; apply Hsub; by right).
    assert (exists c1,
      match SOIL_REFLECTANCE !! band with
      | Some r =>
          context ← setPrimitiveDataFloat ground_uuid ("reflectivity_" +:+ band) r context;
          setPrimitiveDataFloat ground_uuid ("transmissivity_" +:+ band) 0 context
      | None => Ok context
      end = Ok c1 /\
      only_prescribed ground_uuid bands context c1 /\
      (forall key v, prescribed ground_uuid [band] ground_uuid key v ->
                     float_data c1 !! (ground_uuid, key) = Some v))
      as (c1 & -> & Hc1 & Hset1).
    { destruct (SOIL_REFLECTANCE !! band) as [r|] eqn:Hr.
      - assert (prescribed ground_uuid bands ground_uuid ("reflectivity_" +:+ band) r) as Hpr.
        { exists band. split; [done|]. left. split; [done|]. by left. }
        assert (prescribed ground_uuid bands ground_uuid ("transmissivity_" +:+ band) 0) as Hpt.
        { exists band. split; [done|]. left. split; [done|]. right. by rewrite Hr. }
        destruct (prescribed_write _ _ _ _ _ context Hknown Hpr) as (c0 & -> & Hc0 & Hr0).
        cbn [mbind result_bind].
        assert (ground_uuid ∈ all_uuids c0) as Hknown0 by (by rewrite (proj1 Hc0)).
        destruct (prescribed_write _ _ _ _ _ c0 Hknown0 Hpt) as (c1 & -> & Hc1 & Ht1).
        exists c1. split; [done|]. split; [by eapply only_prescribed_trans|].
        intros key v (b & ->%list_elem_of_singleton & [[_ [[-> Hv]|[-> [_ ->]]]]|[? _]]);
          [|done|done].
        rewrite Hr in Hv. injection Hv as <-.
        by eapply only_prescribed_stable.
      - exists context. split; [done|]. split; [apply only_prescribed_refl|].
        intros key v (b & ->%list_elem_of_singleton & [[_ [[_ Hv]|[_ [[? Hv] _]]]]|[? _]]);
          congruence. }
    cbn [mbind result_bind].
    assert (ground_uuid ∈ all_uuids c1) as Hknown1 by (by rewrite (proj1 Hc1)).
    destruct (IH c1 Hknown1 Hrest) as (c2 & -> & Hc2 & Hset2).
    exists c2. split; [done|]. split; [by eapply only_prescribed_trans|].
    intros key v (b & [->|Hb]%elem_of_cons & Hv).
    + eapply only_prescribed_stable; [exact Hc2| |apply Hset1].
      * exists band. by split.
      * exists band. split; [by apply list_elem_of_singleton|done].
    + apply Hset2. by exists b.
Qed.

Lemma set_leaf_properties_prescribed ground_uuid bands some uuid context :
  uuid ∈ all_uuids context ->
  uuid ≠ ground_uuid ->
  some ⊆ bands ->
  exists context',
    set_leaf_properties uuid some context = Ok context' /\
    only_prescribed ground_uuid bands context context' /\
    (forall key v, prescribed ground_uuid some uuid key v ->
                   float_data context' !! (uuid, key) = Some v).
Proof.
  intros Hknown Hleaf. revert context Hknown.
  induction some as [|band some IH]; intros context Hknown Hsub;
    cbn [set_leaf_properties].
  - exists context. split; [done|]. split; [apply only_prescribed_refl|].
    intros key v (b & Hb & _). by apply elem_of_nil in Hb.
  - assert (band ∈ bands) as Hband by (apply Hsub; by left).
    assert (some ⊆ bands) as Hrest by (intros b Hb; apply Hsub; by right).
    assert (exists c0,
      match LEAF_REFLECTANCE !! band with
      | Some r => setPrimitiveDataFloat uuid ("reflectivity_" +:+ band) r context
      | None => Ok context
      end = Ok c0 /\
      only_prescribed ground_uuid bands context c0 /\
      (forall r, LEAF_REFLECTANCE !! band = Some r ->
                 float_data c0 !! (uuid, "reflectivity_" +:+ band) = Some r))
      as (c0 & -> & Hc0 & Hr0).
    { destruct (LEAF_REFLECTANCE !! band) as [r|] eqn:Hr.
      - assert (prescribed ground_uuid bands uuid ("reflectivity_" +:+ band) r) as Hpr.
        { exists band. split; [done|]. right. split; [done|]. by left. }
        destruct (prescribed_write _ _ _ _ _ context Hknown Hpr) as (c0 & -> & Hc0 & Hr0).
        exists c0. split; [done|]. split; [done|]. by intros ? [= <-].
      - exists context. split; [done|]. split; [apply only_prescribed_refl|]. done. }
    cbn [mbind result_bind].
    assert (uuid ∈ all_uuids c0) as Hknown0 by (by rewrite (proj1 Hc0)).
    assert (exists c1,
      match LEAF_TRANSMISSIVITY !! band with
      | Some t => setPrimitiveDataFloat uuid ("transmissivity_" +:+ band) t c0
      | None => Ok c0
      end = Ok c1 /\
      only_prescribed ground_uuid bands c0 c1 /\
      (forall t, LEAF_TRANSMISSIVITY !! band = Some t ->
                 float_data c1 !! (uuid, "transmissivity_" +:+ band) = Some t))
      as (c1 & -> & Hc1 & Ht1).
    { destruct (LEAF_TRANSMISSIVITY !! band) as [t|] eqn:Ht.
      - assert (prescribed ground_uuid bands uuid ("transmissivity_" +:+ band) t) as Hpt.
        { exists band. split; [done|]. right. split; [done|]. by right. }
        destruct (prescribed_write _ _ _ _ _ c0 Hknown0 Hpt) as (c1 & -> & Hc1 & Ht1).
        exists c1. split; [done|]. split; [done|]. by intros ? [= <-].
      - exists c0. split; [done|]. split; [apply only_prescribed_refl|]. done. }
    cbn [mbind result_bind].
    assert (uuid ∈ all_uuids c1) as Hknown1 by (by rewrite (proj1 Hc1)).
    destruct (IH c1 Hknown1 Hrest) as (c2 & -> & Hc2 & Hset2).
    exists c2. split; [done|].
    split; [eapply only_prescribed_trans; [|exact Hc2]; by eapply only_prescribed_trans|].
    intros key v (b & [->|Hb]%elem_of_cons & Hv).
    + assert (prescribed ground_uuid bands uuid key v) as Hp by (exists band; by split).
      eapply only_prescribed_stable; [exact Hc2|exact Hp|].
      destruct Hv as [[? _]|[_ [[-> Hv]|[-> Hv]]]]; [done| |by apply Ht1].
      eapply only_prescribed_stable; [exact Hc1|exact Hp|by apply Hr0].
    + apply Hset2. by exists b.
Qed.

Lemma set_all_properties_prescribed ground_uuid bands uuids context :
  (forall x, x ∈ uuids -> x ∈ all_uuids context) ->
  exists context',
    set_all_properties ground_uuid bands uuids context = Ok context' /\
    only_prescribed ground_uuid bands context context' /\
    (forall u key v, u ∈ uuids -> prescribed ground_uuid bands u key v ->
                     float_data context' !! (u, key) = Some v).
Proof.
  revert context.
  induction uuids as [|uuid uuids IH]; intros context Hknown; cbn [set_all_properties].
  - exists context. split; [done|]. split; [apply only_prescribed_refl|].
    intros u key v Hu. by apply elem_of_nil in Hu.
  - assert (uuid ∈ all_uuids context) as Hhead by (apply Hknown; by left).
    assert (exists c1,
      (if decide (uuid = ground_uuid)
       then set_soil_properties uuid bands context
       else set_leaf_properties uuid bands context) = Ok c1 /\
      only_prescribed ground_uuid bands context c1 /\
      (forall key v, prescribed ground_uuid bands uuid key v ->
                     float_data c1 !! (uuid, key) = Some v))
      as (c1 & -> & Hc1 & Hset1).
    { destruct (decide (uuid = ground_uuid)) as [->|Hleaf].
      - by apply set_soil_properties_prescribed.
      - by apply set_leaf_properties_prescribed. }
    cbn [mbind result_bind].
    destruct (IH c1) as (c2 & -> & Hc2 & Hset2).
    { intros x Hx. rewrite (proj1 Hc1). apply Hknown. by right. }
    exists c2. split; [done|]. split; [by eapply only_prescribed_trans|].
    intros u key v [->|Hu]%elem_of_cons Hv; [|by apply Hset2].
    eapply only_prescribed_stable; [exact Hc2|exact Hv|by apply Hset1].
Qed.

(** What [apply_radiative_properties] returns and leaves in the store. *)
Lemma apply_radiative_properties_spec context ground_uuid bands :
  exists context',
    apply_radiative_properties context ground_uuid bands
      = Ok (Z.of_nat (length (all_uuids context)), context') /\
    only_prescribed ground_uuid (default default_bands bands) context context' /\
    (forall u key v, u ∈ all_uuids context ->
       prescribed ground_uuid (default default_bands bands) u key v ->
       float_data context' !! (u, key) = Some v).
Proof.
  unfold apply_radiative_properties, getAllUUIDs.
  destruct (set_all_properties_prescribed ground_uuid (default default_bands bands)
              (all_uuids context) context) as (context' & Hrun & Hc & Hset); [done|].
  exists context'. unfold default_bands in *. rewrite Hrun. done.
Qed.

(** X15.  After apply_radiative_properties, for every requested band that
    SOIL_REFLECTANCE knows, the ground primitive holds reflectivity_<band>
    = SOIL_REFLECTANCE[band] and transmissivity_<band> = 0 (provided the
    store holds the ground identity); bands=None stands for all four
    bands. *)
Theorem ground_gets_the_soil_coefficients context ground_uuid bands band r :
  ground_uuid ∈ all_uuids context ->
  band ∈ default default_bands bands ->
  SOIL_REFLECTANCE !! band = Some r ->
  exists n context',
    apply_radiative_properties context ground_uuid bands = Ok (n, context') /\
    float_data context' !! (ground_uuid, "reflectivity_" +:+ band) = Some r /\
    float_data context' !! (ground_uuid, "transmissivity_" +:+ band) = Some 0%Q.
Proof.
  intros Hground Hband Hr.
  destruct (apply_radiative_properties_spec context ground_uuid bands)
    as (context' & Hrun & _ & Hset).
  eexists _, context'. split; [exact Hrun|]. split.
  - apply Hset; [done|]. exists band. split; [done|]. left. split; [done|]. by left.
  - apply Hset; [done|]. exists band. split; [done|]. left. split; [done|].
    right. by rewrite Hr.
Qed.

Lemma ground_gets_the_soil_coefficients_witness :
  exists n context',
    apply_radiative_properties Example.scene 0 None = Ok (n, context') /\
    float_data context' !! (0, "reflectivity_NIR") = Some (38 # 100)%Q /\
    float_data context' !! (0, "transmissivity_NIR") = Some 0%Q.
Proof.
  apply (ground_gets_the_soil_coefficients Example.scene 0 None "NIR" (38 # 100)).
  - vm_compute. apply list_elem_of_here.
  - cbn. do 3 right. left.
  - by vm_compute.
Defined.

(** X16.  apply_radiative_properties never raises and returns the number
    of entries of getAllUUIDs; it leaves the identities and all string
    data as they are, and every float field other than reflectivity_<band>
    and transmissivity_<band> of a requested band on a primitive of the
    store keeps its value (an RGB run leaves NIR coefficients alone). *)
Theorem radiative_properties_touch_only_the_requested_bands context ground_uuid bands :
  exists context',
    apply_radiative_properties context ground_uuid bands
      = Ok (Z.of_nat (length (all_uuids context)), context') /\
    all_uuids context' = all_uuids context /\
    next_uuid context' = next_uuid context /\
    string_data context' = string_data context /\
    (forall u key,
       u ∉ all_uuids context \/
       (forall band, band ∈ default default_bands bands ->
          key ≠ "reflectivity_" +:+ band /\ key ≠ "transmissivity_" +:+ band) ->
       float_data context' !! (u, key) = float_data context !! (u, key)).
Proof.
  destruct (apply_radiative_properties_spec context ground_uuid bands)
    as (context' & Hrun & (Hids & Hnext & Hstr & Hfloat) & _).
  exists context'. split; [done|]. split; [done|]. split; [done|]. split; [done|].
  intros u key Hwhy. destruct (Hfloat u key) as [Heq|(Hu & v & Hv & _)]; [done|].
  exfalso. destruct Hwhy as [Hout|Hkey]; [done|].
  destruct Hv as (band & Hband & Hv). destruct (Hkey band Hband) as [Hr Ht].
  destruct Hv as [[_ [[? _]|[? _]]]|[_ [[? _]|[? _]]]]; done.
Qed.

Lemma known_band_tables band :
  known_band band ->
  exists s r t,
    SOIL_REFLECTANCE !! band = Some s /\
    LEAF_REFLECTANCE !! band = Some r /\
    LEAF_TRANSMISSIVITY !! band = Some t /\
    (0 < s)%Q /\ (s < 1)%Q /\ (0 < r)%Q /\ (0 < t)%Q /\ (r + t < 1)%Q.
Proof.
  intros [-> | [-> | [-> | ->]]]; eexists _, _, _;
    (split; [by vm_compute|]); (split; [by vm_compute|]); (split; [by vm_compute|]);
    repeat split; by vm_compute.
Qed.

(** X17.  After apply_radiative_properties, every primitive of the store
    holds, for every requested band among Red, Green, Blue and NIR, a
    reflectivity r > 0 and a transmissivity t >= 0 with r + t < 1. *)
Theorem written_coefficients_conserve_energy context ground_uuid bands u band :
  u ∈ all_uuids context ->
  band ∈ default default_bands bands ->
  known_band band ->
  exists n context' r t,
    apply_radiative_properties context ground_uuid bands = Ok (n, context') /\
    float_data context' !! (u, "reflectivity_" +:+ band) = Some r /\
    float_data context' !! (u, "transmissivity_" +:+ band) = Some t /\
    (0 < r)%Q /\ (0 <= t)%Q /\ (r + t < 1)%Q.
Proof.
  intros Hu Hband Hknown.
  destruct (apply_radiative_properties_spec context ground_uuid bands)
    as (context' & Hrun & _ & Hset).
  destruct (known_band_tables band Hknown)
    as (s & r & t & Hs & Hr & Ht & Hs0 & Hs1 & Hr0 & Ht0 & Hrt).
  destruct (decide (u = ground_uuid)) as [->|Hleaf].
  - eexists _, context', s, 0%Q. split; [exact Hrun|]. split; [|split].
    + apply Hset; [done|]. exists band. split; [done|]. left. split; [done|]. by left.
    + apply Hset; [done|]. exists band. split; [done|]. left. split; [done|].
      right. by rewrite Hs.
    + split; [done|]. split; [done|]. lra.
  - eexists _, context', r, t. split; [exact Hrun|]. split; [|split].
    + apply Hset; [done|]. exists band. split; [done|]. right. split; [done|]. by left.
    + apply Hset; [done|]. exists band. split; [done|]. right. split; [done|]. by right.
    + split; [done|]. split; [lra|done].
Qed.

Lemma written_coefficients_conserve_energy_witness :
  exists n context' r t,
    apply_radiative_properties Example.scene 0 (Some ["Red"; "Green"; "Blue"])
      = Ok (n, context') /\
    float_data context' !! (4, "reflectivity_Green") = Some r /\
    float_data context' !! (4, "transmissivity_Green") = Some t /\
    (0 < r)%Q /\ (0 <= t)%Q /\ (r + t < 1)%Q.
Proof.
  apply (written_coefficients_conserve_energy
           Example.scene 0 (Some ["Red"; "Green"; "Blue"]) 4 "Green").
  - vm_compute. do 4 right. left.
  - cbn. right. left.
  - right. by left.
Defined.

End coefficient_invariants.

Section store_invariants.
Import Scene Soil Labels Properties Store Labelled Coefficients.

Lemma add_primitives_well_formed n context :
  well_formed context ->
  well_formed (add_primitives n context).2 /\
  length (all_uuids (add_primitives n context).2) = (length (all_uuids context) + n)%nat /\
  string_data (add_primitives n context).2 = string_data context /\
  float_data (add_primitives n context).2 = float_data context.
Proof.
  intros [Hnodup Hbelow]. split; [split|].
  - cbn. apply NoDup_app. split; [done|]. split.
    + intros u Hu (i & -> & _)%list_elem_of_fmap. apply Hbelow in Hu. lia.
    + apply NoDup_fmap_2; [|apply NoDup_seq]. intros i j ?. lia.
  - cbn. intros u [Hu|(i & -> & Hi)%list_elem_of_fmap]%elem_of_app.
    + apply Hbelow in Hu. lia.
    + apply elem_of_seq in Hi. lia.
  - cbn. by rewrite length_app, length_fmap, length_seq.
Qed.

Lemma create_soil_plane_well_formed inst context width length soil_texture subdivisions margin :
  well_formed context ->
  textured inst soil_texture = true \/ 0 < subdivisions ->
  exists context',
    create_soil_plane inst context width length soil_texture subdivisions margin
      = Ok ((next_uuid context, margin), context') /\
    well_formed context' /\
    (next_uuid context ∉ all_uuids context) /\
    next_uuid context ∈ all_uuids context' /\
    (Datatypes.length (all_uuids context')
      = (Datatypes.length (all_uuids context) + 1
         + surface_size inst soil_texture subdivisions)%nat) /\
    string_data context' = string_data context /\
    float_data context' = float_data context.
Proof.
  intros Hwf Hok.
  assert (next_uuid context ∉ all_uuids context) as Hnew.
  { intros Hin. apply (proj2 Hwf) in Hin. lia. }
  destruct (add_primitives_well_formed 1 context Hwf) as (Hwf1 & Hlen1 & Hstr1 & Hfloat1).
  set (context1 := (add_primitives 1 context).2) in *.
  assert (next_uuid context ∈ all_uuids context1) as Hin1.
  { subst context1. cbn. apply elem_of_app. right. rewrite Z.add_0_r. by left. }
  assert (forall n,
    well_formed (add_primitives n context1).2 /\
    next_uuid context ∈ all_uuids (add_primitives n context1).2 /\
    Datatypes.length (all_uuids (add_primitives n context1).2)
      = (Datatypes.length (all_uuids context) + 1 + n)%nat /\
    string_data (add_primitives n context1).2 = string_data context /\
    float_data (add_primitives n context1).2 = float_data context) as Hadd.
  { intros n. destruct (add_primitives_well_formed n context1 Hwf1) as (? & Hlen & ? & ?).
    split; [done|]. split; [|split; [lia|split; congruence]].
    rewrite add_primitives_uuids. apply elem_of_app. by left. }
  unfold create_soil_plane, addPatch, addTrianglesFromArraysTextured,
    surface_size, textured in *.
  fold context1.
  destruct (Hadd n_faces) as (? & ? & ? & ? & ?).
  destruct (Hadd (Z.to_nat subdivisions * Z.to_nat subdivisions)%nat)
    as (? & ? & ? & ? & ?).
  destruct (get_builtin_texture_path inst soil_texture) as [path|];
    [destruct (texture_usable inst path)|].
  - by eexists.
  - destruct Hok as [?|Hpos]; [done|]. rewrite addTile_returns by done. by eexists.
  - destruct Hok as [?|Hpos]; [done|]. rewrite addTile_returns by done. by eexists.
Qed.

(** X18.  On a store whose identities are distinct and below the counter:
    when the texture file is found and the engine accepts it, or the
    number of subdivisions is positive, create_soil_plane returns the
    given margin and a ground identity that was not in the store before
    and is in it afterwards, adds 1 + 2 primitives with the accepted
    texture and 1 + subdivisions^2 otherwise (missing file, or the except
    branch), keeps the identities distinct and touches no primitive data;
    without a usable texture and with subdivisions <= 0 it raises the
    ValueError of addTile. *)
Theorem soil_plane_keeps_the_store_well_formed
    inst context width length soil_texture subdivisions margin :
  well_formed context ->
  (textured inst soil_texture = true \/ 0 < subdivisions ->
   exists ground_uuid context',
     create_soil_plane inst context width length soil_texture subdivisions margin
       = Ok ((ground_uuid, margin), context') /\
     well_formed context' /\
     (ground_uuid ∉ all_uuids context) /\
     ground_uuid ∈ all_uuids context' /\
     (Datatypes.length (all_uuids context')
       = (Datatypes.length (all_uuids context) + 1
          + surface_size inst soil_texture subdivisions)%nat) /\
     string_data context' = string_data context /\
     float_data context' = float_data context) /\
  (textured inst soil_texture = false -> subdivisions <= 0 ->
   create_soil_plane inst context width length soil_texture subdivisions margin
   = Raise ValueError).
Proof.
  intros Hwf. split.
  - intros Hok.
    destruct (create_soil_plane_well_formed inst context width length soil_texture
                subdivisions margin Hwf Hok) as (context' & ?).
    by exists (next_uuid context), context'.
  - apply create_soil_plane_raises.
Qed.

Lemma new_context_well_formed : well_formed new_context.
Proof. split; [apply NoDup_nil_2|]. intros u Hu. by apply elem_of_nil in Hu. Qed.

Lemma soil_plane_keeps_the_store_well_formed_witness :
  (exists ground_uuid context',
     create_soil_plane Example.installation new_context 1 1 "dirt.jpg" 30 (3 # 10)
       = Ok ((ground_uuid, (3 # 10)%Q), context') /\
     well_formed context') /\
  create_soil_plane Example.installation new_context 1 1 "no_such_texture.jpg" 0 (1 # 4)
  = Raise ValueError.
Proof.
  split.
  - destruct (soil_plane_keeps_the_store_well_formed
                Example.installation new_context 1 1 "dirt.jpg" 30 (3 # 10))
      as [Hreturns _].
    { split; [apply NoDup_nil_2|]. intros u Hu. by apply elem_of_nil in Hu. }
    destruct Hreturns as (g & context' & Hrun & Hwf & _); [right; lia|].
    by exists g, context'.
  - apply (soil_plane_keeps_the_store_well_formed
             Example.installation new_context 1 1 "no_such_texture.jpg" 0 (1 # 4)).
    + split; [apply NoDup_nil_2|]. intros u Hu. by apply elem_of_nil in Hu.
    + reflexivity.
    + lia.
Defined.

(** X19.  Composition of the scene stages on a fresh Context, when
    create_soil_plane can make its surface (the texture is accepted or
    the number of subdivisions is positive): after create_soil_plane and
    any number of plant primitives, apply_species_labels and then
    apply_radiative_properties both accept the ground identity
    create_soil_plane returned and succeed, and the labelled count and
    the configured count they return are both the number of primitives
    in the scene. *)
Theorem scene_stages_agree_on_the_primitives
    inst width length soil_texture subdivisions margin n_plant_primitives
    (plant_species_map : gmap Z Z) bands :
  textured inst soil_texture = true \/ 0 < subdivisions ->
  exists ground_uuid c1 labeled_count bean_primitives c3 props_count c4,
    create_soil_plane inst new_context width length soil_texture subdivisions margin
      = Ok ((ground_uuid, margin), c1) /\
    apply_species_labels (add_primitives n_plant_primitives c1).2 ground_uuid plant_species_map
      = Ok ((labeled_count, bean_primitives, 0), c3) /\
    apply_radiative_properties c3 ground_uuid bands = Ok (props_count, c4) /\
    labeled_count = props_count /\
    props_count
    = Z.of_nat (1 + surface_size inst soil_texture subdivisions + n_plant_primitives) /\
    all_uuids c4 = all_uuids (add_primitives n_plant_primitives c1).2.
Proof.
  intros Hok.
  destruct (create_soil_plane_well_formed inst new_context width length soil_texture
              subdivisions margin new_context_well_formed Hok)
    as (c1 & Hsoil & Hwf1 & _ & Hground & Hlen1 & _).
  destruct (add_primitives_well_formed n_plant_primitives c1 Hwf1)
    as (Hwf2 & Hlen2 & _).
  set (c2 := (add_primitives n_plant_primitives c1).2) in *.
  assert (next_uuid new_context ∈ all_uuids c2) as Hground2.
  { subst c2. rewrite add_primitives_uuids. apply elem_of_app. by left. }
  destruct (apply_species_labels_counts c2 _ plant_species_map Hground2)
    as (c3 & Hlabels & Hids3 & _).
  destruct (apply_radiative_properties_spec c3 (next_uuid new_context) bands)
    as (c4 & Hprops & (Hids4 & _) & _).
  eexists _, c1, _, _, c3, _, c4.
  split; [exact Hsoil|]. split; [exact Hlabels|]. split; [exact Hprops|].
  rewrite Hids3. split; [by apply others_all_but_one; [apply Hwf2|]|].
  split; [|by rewrite Hids4, Hids3].
  rewrite Hlen2, Hlen1. cbn [Datatypes.length all_uuids new_context]. f_equal.
Qed.

Lemma scene_stages_agree_on_the_primitives_witness :
  exists ground_uuid c1 labeled_count bean_primitives c3 props_count c4,
    create_soil_plane Example.installation new_context 1 1 "no_such_texture.jpg" 3 (3 # 10)
      = Ok ((ground_uuid, (3 # 10)%Q), c1) /\
    apply_species_labels (add_primitives 4 c1).2 ground_uuid ∅
      = Ok ((labeled_count, bean_primitives, 0), c3) /\
    apply_radiative_properties c3 ground_uuid None = Ok (props_count, c4) /\
    labeled_count = props_count /\
    props_count = 14.
Proof.
  destruct (scene_stages_agree_on_the_primitives
              Example.installation 1 1 "no_such_texture.jpg" 3 (3 # 10) 4 ∅ None)
    as (g & c1 & l & b & c3 & n & c4 & Hsoil & Hlabels & Hprops & Hsame & Hcount & _);
    [right; lia|].
  exists g, c1, l, b, c3, n, c4. repeat split; done.
Defined.

End store_invariants.

(* ===================================================================== *)
(** * Further properties of the orchestrator *)
(* ===================================================================== *)

Section trace_rules.
Import Pipeline Traces.

(** Rules for [appends P], for a [P] that holds of the empty trace and of
    concatenations. *)
Context (P : list event -> Prop).
Context (P_nil : P []) (P_app : forall d1 d2, P d1 -> P d2 -> P (d1 ++ d2)).

Lemma appends_ret {A} (a : A) : appends P (mret a).
Proof. intros t. exists []. by rewrite app_nil_r. Qed.

Lemma appends_bind {A B} (m : M A) (f : A -> M B) :
  appends P m -> (forall a, appends P (f a)) -> appends P (m ≫= f).
Proof.
  intros Hm Hf t. unfold mbind, M_bind.
  destruct (Hm t) as (d1 & Ht1 & Hd1).
  destruct (m t) as [[a|e] t1]; cbn in Ht1; subst t1.
  - destruct (Hf a (t ++ d1)) as (d2 & Ht2 & Hd2).
    exists (d1 ++ d2). rewrite Ht2, app_assoc. auto.
  - exists d1. auto.
Qed.

Lemma appends_call w c :
  P [Called c] -> (forall e, P [Raised c e]) -> appends P (do_call w c).
Proof.
  intros Hc Hr t. unfold do_call.
  destruct (raises w c) as [e|]; eexists; split; [reflexivity|auto..].
Qed.

Lemma appends_print m : P [Printed m] -> appends P (print m).
Proof. intros Hm t. eexists. split; [reflexivity|done]. Qed.

Lemma appends_raise_at {A} c e : P [Raised c e] -> appends P (raise_at (A := A) c e).
Proof. intros Hm t. eexists. split; [reflexivity|done]. Qed.

Lemma appends_if {A} (b : bool) (m1 m2 : M A) :
  (b = true -> appends P m1) -> (b = false -> appends P m2) ->
  appends P (if b then m1 else m2).
Proof. destruct b; auto. Qed.

Lemma appends_when (b : bool) (m : M unit) :
  (b = true -> appends P m) -> appends P (when b m).
Proof. intros Hm. unfold when. apply appends_if; [done|]. intros _. apply appends_ret. Qed.

Lemma appends_try {A} (body : M A) (handler : exn -> M A) :
  appends P body -> (forall e, appends P (handler e)) ->
  appends P (try_except body handler).
Proof.
  intros Hb Hh t. unfold try_except.
  destruct (Hb t) as (d1 & Ht1 & Hd1).
  destruct (body t) as [[a|e] t1]; cbn in Ht1; subst t1.
  - exists d1. auto.
  - destruct (Hh e (t ++ d1)) as (d2 & Ht2 & Hd2).
    exists (d1 ++ d2). rewrite Ht2, app_assoc. auto.
Qed.

Lemma appends_with {A} w c (body : M A) (P' : list event -> Prop) :
  (forall e, P [Raised c e]) ->
  appends P' body ->
  (forall d, P' d -> P (Called c :: d ++ [Released c])) ->
  appends P (with_resource w c body).
Proof.
  intros Hr Hb Hclose t. unfold with_resource, releasing, mbind, M_bind, do_call.
  destruct (raises w c) as [e|].
  - eexists. split; [reflexivity|auto].
  - destruct (Hb (t ++ [Called c])) as (d & Ht & Hd).
    destruct (body (t ++ [Called c])) as [r t1]; cbn in Ht; subst t1. cbn.
    exists (Called c :: d ++ [Released c]). split; [|auto].
    by rewrite <- !app_assoc.
Qed.

End trace_rules.

Section trace_properties.
Import Pipeline Traces.

Lemma without_nil bad : without bad [].
Proof. intros ev Hin. inversion Hin. Qed.

Lemma without_app bad d1 d2 : without bad d1 -> without bad d2 -> without bad (d1 ++ d2).
Proof. intros H1 H2 ev [Hin|Hin]%elem_of_app; auto. Qed.

Lemma without_single bad ev : ev ∉ bad -> without bad [ev].
Proof. intros Hev ev' Hin. apply list_elem_of_singleton in Hin as ->. done. Qed.

Lemma appends_run {A} P (m : M A) : appends P m -> P (m []).2.
Proof. intros Hm. destruct (Hm []) as (d & -> & Hd). done. Qed.

(** The flags met on the way contradict the assumption. *)
Ltac flags_clash :=
  exfalso;
  repeat match goal with
         | H : andb _ _ = true |- _ => apply andb_prop in H as [? ?]
         end;
  congruence.

Ltac not_listed :=
  let Hin := fresh in
  intros Hin;
  repeat (apply elem_of_cons in Hin as [Hin|Hin]; [discriminate Hin|]);
  by apply elem_of_nil in Hin.

(** Walks through [main]: [nil] and [app] prove the two closure
    properties, [leaf] the property of a single event, [closed] that of a
    [with] block around a body that has it. *)
Ltac walk P nil app leaf closed :=
  repeat first
    [ apply (appends_ret _ nil)
    | apply (appends_with P _ _ _ P); [intros ?; leaf| |closed]
    | apply (appends_bind _ app); [|intros ?]
    | apply appends_call; [leaf | intros ?; leaf]
    | apply appends_print; leaf
    | apply appends_raise_at; leaf
    | apply (appends_when _ nil); intros ?
    | apply appends_if; intros ?
    | apply (appends_try _ app); [|intros ?] ].

Ltac harmless := first [flags_clash | apply without_single; not_listed].

Ltac harmless_block bad :=
  let d := fresh "d" in
  let Hd := fresh "Hd" in
  intros d Hd;
  apply (without_app bad [_]); [apply without_single; not_listed|];
  apply without_app; [exact Hd|apply without_single; not_listed].

Ltac walk_without bad :=
  walk (without bad) (without_nil bad) (without_app bad) harmless ltac:(harmless_block bad).

(** X22.  Without --save, main never calls get_next_output_folder,
    save_camera_images, save_segmentation_masks, export_scene or
    save_scene_metadata, whatever the other flags are and whichever calls
    raise. *)
Theorem nothing_written_without_save args w :
  save args = false ->
  without [Called get_next_output_folder; Called save_camera_images;
           Called save_segmentation_masks; Called export_scene;
           Called save_scene_metadata]
          (main args w []).2.
Proof.
  intros Hsave. apply appends_run.
  unfold main, radiation_session. cbv zeta.
  walk_without [Called get_next_output_folder; Called save_camera_images;
                Called save_segmentation_masks; Called export_scene;
                Called save_scene_metadata].
Qed.

(** X23.  save_segmentation_masks is called only if --camera, --save and
    --segmentation are all set and save_camera_images returned a primary
    image name, whichever calls raise. *)
Theorem masks_need_all_four args w :
  Called save_segmentation_masks ∈ (main args w []).2 ->
  camera args = true /\ save args = true /\
  segmentation args = true /\ primary_image w = true.
Proof.
  intros Hin.
  assert (camera args && save args && segmentation args && primary_image w = false ->
          without [Called save_segmentation_masks] (main args w []).2) as Hnever.
  { intros Hflags. apply appends_run.
    unfold main, radiation_session. cbv zeta.
    destruct (camera args), (save args), (segmentation args), (primary_image w);
      try discriminate Hflags;
      walk_without [Called save_segmentation_masks]. }
  destruct (camera args), (save args), (segmentation args), (primary_image w);
    try done; destruct (Hnever eq_refl _ Hin); by left.
Qed.

Lemma occurrences_app ev d1 d2 :
  occurrences ev (d1 ++ d2) = (occurrences ev d1 + occurrences ev d2)%nat.
Proof. unfold occurrences. by rewrite filter_app, length_app. Qed.

Lemma balanced_nil : balanced [].
Proof. by intros c _. Qed.

Lemma balanced_app d1 d2 : balanced d1 -> balanced d2 -> balanced (d1 ++ d2).
Proof. intros H1 H2 c Hc. rewrite !occurrences_app. by rewrite H1, H2. Qed.

Lemma occurrences_single ev ev' :
  occurrences ev [ev'] = if decide (ev' = ev) then 1%nat else 0%nat.
Proof. unfold occurrences. rewrite filter_cons, filter_nil. by destruct (decide (ev' = ev)). Qed.

Lemma balanced_block c d : balanced d -> balanced (Called c :: d ++ [Released c]).
Proof.
  intros Hd c' Hc'.
  change (Called c :: d ++ [Released c]) with ([Called c] ++ d ++ [Released c]).
  rewrite !occurrences_app, (Hd c' Hc'), !occurrences_single.
  repeat case_decide; simplify_eq; lia.
Qed.

Ltac balanced_single :=
  let c := fresh "c" in
  let Hc := fresh "Hc" in
  intros c Hc; destruct c; try discriminate Hc; reflexivity.

(** X24.  In every run of main, whatever raises and wherever, each of the
    two with-blocks (PlantArchitecture and RadiationModel) is left as
    often as it was entered. *)
Theorem resources_are_released args w : balanced (main args w []).2.
Proof.
  apply appends_run. unfold main, radiation_session. cbv zeta.
  walk balanced balanced_nil balanced_app balanced_single ltac:(apply balanced_block).
Qed.

Lemma finishes_run {A} Q (m : M A) : finishes Q m -> Q (m []).1 (m []).2.
Proof. intros Hm. destruct (Hm []) as (r & d & -> & Hd). done. Qed.

Lemma provenance_ret {A} (a : A) : finishes provenance (mret a).
Proof.
  intros t. exists (Ok a), []. rewrite app_nil_r. split; [done|].
  split; [intros c e Hin; inversion Hin|intros e [=]].
Qed.

Lemma provenance_bind {A B} (m : M A) (f : A -> M B) :
  finishes provenance m -> (forall a, finishes provenance (f a)) ->
  finishes provenance (m ≫= f).
Proof.
  intros Hm Hf t. unfold mbind, M_bind.
  destruct (Hm t) as (r1 & d1 & -> & Hfrom1 & Hto1).
  destruct r1 as [a|e1].
  - destruct (Hf a (t ++ d1)) as (r2 & d2 & -> & Hfrom2 & Hto2).
    exists r2, (d1 ++ d2). rewrite app_assoc. split; [done|]. split.
    + intros c e [Hin|Hin]%elem_of_app Hout; [|by eapply Hfrom2].
      by specialize (Hfrom1 c e Hin Hout).
    + intros e Hr. destruct (Hto2 e Hr) as (c & Hout & Hin).
      exists c. split; [done|]. apply elem_of_app. by right.
  - exists (Raise e1), d1. split; [done|]. split.
    + intros c e Hin Hout. by specialize (Hfrom1 c e Hin Hout) as [= ->].
    + intros e [= <-]. by apply Hto1.
Qed.

Lemma provenance_call w c :
  in_radiation_session c = false -> finishes provenance (do_call w c).
Proof.
  intros Hout t. unfold do_call. destruct (raises w c) as [e|].
  - exists (Raise e), [Raised c e]. split; [done|]. split.
    + by intros c' e' [= -> ->]%list_elem_of_singleton _.
    + intros e' [= <-]. exists c. split; [done|by left].
  - exists (Ok ()), [Called c]. split; [done|]. split.
    + by intros c' e' [=]%list_elem_of_singleton.
    + intros e' [=].
Qed.

Lemma provenance_raise_at {A} c e :
  in_radiation_session c = false -> finishes provenance (raise_at (A := A) c e).
Proof.
  intros Hout t. exists (Raise e), [Raised c e]. split; [done|]. split.
  - by intros c' e' [= -> ->]%list_elem_of_singleton _.
  - intros e' [= <-]. exists c. split; [done|by left].
Qed.

Lemma provenance_print m : finishes provenance (print m).
Proof.
  intros t. exists (Ok ()), [Printed m]. split; [done|]. split.
  - by intros c' e' [=]%list_elem_of_singleton.
  - intros e' [=].
Qed.

Lemma provenance_if {A} (b : bool) (m1 m2 : M A) :
  finishes provenance m1 -> finishes provenance m2 ->
  finishes provenance (if b then m1 else m2).
Proof. by destruct b. Qed.

Lemma provenance_when (b : bool) (m : M unit) :
  finishes provenance m -> finishes provenance (when b m).
Proof. intros Hm. apply provenance_if; [done|apply provenance_ret]. Qed.

Lemma provenance_with {A} w c (body : M A) :
  in_radiation_session c = false ->
  finishes provenance body -> finishes provenance (with_resource w c body).
Proof.
  intros Hout Hb t. unfold with_resource, releasing, mbind, M_bind, do_call.
  destruct (raises w c) as [e|].
  - exists (Raise e), [Raised c e]. split; [done|]. split.
    + by intros c' e' [= -> ->]%list_elem_of_singleton _.
    + intros e' [= <-]. exists c. split; [done|by left].
  - destruct (Hb (t ++ [Called c])) as (r & d & -> & Hfrom & Hto). cbn.
    exists r, (Called c :: d ++ [Released c]). split; [by rewrite <- !app_assoc|]. split.
    + intros c' e' Hin Hout'. apply (Hfrom c' e'); [|done].
      apply elem_of_cons in Hin as [[=]|Hin].
      apply elem_of_app in Hin as [Hin|Hin]; [done|].
      by apply list_elem_of_singleton in Hin.
    + intros e' Hr. destruct (Hto e' Hr) as (c' & Hout' & Hin).
      exists c'. split; [done|]. right. apply elem_of_app. by left.
Qed.

Lemma provenance_session args w output_folder :
  finishes provenance (radiation_session args w output_folder).
Proof.
  intros t.
  destruct (radiation_session_spec args w output_folder t) as (d & -> & Hraised & _).
  exists (Ok ()), d. split; [done|]. split.
  - intros c e Hin Hout. destruct (Hraised c e Hin) as [Hin_session _]. congruence.
  - intros e [=].
Qed.

(** X25.  main ends with an exception exactly when a call outside the try
    block of the camera stage raised it: an exception raised by such a
    call always leaves main, and an exception that leaves main was raised
    by such a call (never by one inside the try block). *)
Theorem exceptions_leave_main_from_outside_the_try args w :
  (forall c e, Raised c e ∈ (main args w []).2 ->
               in_radiation_session c = false -> (main args w []).1 = Raise e) /\
  (forall e, (main args w []).1 = Raise e ->
             exists c, in_radiation_session c = false /\ Raised c e ∈ (main args w []).2).
Proof.
  apply (finishes_run provenance). unfold main. cbv zeta.
  repeat first
    [ apply provenance_ret
    | apply provenance_session
    | apply provenance_with; [reflexivity|]
    | apply provenance_bind; [|intros ?]
    | apply provenance_call; reflexivity
    | apply provenance_raise_at; reflexivity
    | apply provenance_print
    | apply provenance_when
    | apply provenance_if ].
Qed.

(** X20.  If check_required_plugins reports a missing plugin, main returns
    the exit status 1 having made no call other than parse_date_time and
    check_required_plugins: no Helios context is created and nothing is
    written. *)
Theorem missing_plugin_stops_before_the_scene args w :
  raises w parse_date_time = None ->
  raises w check_required_plugins = None ->
  plugins_available w = false ->
  main args w [] = (Ok 1, [Called parse_date_time; Called check_required_plugins]).
Proof.
  intros Hparse Hcheck Hplugins.
  unfold main, mbind, M_bind, do_call. cbv zeta.
  by rewrite Hparse, Hcheck, Hplugins.
Qed.

Ltac event_cases H :=
  repeat (apply elem_of_cons in H as [H|H]; [try discriminate H|]);
  try (apply elem_of_nil in H; destruct H).

Ltac stage_iff :=
  split;
  [ let Hin := fresh "Hin" in
    intros Hin; first [by repeat split | exfalso; event_cases Hin]
  | let Hb := fresh "Hb" in
    intros Hb; first [solve [repeat constructor] | exfalso; by intuition discriminate] ].

(** X21.  When no call raises, the plugins are available and (with --save)
    the plot area is not zero, main returns 0 after printing the
    completion banner, and each optional stage runs exactly under its
    flags: growth iff one of the two ages exceeds DEFAULT_INITIAL_AGE,
    labelling iff --segmentation, radiative properties and the simulation
    iff --camera, image writing iff --camera and --save, mask writing iff
    additionally --segmentation and a primary image was written, the 'Use
    --save' hint iff --camera without --save, export and metadata iff
    --save, the interactive view iff not --no-interactive. *)
Theorem quiet_run_stages args w :
  (forall c, raises w c = None) ->
  plugins_available w = true ->
  (save args = true -> ~ (plot_width args * plot_length args == 0)%Q) ->
  (main args w []).1 = Ok 0 /\
  last (main args w []).2 = Some (Printed msg_complete) /\
  (Called grow_plants ∈ (main args w []).2
     <-> DEFAULT_INITIAL_AGE < default (growth_days args) (bean_age args) \/
         DEFAULT_INITIAL_AGE < default (growth_days args) (wheat_age args)) /\
  (Called apply_species_labels ∈ (main args w []).2 <-> segmentation args = true) /\
  (Called apply_radiative_properties ∈ (main args w []).2 <-> camera args = true) /\
  (Called run_camera_simulation ∈ (main args w []).2 <-> camera args = true) /\
  (Called save_camera_images ∈ (main args w []).2
     <-> camera args = true /\ save args = true) /\
  (Called save_segmentation_masks ∈ (main args w []).2
     <-> camera args = true /\ save args = true /\
         segmentation args = true /\ primary_image w = true) /\
  (Printed msg_use_save ∈ (main args w []).2
     <-> camera args = true /\ save args = false) /\
  (Called export_scene ∈ (main args w []).2 <-> save args = true) /\
  (Called save_scene_metadata ∈ (main args w []).2 <-> save args = true) /\
  (Called render_interactive ∈ (main args w []).2 <-> no_interactive args = false).
Proof.
  intros Hquiet Hplugins Harea.
  destruct (main args w []) as [r t] eqn:Hmain. cbn [fst snd].
  destruct args as [pw pl gd ba wa cam multi seg sv ni]. cbn in Harea |- *.
  unfold main, radiation_session, try_except, with_resource, releasing, when,
    print, raise_at in Hmain.
  unfold mbind, M_bind, mret, M_ret, do_call in Hmain.
  rewrite Hplugins in Hmain.
  assert (sv = true -> Qeq_bool (pw * pl) 0 = false) as Hzero.
  { intros Hsv. destruct (Qeq_bool (pw * pl) 0) eqn:Heq; [|done].
    apply Qeq_bool_iff in Heq. by destruct (Harea Hsv). }
  unfold DEFAULT_INITIAL_AGE in *.
  destruct (primary_image w), (0 <? _) eqn:Hgrow, cam, seg, sv, ni;
    first [apply Z.ltb_lt in Hgrow | apply Z.ltb_ge in Hgrow]; cbn in Hgrow;
    cbn -[Qeq_bool] in Hmain; rewrite ?Hquiet in Hmain;
    cbn -[Qeq_bool] in Hmain; rewrite ?Hzero in Hmain by done;
    cbn in Hmain; injection Hmain as <- <-;
    (split; [reflexivity|]); (split; [reflexivity|]);
    (split; [split; [intros Hin; first [lia | exfalso; event_cases Hin]
                    |intros Hb; first [solve [repeat constructor] | lia]]|]);
    repeat (split; [stage_iff|]); stage_iff.
Qed.

End trace_properties.

Section pipeline_runs.
Import Pipeline Traces.

Lemma missing_plugin_stops_before_the_scene_witness :
  main (Example.command_line true true true false)
       {| raises := fun _ => None; plugins_available := false; primary_image := true |} []
  = (Ok 1, [Called parse_date_time; Called check_required_plugins]).
Proof.
  apply (missing_plugin_stops_before_the_scene
           (Example.command_line true true true false)
           {| raises := fun _ => None; plugins_available := false;
              primary_image := true |}); reflexivity.
Defined.

Lemma quiet_run_stages_witness :
  (main (Example.command_line true true true true) Example.quiet []).1 = Ok 0.
Proof.
  apply (quiet_run_stages (Example.command_line true true true true) Example.quiet).
  - intros c. reflexivity.
  - reflexivity.
  - intros _ Hzero. vm_compute in Hzero. discriminate Hzero.
Defined.

Lemma nothing_written_without_save_witness :
  without [Called get_next_output_folder; Called save_camera_images;
           Called save_segmentation_masks; Called export_scene;
           Called save_scene_metadata]
          (main (Example.command_line true true false true) Example.quiet []).2.
Proof.
  apply (nothing_written_without_save
           (Example.command_line true true false true) Example.quiet).
  reflexivity.
Defined.

Lemma masks_need_all_four_witness :
  camera (Example.command_line true true true true) = true /\
  save (Example.command_line true true true true) = true /\
  segmentation (Example.command_line true true true true) = true /\
  primary_image Example.quiet = true.
Proof.
  apply (masks_need_all_four (Example.command_line true true true true) Example.quiet).
  vm_compute. repeat first [apply list_elem_of_here | apply list_elem_of_further].
Defined.

End pipeline_runs.

(* ===================================================================== *)
(** * Start-up, image files and output folders *)
(* ===================================================================== *)

Section startup_checks.
Import Startup.

Lemma check_plugins_spec is_plugin_available required all_available out :
  check_plugins is_plugin_available required all_available out
  = (all_available && forallb is_plugin_available required,
     out ++ (error_not_available
               <$> filter (fun plugin => is_plugin_available plugin = false) required)).
Proof.
  revert all_available out.
  induction required as [|plugin required IH]; intros b out; cbn [check_plugins forallb].
  - by rewrite andb_true_r, app_nil_r.
  - rewrite filter_cons. destruct (is_plugin_available plugin) eqn:Havailable; cbn [negb].
    + rewrite decide_False by done. by rewrite IH.
    + rewrite decide_True by done. rewrite IH, andb_false_r. cbn. by rewrite <- app_assoc.
Qed.

(** X26.  check_required_plugins returns True exactly when every required
    plugin (by default plantarchitecture, visualizer, solarposition) is
    available; it prints one ERROR line for every missing plugin, in order
    and without stopping at the first, and prints the success line only
    when none is missing. *)
Theorem every_missing_plugin_is_reported is_plugin_available required :
  let required' := default default_required required in
  let missing := filter (fun plugin => is_plugin_available plugin = false) required' in
  check_required_plugins is_plugin_available required
  = (forallb is_plugin_available required',
     (error_not_available <$> missing)
       ++ (if forallb is_plugin_available required' then [all_plugins_available] else []))
  /\ ((check_required_plugins is_plugin_available required).1 = true <-> missing = []).
Proof.
  intros required' missing. unfold check_required_plugins. fold required'.
  rewrite check_plugins_spec. cbn [andb app]. fold missing.
  assert (forallb is_plugin_available required' = true <-> missing = []) as Hiff.
  { subst missing. clearbody required'. induction required' as [|p l IH]; [done|].
    cbn [forallb]. rewrite filter_cons.
    destruct (is_plugin_available p); cbn [andb].
    - by rewrite decide_False.
    - rewrite decide_True by done. split; intros; discriminate. }
  split; [|done].
  destruct (forallb is_plugin_available required'); [done|]. by rewrite app_nil_r.
Qed.

End startup_checks.

Section image_files.
Import Imaging.

(** X27.  Once the images folder exists, save_camera_images never raises:
    it returns the name of the primary image when writeCameraImage (base
    'multispectral' or 'rgb' by camera type) succeeds and None when it
    raises; a failure of writeNormCameraImage is only reported and does
    not change the returned name, and the export failure message is
    printed exactly when the primary write raised. *)
Theorem a_failed_normalized_image_keeps_the_primary_image w camera_type save_normalized :
  mkdir_images w = None ->
  (save_camera_images w camera_type save_normalized).1
  = Ok (match writeCameraImage w (primary_base camera_type) with
        | Ok image_file => Some (path_name w image_file)
        | Raise _ => None
        end)
  /\ (forall e, normalized_failed e ∈ (save_camera_images w camera_type save_normalized).2 ->
        save_normalized = true /\
        writeNormCameraImage w "rgb_normalized" = Raise e /\
        exists image_file,
          (save_camera_images w camera_type save_normalized).1
          = Ok (Some (path_name w image_file)))
  /\ (forall e, export_failed e ∈ (save_camera_images w camera_type save_normalized).2 <->
        writeCameraImage w (primary_base camera_type) = Raise e).
Proof.
  intros Hmkdir. unfold save_camera_images, primary_base, save_normalized_image.
  rewrite Hmkdir.
  destruct (decide (camera_type = "multispectral")) as [Hmulti|Hrgb];
    destruct (writeCameraImage w _) as [image_file|e0]; cbn [fst snd];
    (split; [done|]);
    (split; [intros e He|intros e; split; intros He]);
    try (destruct save_normalized;
         [destruct (writeNormCameraImage w "rgb_normalized") as [norm|e1]|]);
    cbn [app] in He;
    repeat match goal with
           | H : _ ∈ _ :: _ |- _ => apply elem_of_cons in H as [H|H]
           | H : _ ∈ [] |- _ => by apply elem_of_nil in H
           end;
    simplify_eq; eauto using list_elem_of_here.
Qed.

End image_files.

Lemma a_failed_normalized_image_keeps_the_primary_image_witness :
  (Imaging.save_camera_images
     {| Imaging.mkdir_images := None;
        Imaging.writeCameraImage := fun base => Ok ("out/1/images/" +:+ base +:+ ".jpeg");
        Imaging.writeNormCameraImage := fun _ => Raise HeliosError;
        Imaging.path_name := fun path => path |} "rgb" true).1
  = Ok (Some "out/1/images/rgb.jpeg").
Proof.
  apply (a_failed_normalized_image_keeps_the_primary_image
           {| Imaging.mkdir_images := None;
              Imaging.writeCameraImage := fun base => Ok ("out/1/images/" +:+ base +:+ ".jpeg");
              Imaging.writeNormCameraImage := fun _ => Raise HeliosError;
              Imaging.path_name := fun path => path |} "rgb" true).
  reflexivity.
Defined.

Section output_folders.
Import Files.

Lemma digit_char a d :
  is_digit a = true -> exists d', NilEmpty.uint_of_string (String a EmptyString) = Some d' /\
                                  DecimalString.uint_of_char a (Some d) <> None.
Proof.
  destruct a as [[] [] [] [] [] [] [] []]; try discriminate; intros _;
    (eexists; split; [reflexivity|discriminate]).
Qed.

Lemma uint_of_char_digit a d :
  DecimalString.uint_of_char a (Some d) <> None -> is_digit a = true.
Proof.
  destruct a as [[] [] [] [] [] [] [] []]; cbn; try done.
Qed.

Lemma uint_of_char_none a : DecimalString.uint_of_char a None = None.
Proof. by destruct a as [[] [] [] [] [] [] [] []]. Qed.

Lemma digits_parse s :
  forallb is_digit (String.list_ascii_of_string s) = true
  <-> is_Some (NilEmpty.uint_of_string s).
Proof.
  induction s as [|a s IH]; cbn [String.list_ascii_of_string forallb
                                  NilEmpty.uint_of_string].
  - split; [by eexists|done].
  - rewrite andb_true_iff, IH. split.
    + intros [Ha [d Hd]]. rewrite Hd.
      destruct (digit_char a d Ha) as (_ & _ & Hsome).
      by destruct (DecimalString.uint_of_char a (Some d)).
    + intros [d Hd]. destruct (NilEmpty.uint_of_string s) as [d'|].
      * split; [|by eexists]. eapply uint_of_char_digit. by rewrite Hd.
      * by rewrite uint_of_char_none in Hd.
Qed.

Lemma isdigit_parses s : isdigit s = true <-> is_Some (py_int_of_string s).
Proof.
  unfold py_int_of_string. rewrite fmap_is_Some.
  destruct s as [|a s]; [split; [done|by intros [? ?]]|].
  unfold isdigit, NilZero.uint_of_string. apply digits_parse.
Qed.

Lemma to_uint_nonnil n : N.to_uint n <> Decimal.Nil.
Proof.
  intros Hnil. assert (N.of_uint (N.to_uint n) = N.of_uint (N.to_uint 0)) as Heq.
  { rewrite Hnil. reflexivity. }
  rewrite !DecimalN.Unsigned.of_to in Heq. subst n. discriminate Hnil.
Qed.

(** [int(str(n)) == n]. *)
Lemma int_str n : py_int_of_string (py_str n) = Some n.
Proof.
  unfold py_int_of_string, py_str.
  rewrite NilZero.usu by apply to_uint_nonnil. cbn.
  by rewrite DecimalN.Unsigned.of_to.
Qed.

Lemma isdigit_str n : isdigit (py_str n) = true.
Proof. apply isdigit_parses. rewrite int_str. by eexists. Qed.

Lemma py_str_inj n n' : py_str n = py_str n' -> n = n'.
Proof.
  intros Heq. assert (Some n = Some n') as [=]; [|done].
  by rewrite <- !int_str, Heq.
Qed.

(** The comprehension never fails, and lists the numbers of the numbered
    folders. *)
Lemma existing_spec entries :
  exists l, existing entries = Some l /\ forall k, k ∈ l <-> numbered entries k.
Proof.
  unfold existing, numbered. induction entries as [|[name is_dir] entries IH].
  - exists []. split; [done|]. intros k. split; [by intros ?%elem_of_nil|].
    by intros (name & ?%elem_of_nil & _).
  - destruct IH as (l & Hl & Hin). rewrite filter_cons. cbn [fst snd].
    destruct (decide (is_dir = true /\ isdigit name = true)) as [[-> Hdigit]|Hskip].
    + destruct (proj1 (isdigit_parses name) Hdigit) as [n Hn].
      exists (n :: l). split.
      * cbn [mapM]. cbn [fst]. rewrite Hn. cbn. by rewrite Hl.
      * intros k. rewrite elem_of_cons, Hin. split.
        -- intros [->|(name' & Hname' & Hd & Hk)].
           ++ exists name. split; [by left|done].
           ++ exists name'. split; [by right|done].
        -- intros (name' & [[= -> ]|Hname']%elem_of_cons & Hd & Hk).
           ++ left. congruence.
           ++ right. by exists name'.
    + exists l. split; [done|]. intros k. rewrite Hin. split.
      * intros (name' & Hname' & Hd & Hk). exists name'. split; [by right|done].
      * intros (name' & [[= -> <-]|Hname']%elem_of_cons & Hd & Hk).
        -- destruct Hskip. by split.
        -- by exists name'.
Qed.

Lemma py_max_default_spec l :
  (forall k, k ∈ l -> (k <= py_max_default l)%N) /\
  (py_max_default l = 0%N \/ py_max_default l ∈ l).
Proof.
  induction l as [|n l [Hub Hin]]; cbn [py_max_default foldr].
  - split; [by intros k ?%elem_of_nil|by left].
  - fold (py_max_default l). split.
    + intros k [->|Hk]%elem_of_cons; [lia|]. specialize (Hub k Hk). lia.
    + right. destruct (N.max_spec n (py_max_default l)) as [[Hlt ->]|[_ ->]].
      * destruct Hin as [Hz|Hin]; [lia|by right].
      * by left.
Qed.

(** What the function does on a base directory it can list. *)
Lemma get_next_output_folder_spec base :
  base ≠ NotADirectory ->
  exists n,
    (0 < n)%N /\
    (forall k, numbered (entries_of base) k -> (k < n)%N) /\
    (n = 1%N \/ numbered (entries_of base) (n - 1)) /\
    ((py_str n, true) ∉ entries_of base) /\
    get_next_output_folder base
    = if decide ((py_str n, false) ∈ entries_of base) then inl FileExistsError
      else inr (py_str n, entries_of base ++ [(py_str n, true)]).
Proof.
  intros Hbase.
  destruct (existing_spec (entries_of base)) as (l & Hl & Hin).
  destruct (py_max_default_spec l) as [Hub Hmax].
  exists (py_max_default l + 1)%N.
  assert (forall k, numbered (entries_of base) k -> (k < py_max_default l + 1)%N) as Hbelow.
  { intros k Hk%Hin%Hub. lia. }
  assert ((py_str (py_max_default l + 1), true) ∉ entries_of base) as Hfresh.
  { intros Hentry.
    assert (numbered (entries_of base) (py_max_default l + 1)) as Hk.
    { eexists. split; [exact Hentry|]. split; [apply isdigit_str|apply int_str]. }
    apply Hbelow in Hk. lia. }
  split; [lia|]. split; [done|]. split; [|split; [done|]].
  - destruct Hmax as [->|Hmax]; [by left|]. right.
    replace (py_max_default l + 1 - 1)%N with (py_max_default l) by lia. by apply Hin.
  - unfold get_next_output_folder.
    replace (match base with Directory entries => entries | _ => [] end)
      with (entries_of base) by done.
    rewrite Hl. unfold mkdir.
    destruct base; try done; destruct (decide (_ ∈ _)); try done;
      by rewrite decide_False.
Qed.

(** X28.  When get_next_output_folder returns, the returned folder name is
    a decimal number that no entry of the base directory (directory or
    file) carried before, its value is positive and larger than the number
    of every existing numbered directory (leading zeros included), and the
    base directory gains exactly that one directory (entry names taken as
    ASCII). *)
Theorem the_next_output_folder_is_new base name entries' :
  get_next_output_folder base = inr (name, entries') ->
  ((name, true) ∉ entries_of base) /\
  ((name, false) ∉ entries_of base) /\
  entries' = entries_of base ++ [(name, true)] /\
  isdigit name = true /\
  exists n, py_int_of_string name = Some n /\ (0 < n)%N /\
            forall k, numbered (entries_of base) k -> (k < n)%N.
Proof.
  intros Hrun.
  assert (base ≠ NotADirectory) as Hbase by (by intros ->).
  destruct (get_next_output_folder_spec base Hbase)
    as (n & Hpos & Hbelow & _ & Hfresh & Hspec).
  rewrite Hspec in Hrun. destruct (decide (_ ∈ _)) as [|Hfile]; [done|].
  injection Hrun as <- <-.
  split; [done|]. split; [done|]. split; [done|]. split; [apply isdigit_str|].
  exists n. split; [apply int_str|done].
Qed.

Lemma the_next_output_folder_is_new_witness :
  (("8", true) ∉ [("007", true); ("notes", true); ("9", false); ("x1", true)]) /\
  isdigit "8" = true.
Proof.
  destruct (the_next_output_folder_is_new
              (Directory [("007", true); ("notes", true); ("9", false); ("x1", true)])
              "8"
              [("007", true); ("notes", true); ("9", false); ("x1", true); ("8", true)]
              ltac:(by vm_compute)) as (Hfresh & _ & _ & Hdigit & _).
  by split.
Defined.

(** X29.  Consecutive calls count up: if get_next_output_folder returned
    folder n, the next call on the same base directory returns folder n +
    1, unless a regular file named n + 1 is in the way, in which case
    mkdir raises FileExistsError. *)
Theorem output_folders_count_up base name entries' :
  get_next_output_folder base = inr (name, entries') ->
  exists n,
    name = py_str n /\
    get_next_output_folder (Directory entries')
    = if decide ((py_str (n + 1), false) ∈ entries_of base) then inl FileExistsError
      else inr (py_str (n + 1), entries' ++ [(py_str (n + 1), true)]).
Proof.
  intros Hrun.
  assert (base ≠ NotADirectory) as Hbase by (by intros ->).
  destruct (get_next_output_folder_spec base Hbase)
    as (n & Hpos & Hbelow & _ & Hfresh & Hspec).
  rewrite Hspec in Hrun. destruct (decide (_ ∈ _)) as [|Hfile]; [done|].
  injection Hrun as <- <-. exists n. split; [done|].
  destruct (get_next_output_folder_spec
              (Directory (entries_of base ++ [(py_str n, true)])))
    as (n' & Hpos' & Hbelow' & Hmax' & _ & ->); [done|].
  cbn [entries_of] in *.
  assert (numbered (entries_of base ++ [(py_str n, true)]) n) as Hn.
  { exists (py_str n). split; [apply elem_of_app; right; by left|].
    split; [apply isdigit_str|apply int_str]. }
  assert (n' = (n + 1)%N) as ->.
  { apply Hbelow' in Hn. destruct Hmax' as [->|(name & Hname & Hdigit & Hint)]; [lia|].
    apply elem_of_app in Hname as [Hname|[= ->]%list_elem_of_singleton].
    - assert (n' - 1 < n)%N; [|lia]. apply Hbelow. by exists name.
    - rewrite int_str in Hint. injection Hint as Hint. lia. }
  destruct (decide ((py_str (n + 1), false) ∈ entries_of base)) as [Hblock|Hfree].
  - rewrite decide_True; [done|]. apply elem_of_app. by left.
  - rewrite decide_False; [done|].
    intros [?|[=]%list_elem_of_singleton]%elem_of_app. done.
Qed.

Lemma output_folders_count_up_witness :
  exists n,
    "1" = py_str n /\
    get_next_output_folder (Directory [("1", true)])
    = if decide ((py_str (n + 1), false) ∈ entries_of Missing) then inl FileExistsError
      else inr (py_str (n + 1), [("1", true)] ++ [(py_str (n + 1), true)]).
Proof.
  apply (output_folders_count_up Missing "1" [("1", true)]). by vm_compute.
Defined.

End output_folders.

(* ===================================================================== *)
(** * Dates *)
(* ===================================================================== *)

Section date_fields.
Import DateTime.
Context {py_int_of_str : PyInt}.

Lemma split_nonempty sep s : exists part parts, split sep s = part :: parts.
Proof.
  induction s as [|c s (part & parts & IH)]; cbn [split]; [by eexists _, _|].
  destruct (decide (c = sep)); [by eexists _, _|]. rewrite IH. by eexists _, _.
Qed.

Lemma length_split sep s : length (split sep s) = S (count sep s).
Proof.
  induction s as [|c s IH]; cbn [split count]; [done|].
  destruct (decide (c = sep)); cbn [length]; [by rewrite IH|].
  destruct (split_nonempty sep s) as (part & parts & Hs). rewrite Hs in *. apply IH.
Qed.

(** A piece without the separator, followed by the separator, is the
    first piece. *)
Lemma split_app sep a b :
  count sep a = 0%nat ->
  split sep (a +:+ String sep b) = a :: split sep b.
Proof.
  induction a as [|c a IH]; simpl; intros Hcount.
  - by rewrite decide_True.
  - destruct (decide (c = sep)); [done|]. by rewrite IH.
Qed.

Lemma append_empty s : s +:+ EmptyString = s.
Proof.
  induction s as [|c s IH]; [done|].
  change (String c (s +:+ EmptyString) = String c s). by rewrite IH.
Qed.

Lemma split_whole sep a : count sep a = 0%nat -> split sep a = [a].
Proof.
  induction a as [|c a IH]; cbn [count split]; intros Hcount; [done|].
  destruct (decide (c = sep)); [done|]. by rewrite IH.
Qed.

(** X30.  parse_date_time reads the first three '-' separated fields of
    the date and the two ':' separated fields of the time with int, in
    that order, and ignores further date fields; whenever it returns, the
    date held at least two '-' and the time exactly one ':' (Python's int
    is a parameter of the model). *)
Theorem a_date_is_read_by_its_first_three_fields :
  (forall ys ms ds more hs mis,
     count "-"%char ys = 0%nat -> count "-"%char ms = 0%nat -> count "-"%char ds = 0%nat ->
     more = EmptyString \/ (exists extra, more = String "-" extra) ->
     count ":"%char hs = 0%nat -> count ":"%char mis = 0%nat ->
     parse_date_time (ys +:+ "-" +:+ ms +:+ "-" +:+ ds +:+ more) (hs +:+ ":" +:+ mis)
     = (year ← int ys; month ← int ms; day ← int ds;
        hour ← int hs; minute ← int mis;
        Ok (year, month, day, hour, minute))) /\
  (forall date_str time_str parsed,
     parse_date_time date_str time_str = Ok parsed ->
     (2 <= count "-"%char date_str)%nat /\ count ":"%char time_str = 1%nat).
Proof.
  split.
  - intros ys ms ds more hs mis Hys Hms Hds Hmore Hhs Hmis.
    unfold parse_date_time, int_part.
    change (ys +:+ "-" +:+ ms +:+ "-" +:+ ds +:+ more)
      with (ys +:+ String "-" (ms +:+ String "-" (ds +:+ more))).
    change (hs +:+ ":" +:+ mis) with (hs +:+ String ":" mis).
    rewrite !split_app by done. rewrite (split_whole ":"%char mis) by done.
    assert (exists parts, split "-"%char (ds +:+ more) = ds :: parts) as [parts ->].
    { destruct Hmore as [->|[extra ->]].
      - exists []. rewrite append_empty. by apply split_whole.
      - eexists. by apply split_app. }
    unfold py_getitem. cbn [unpack_two].
    change (Z.to_nat 0) with 0%nat. change (Z.to_nat 1) with 1%nat.
    change (Z.to_nat 2) with 2%nat. cbn [lookup list_lookup].
    unfold mbind, result_bind.
    destruct (int ys); [|reflexivity]. destruct (int ms); [|reflexivity].
    destruct (int ds); [|reflexivity]. destruct (int hs); [|reflexivity].
    destruct (int mis); reflexivity.
  - intros date_str time_str parsed. unfold parse_date_time, int_part.
    pose proof (length_split "-"%char date_str) as Hdate.
    pose proof (length_split ":"%char time_str) as Htime.
    unfold py_getitem, mbind, result_bind.
    change (Z.to_nat 0) with 0%nat. change (Z.to_nat 1) with 1%nat.
    change (Z.to_nat 2) with 2%nat.
    destruct (split "-"%char date_str) as [|p0 [|p1 [|p2 rest]]];
      cbn [length lookup list_lookup] in Hdate |- *;
      repeat match goal with
             | |- context [int ?p] => destruct (int p); try discriminate
             end; try discriminate.
    destruct (split ":"%char time_str) as [|t0 [|t1 [|t2 more]]];
      cbn [length unpack_two] in Htime |- *;
      repeat match goal with
             | |- context [int ?p] => destruct (int p); try discriminate
             end; try discriminate.
    intros _. split; lia.
Qed.

End date_fields.

Lemma a_date_is_read_by_its_first_three_fields_witness :
  DateTime.parse_date_time (py_int_of_str := DateTime.digits_only) "2022-06-14" "12:00"
  = Ok (2022, 6, 14, 12, 0)
  /\ (2 <= DateTime.count "-"%char "2022-06-14")%nat.
Proof.
  destruct (a_date_is_read_by_its_first_three_fields (py_int_of_str := DateTime.digits_only))
    as [Hreads Hshape].
  split; [by vm_compute|].
  apply (Hshape "2022-06-14" "12:00" (2022, 6, 14, 12, 0)). by vm_compute.
Defined.
